(** * PyPortal psychedelic screensaver: effect generators, palettes, schedulers

    A shallow embedding of the effect rendering engine of the repository:
    the effect schedulers ([ScreensaverManager], [PyPortalScreensaver]),
    the palette builders, and the per-effect pattern generators.

    Numbers.  Python [int] is [Z].  A Python [float] that only ever carries
    rational arithmetic (clock readings, the fire average, drop positions,
    the Mandelbrot plane) is an exact rational [Q], so those parts of the
    model run.  A [float] that goes through [math.sin], [math.cos],
    [math.sqrt] or [math.atan2] is a real number [R]: rounding of binary64
    is not modelled.

    Effects.  [random] is an injected stream of draws with a cursor;
    [time.monotonic()] readings are arguments of the functions that read
    the clock; a bitmap write is an entry [(x, y, value)] of the list of
    writes a frame performs; [print] of an effect switch is an event of the
    scheduler's log.  The wiring of the display ([TileGrid], [Group],
    [root_group]), the other console lines and [gc] carry no state of the
    engine and are left out.

    Each class of the source is a module of the same name, with the state
    of an instance as the record [t] and the methods as functions on it. *)

From Stdlib Require Import ZArith QArith Qround Qpower Reals Lia Psatz List Bool.
From stdpp Require Import base list.
Import ListNotations.

Open Scope Z_scope.

(* ================================================================== *)
(** ** Python numerics *)

Module Py.

(** [int(q)] on a rational float: truncation toward zero. *)
Definition int_Q (q : Q) : Z :=
  if Qle_bool 0 q then Qfloor q else Qceiling q.

(** [int(r)] on a real float: truncation toward zero. *)
Definition int_R (r : R) : Z :=
  if Rle_dec 0 r then Int_part r else - Int_part (- r).

(** Float [a // b] and [a % b] (sign of the divisor, as Python has them). *)
Definition floordiv_R (a b : R) : R := IZR (Int_part (a / b)).
Definition fmod_R (a b : R) : R := (a - b * IZR (Int_part (a / b)))%R.
Definition fmod_Q (a b : Q) : Q := (a - b * inject_Z (Qfloor (a / b)))%Q.

(** [math.atan2(y, x)]. *)
Definition atan2 (y x : R) : R :=
  if Rlt_dec 0 x then atan (y / x)
  else if Rlt_dec x 0 then
    (if Rle_dec 0 y then atan (y / x) + PI else atan (y / x) - PI)%R
  else if Rlt_dec 0 y then (PI / 2)%R
  else if Rlt_dec y 0 then (- (PI / 2))%R
  else 0%R.

(** [range(start, stop, step)] for a non-zero step. *)
Definition range3 (start stop step : Z) : list Z :=
  let n :=
    if 0 <? step then (stop - start + step - 1) / step
    else (start - stop - step - 1) / (- step) in
  map (fun k => start + step * Z.of_nat k) (seq 0 (Z.to_nat n)).

Definition range (n : Z) : list Z := range3 0 n 1.

(** [a > b] and [a < b] on rational floats. *)
Definition gt_Q (a b : Q) : bool := negb (Qle_bool a b).
Definition lt_Q (a b : Q) : bool := negb (Qle_bool b a).

(** The idiom [max(lo, min(hi, v))]. *)
Definition clamp (lo hi v : Z) : Z := Z.max lo (Z.min hi v).

End Py.

(* ================================================================== *)
(** ** The injected random source *)

Module Random.

(** The stream of raw draws and the position of the next one.  Each call
    of the [random] module consumes one position. *)
Record rng := {
  int_draws : nat -> Z;
  unit_draws : nat -> R;
  cursor : nat
}.

Definition advance (g : rng) : rng :=
  {| int_draws := int_draws g; unit_draws := unit_draws g; cursor := S (cursor g) |}.

(** [random.randint(a, b)]: an integer of [a..b], both ends included. *)
Definition randint (a b : Z) (g : rng) : Z * rng :=
  (a + int_draws g (cursor g) mod (b - a + 1), advance g).

(** [random.choice(l)] on a non-empty list. *)
Definition choice {A} (d : A) (l : list A) (g : rng) : A * rng :=
  (nth (Z.to_nat (int_draws g (cursor g) mod Z.of_nat (length l))) l d, advance g).

(** [random.uniform(a, b)]: a float of [a..b]. *)
Definition uniform (a b : R) (g : rng) : R * rng :=
  ((a + (b - a) * Rmax 0 (Rmin 1 (unit_draws g (cursor g))))%R, advance g).

(** The source whose every raw draw is [z] (and [u] for floats). *)
Definition constant (z : Z) (u : R) : rng :=
  {| int_draws := fun _ => z; unit_draws := fun _ => u; cursor := 0 |}.

End Random.

(* ================================================================== *)
(** ** Effect identifiers and the schedulers' log *)

Inductive effect_id :=
| PlasmaEffect_id | SpiralEffect_id | MatrixEffect_id | ColorMatrixEffect_id
| JuliaFractalEffect_id | FireEffect_id | StarfieldEffect_id
| SineWaveEffect_id | StreamersEffect_id
| PlasmaField_id | Kaleidoscope_id | Mandelbrot_id.

(** What a scheduler does to its effects and prints, in order. *)
Inductive event :=
| Switched (index : Z)      (* the "Switched to ..." line of a transition *)
| ResetEffect (index : Z)   (* [current_effect.reset()] *)
| Rendered (index : Z).     (* [current_effect.update()] *)

Definition is_switch (e : event) : bool :=
  match e with Switched _ => true | _ => false end.

Definition transitions (log : list event) : nat :=
  length (filter (fun e => is_switch e = true) log).

(* ================================================================== *)
(** ** [ScreensaverManager] (pyportal_8effects_stable.py) *)

Module ScreensaverManager.

Record t := {
  effects : list effect_id;
  current_effect_index : Z;
  auto_scroll_time : Q;
  last_scroll_time : Q
}.

(** The manager over the effects [l]; [now] is the reading of
    [time.monotonic()] at construction. *)
Definition start (l : list effect_id) (now : Q) : t :=
  {| effects := l;
     current_effect_index := 0;
     auto_scroll_time := 10;
     last_scroll_time := now |}.

(** [__init__] of pyportal_8effects_stable.py. *)
Definition __init__ (now : Q) : t :=
  start [PlasmaEffect_id; SpiralEffect_id; MatrixEffect_id;
         ColorMatrixEffect_id; JuliaFractalEffect_id; FireEffect_id;
         StarfieldEffect_id; SineWaveEffect_id; StreamersEffect_id] now.

(** [__init__] of pyportal_autoscroll_2effects.py: the same manager over
    two effects. *)
Definition __init__2effects (now : Q) : t :=
  start [PlasmaEffect_id; SpiralEffect_id] now.

(** [self.current_effect], kept equal to [effects[current_effect_index]]. *)
Definition current_effect (s : t) : option effect_id :=
  effects s !! Z.to_nat (current_effect_index s).

Definition next_effect (s : t) : t * list event :=
  let i := (current_effect_index s + 1) mod Z.of_nat (length (effects s)) in
  ({| effects := effects s;
      current_effect_index := i;
      auto_scroll_time := auto_scroll_time s;
      last_scroll_time := last_scroll_time s |},
   [Switched i; ResetEffect i]).

Definition handle_auto_scroll (s : t) (current_time : Q) : t * list event :=
  if Qle_bool (auto_scroll_time s) (current_time - last_scroll_time s) then
    let '(s1, log) := next_effect s in
    ({| effects := effects s1;
        current_effect_index := current_effect_index s1;
        auto_scroll_time := auto_scroll_time s1;
        last_scroll_time := current_time |}, log)
  else (s, []).

Definition update (s : t) (current_time : Q) : t * list event :=
  let '(s1, log) := handle_auto_scroll s current_time in
  (s1, log ++ [Rendered (current_effect_index s1)]).

(** The main loop over the clock readings of successive ticks. *)
Fixpoint run (s : t) (ticks : list Q) : t * list event :=
  match ticks with
  | [] => (s, [])
  | now :: rest =>
      let '(s1, log1) := update s now in
      let '(s2, log2) := run s1 rest in
      (s2, log1 ++ log2)
  end.

(** What the constructor fixes stays fixed along every run. *)
Definition manager_inv (l : list effect_id) (s : t) : Prop :=
  effects s = l /\ auto_scroll_time s = 10%Q /\
  0 <= current_effect_index s < Z.of_nat (length l).

End ScreensaverManager.

(* ================================================================== *)
(** ** [PyPortalScreensaver] (examples/pyportal_screensaver.py) *)

Module PyPortalScreensaver.

Record t := {
  effects : list effect_id;
  current_effect_index : Z;
  last_touch_time : Q;
  touch_debounce : Q;
  auto_advance_time : Q;
  last_advance_time : Q;
  frame_time : Q;
  last_frame_time : Q
}.

(** One call of [update]: the touch sample and the clock readings the call
    makes, in the order it makes them. *)
Record tick := {
  touch_value : bool;
  t_update : Q;        (* [current_time] of [update] *)
  t_touch : Q;         (* [current_time] of [handle_touch] *)
  t_advance_touch : Q; (* read by [advance_effect] when the touch calls it *)
  t_advance_auto : Q   (* read by [advance_effect] when the timer calls it *)
}.

Definition __init__ (now : Q) : t :=
  {| effects := [PlasmaField_id; Kaleidoscope_id; Mandelbrot_id];
     current_effect_index := 0;
     last_touch_time := 0;
     touch_debounce := 1 # 2;
     auto_advance_time := 30;
     last_advance_time := now;
     frame_time := 1 # 15;
     last_frame_time := 0 |}.

(** [self.current_effect], kept equal to [effects[current_effect_index]]. *)
Definition current_effect (s : t) : option effect_id :=
  effects s !! Z.to_nat (current_effect_index s).

Definition advance_effect (s : t) (now : Q) : t * list event :=
  let i := (current_effect_index s + 1) mod Z.of_nat (length (effects s)) in
  ({| effects := effects s;
      current_effect_index := i;
      last_touch_time := last_touch_time s;
      touch_debounce := touch_debounce s;
      auto_advance_time := auto_advance_time s;
      last_advance_time := now;
      frame_time := frame_time s;
      last_frame_time := last_frame_time s |},
   [ResetEffect i; Switched i]).

Definition set_last_touch_time (s : t) (v : Q) : t :=
  {| effects := effects s;
     current_effect_index := current_effect_index s;
     last_touch_time := v;
     touch_debounce := touch_debounce s;
     auto_advance_time := auto_advance_time s;
     last_advance_time := last_advance_time s;
     frame_time := frame_time s;
     last_frame_time := last_frame_time s |}.

Definition set_last_frame_time (s : t) (v : Q) : t :=
  {| effects := effects s;
     current_effect_index := current_effect_index s;
     last_touch_time := last_touch_time s;
     touch_debounce := touch_debounce s;
     auto_advance_time := auto_advance_time s;
     last_advance_time := last_advance_time s;
     frame_time := frame_time s;
     last_frame_time := v |}.

Definition handle_touch (s : t) (k : tick) : t * list event :=
  let current_time := t_touch k in
  if touch_value k && Py.gt_Q (current_time - last_touch_time s) (touch_debounce s) then
    let '(s1, log) := advance_effect s (t_advance_touch k) in
    (set_last_touch_time s1 current_time, log)
  else (s, []).

Definition update (s : t) (k : tick) : t * list event :=
  let current_time := t_update k in
  let '(s1, log1) := handle_touch s k in
  let '(s2, log2) :=
    if Py.gt_Q (current_time - last_advance_time s1) (auto_advance_time s1)
    then advance_effect s1 (t_advance_auto k) else (s1, []) in
  let '(s3, log3) :=
    if Qle_bool (frame_time s2) (current_time - last_frame_time s2)
    then (set_last_frame_time s2 current_time,
          [Rendered (current_effect_index s2)])
    else (s2, []) in
  (s3, log1 ++ log2 ++ log3).

Fixpoint run (s : t) (ticks : list tick) : t * list event :=
  match ticks with
  | [] => (s, [])
  | k :: rest =>
      let '(s1, log1) := update s k in
      let '(s2, log2) := run s1 rest in
      (s2, log1 ++ log2)
  end.

(** The clock never runs backwards within a call of [update]. *)
Definition monotone (k : tick) : Prop :=
  (t_update k <= t_touch k)%Q /\ (t_touch k <= t_advance_touch k)%Q.

(** A tick whose clock readings all coincide, with the sensor touched or
    released. *)
Definition tap (now : Q) : tick :=
  {| touch_value := true; t_update := now; t_touch := now;
     t_advance_touch := now; t_advance_auto := now |}.

Definition release (now : Q) : tick :=
  {| touch_value := false; t_update := now; t_touch := now;
     t_advance_touch := now; t_advance_auto := now |}.

(** A later tick that falls in the debounce window opened at [t_a]. *)
Definition in_window (t_a : Q) (b : tick) : Prop :=
  (t_update b <= t_touch b)%Q /\ (t_touch b - t_a < 1 # 2)%Q.

End PyPortalScreensaver.

(* ================================================================== *)
(** ** Bitmaps and palettes *)

(** A palette entry, and a bitmap write [(x, y, value)]. *)
Definition rgb : Type := Z * Z * Z.
Definition write : Type := Z * Z * Z.

Module Bitmap.

Definition value (w : write) : Z := snd w.

(** [displayio.Bitmap(width, height, value_count)] takes the values
    [0 .. value_count - 1]; a write of any other value raises. *)
Definition accepts (value_count : Z) (w : write) : Prop :=
  0 <= value w < value_count.

(** The 2x2 block the fractals fill from the pixel they computed, and the
    starfield draws for a near star. *)
Definition block2x2 (width height x y color_index : Z) : list write :=
  [(x, y, color_index)]
  ++ (if x + 1 <? width then [(x + 1, y, color_index)] else [])
  ++ (if y + 1 <? height
      then (x, y + 1, color_index)
           :: (if x + 1 <? width then [(x + 1, y + 1, color_index)] else [])
      else []).

End Bitmap.

(** How an escape-time loop is left: through [return i] at the test
    [|z|^2 > 4], or by running out of iterations ([return 0]). *)
Inductive outcome :=
| Escaped (i : Z)
| Inside.

Definition iterations_of (o : outcome) : Z :=
  match o with Escaped i => i | Inside => 0 end.

(* ================================================================== *)
(** ** [Mandelbrot] (screensaver_effects/mandelbrot.py) *)

Module Mandelbrot.

Definition palette_entry (i : Z) : rgb :=
  if i =? 0 then (0, 0, 0)
  else
    let t := (IZR i / 255)%R in
    let r := Py.int_R (127 + 127 * sin (t * PI * 4)) in
    let g := Py.int_R (127 + 127 * sin (t * PI * 4 + 2.094)) in
    let b := Py.int_R (127 + 127 * sin (t * PI * 4 + 4.188)) in
    let r := Py.int_R (IZR r * (0.8 + 0.4 * sin (t * PI * 8))) in
    let g := Py.int_R (IZR g * (0.8 + 0.4 * sin (t * PI * 6))) in
    let b := Py.int_R (IZR b * (0.8 + 0.4 * sin (t * PI * 10))) in
    (Py.clamp 0 255 r, Py.clamp 0 255 g, Py.clamp 0 255 b).

Definition _init_mandelbrot_palette : list rgb :=
  map palette_entry (Py.range 256).

Record t := {
  width : Z;
  height : Z;
  palette : list rgb;
  zoom : Q;
  zoom_speed : Q;
  center_x : Q;
  center_y : Q;
  max_iterations : Z;
  time : Q;
  color_offset : Q;
  zoom_center_x : Q;
  zoom_center_y : Q;
  zoom_cycle_time : Z;
  frame_count : Z
}.

Definition __init__ (display_width display_height : Z) : t :=
  {| width := display_width;
     height := display_height;
     palette := _init_mandelbrot_palette;
     zoom := 1;
     zoom_speed := 102 # 100;
     center_x := - (1 # 2);
     center_y := 0;
     max_iterations := 32;
     time := 0;
     color_offset := 0;
     zoom_center_x := - (235125 # 1000000);
     zoom_center_y := 827215 # 1000000;
     zoom_cycle_time := 200;
     frame_count := 0 |}.

Definition reset (s : t) : t :=
  {| width := width s;
     height := height s;
     palette := palette s;
     zoom := 1;
     zoom_speed := zoom_speed s;
     center_x := center_x s;
     center_y := center_y s;
     max_iterations := max_iterations s;
     time := 0;
     color_offset := 0;
     zoom_center_x := zoom_center_x s;
     zoom_center_y := zoom_center_y s;
     zoom_cycle_time := zoom_cycle_time s;
     frame_count := 0 |}.

(** The [for i in range(max_iterations)] loop from iteration [i] on, with
    [fuel] iterations left. *)
Fixpoint iterate (cx cy : Q) (fuel : nat) (i : Z) (x y : Q) : outcome :=
  match fuel with
  | O => Inside
  | S fuel' =>
      if Py.gt_Q (x * x + y * y) 4 then Escaped i
      else iterate cx cy fuel' (i + 1) (x * x - y * y + cx) (2 * x * y + cy)
  end.

Definition escape_loop (max_iterations : Z) (cx cy : Q) : outcome :=
  iterate cx cy (Z.to_nat max_iterations) 0 0 0.

Definition _mandelbrot_iteration (s : t) (cx cy : Q) : Z :=
  iterations_of (escape_loop (max_iterations s) cx cy).

Definition _screen_to_complex (s : t) (screen_x screen_y : Z) : Q * Q :=
  let aspect_ratio := (inject_Z (width s) / inject_Z (height s))%Q in
  let plane_width := (4 / zoom s)%Q in
  let plane_height := (plane_width / aspect_ratio)%Q in
  (center_x s + (inject_Z screen_x / inject_Z (width s) - (1 # 2)) * plane_width,
   center_y s + (inject_Z screen_y / inject_Z (height s) - (1 # 2)) * plane_height)%Q.

(** The palette index [update] computes for the pixel [(x, y)]. *)
Definition color_index (s : t) (x y : Z) : Z :=
  let '(cx, cy) := _screen_to_complex s x y in
  let iterations := _mandelbrot_iteration s cx cy in
  if iterations =? 0 then 0
  else Py.int_Q (Py.fmod_Q (inject_Z iterations + color_offset s) 255) + 1.

(** The state [update] renders from: time, zoom cycle and colour offset
    moved on by one frame. *)
Definition advance (s : t) : t :=
  let frame_count1 := frame_count s + 1 in
  let cycling := frame_count1 <? zoom_cycle_time s in
  {| width := width s;
     height := height s;
     palette := palette s;
     zoom := if cycling then zoom s * zoom_speed s else 1;
     zoom_speed := zoom_speed s;
     center_x := if cycling
                 then center_x s + (zoom_center_x s - center_x s) * (1 # 100)
                 else - (1 # 2);
     center_y := if cycling
                 then center_y s + (zoom_center_y s - center_y s) * (1 # 100)
                 else 0;
     max_iterations := max_iterations s;
     time := time s + (1 # 10);
     color_offset := color_offset s + 2;
     zoom_center_x := zoom_center_x s;
     zoom_center_y := zoom_center_y s;
     zoom_cycle_time := zoom_cycle_time s;
     frame_count := if cycling then frame_count1 else 0 |}.

Definition frame (s : t) : list write :=
  flat_map (fun y =>
    flat_map (fun x =>
      Bitmap.block2x2 (width s) (height s) x y (color_index s x y))
      (Py.range3 0 (width s) 2))
    (Py.range3 0 (height s) 2).

Definition update (s : t) : t * list write :=
  let s1 := advance s in (s1, frame s1).

End Mandelbrot.

(* ================================================================== *)
(** ** [JuliaFractalEffect] (pyportal_8effects_stable.py) *)

Module JuliaFractalEffect.

Definition palette_entry (i : Z) : rgb :=
  if i =? 0 then (0, 0, 0)
  else
    let t := (IZR i / 63)%R in
    let r := Py.int_R (127 + 127 * sin (t * PI * 6)) in
    let g := Py.int_R (127 + 127 * sin (t * PI * 4 + 2)) in
    let b := Py.int_R (127 + 127 * sin (t * PI * 8 + 4)) in
    let intensity := (0.7 + 0.3 * sin (t * PI * 12))%R in
    let r := Py.int_R (IZR r * intensity) in
    let g := Py.int_R (IZR g * intensity) in
    let b := Py.int_R (IZR b * intensity) in
    (Py.clamp 0 255 r, Py.clamp 0 255 g, Py.clamp 0 255 b).

Definition _init_palette : list rgb := map palette_entry (Py.range 64).

Record t := {
  width : Z;
  height : Z;
  palette : list rgb;
  zoom : R;
  center_x : R;
  center_y : R;
  max_iterations : Z;
  c_real : R;
  c_imag : R;
  time : R;
  color_offset : R
}.

Definition reset (s : t) : t :=
  {| width := width s;
     height := height s;
     palette := palette s;
     zoom := zoom s;
     center_x := center_x s;
     center_y := center_y s;
     max_iterations := max_iterations s;
     c_real := c_real s;
     c_imag := c_imag s;
     time := 0;
     color_offset := 0 |}.

Definition __init__ : t :=
  reset
    {| width := 320;
       height := 240;
       palette := _init_palette;
       zoom := 1.5;
       center_x := -0.7;
       center_y := 0;
       max_iterations := 20;
       c_real := -0.4;
       c_imag := 0.6;
       time := 0;
       color_offset := 0 |}.

Fixpoint iterate (c_re c_im : R) (fuel : nat) (i : Z) (zx zy : R) : outcome :=
  match fuel with
  | O => Inside
  | S fuel' =>
      if Rgt_dec (zx * zx + zy * zy) 4 then Escaped i
      else iterate c_re c_im fuel' (i + 1)
             (zx * zx - zy * zy + c_re) (2 * zx * zy + c_im)
  end.

(** The point of the complex plane the pixel [(x, y)] stands for. *)
Definition point (s : t) (x y : Z) : R * R :=
  ((IZR x / IZR (width s / 2) - 0.5) * 4.0 / zoom s + center_x s,
   (IZR y / IZR (height s / 2) - 0.5) * 4.0 / zoom s + center_y s)%R.

Definition escape_loop (s : t) (x y : Z) : outcome :=
  let '(zx, zy) := point s x y in
  iterate (c_real s) (c_imag s) (Z.to_nat (max_iterations s)) 0 zx zy.

Definition _julia_iteration (s : t) (x y : Z) : Z :=
  iterations_of (escape_loop s x y).

Definition color_index (s : t) (x y : Z) : Z :=
  let iterations := _julia_iteration s x y in
  if iterations =? 0 then 0
  else Py.int_R (Py.fmod_R (IZR iterations + color_offset s) 63) + 1.

Definition advance (s : t) : t :=
  let time1 := (time s + 0.05)%R in
  {| width := width s;
     height := height s;
     palette := palette s;
     zoom := 1.5 + 0.3 * sin (time1 * 0.3);
     center_x := center_x s;
     center_y := center_y s;
     max_iterations := max_iterations s;
     c_real := -0.4 + 0.3 * sin (time1 * 0.5);
     c_imag := 0.6 + 0.2 * cos (time1 * 0.7);
     time := time1;
     color_offset := color_offset s + 1.0 |}.

Definition frame (s : t) : list write :=
  flat_map (fun y =>
    flat_map (fun x =>
      Bitmap.block2x2 (width s / 2) (height s / 2) x y (color_index s x y))
      (Py.range3 0 (width s / 2) 2))
    (Py.range3 0 (height s / 2) 2).

Definition update (s : t) : t * list write :=
  let s1 := advance s in (s1, frame s1).

End JuliaFractalEffect.

(* ================================================================== *)
(** ** [FireEffect] (pyportal_8effects_stable.py) *)

Module FireEffect.

(** [fire_buffer[y][x]]: a list of rows.  Every index the code uses lies
    inside the grid, so the out-of-range behaviour of the accessors (read
    0, write nothing) is never reached. *)
Abbreviation grid := (list (list Z)).

Definition get (buf : grid) (y x : Z) : Z :=
  default 0 (buf !! Z.to_nat y ≫= fun row => row !! Z.to_nat x).

Definition set (buf : grid) (y x v : Z) : grid :=
  alter (fun row => <[Z.to_nat x := v]> row) (Z.to_nat y) buf.

Definition palette_entry (i : Z) : rgb :=
  let intensity := (inject_Z i / 31)%Q in
  let '(r, g, b) :=
    if Py.lt_Q intensity (3 # 10) then
      let t := (intensity / (3 # 10))%Q in
      (Py.int_Q (t * 128), 0, 0)
    else if Py.lt_Q intensity (6 # 10) then
      let t := ((intensity - (3 # 10)) / (3 # 10))%Q in
      (Py.int_Q (128 + t * 127), 0, 0)
    else if Py.lt_Q intensity (8 # 10) then
      let t := ((intensity - (6 # 10)) / (2 # 10))%Q in
      (255, Py.int_Q (t * 165), 0)
    else if Py.lt_Q intensity (95 # 100) then
      let t := ((intensity - (8 # 10)) / (15 # 100))%Q in
      (255, Py.int_Q (165 + t * 90), Py.int_Q (t * 100))
    else
      let t := ((intensity - (95 # 100)) / (5 # 100))%Q in
      (255, 255, Py.int_Q (100 + t * 155)) in
  (Py.clamp 0 255 r, Py.clamp 0 255 g, Py.clamp 0 255 b).

Definition _init_fire_palette : list rgb := map palette_entry (Py.range 32).

Section Simulation.
Variables fire_width fire_height : Z.

Definition _init_fire_source (buf : grid) : grid :=
  fold_left (fun b x => set b (fire_height - 1) x 31) (Py.range fire_width) buf.

(** [heat_sum] and [heat_count] over the cell, the cell below and their
    left and right neighbours, as far as they lie in the grid. *)
Definition heat_around (buf : grid) (x y : Z) : Z * Z :=
  fold_left
    (fun acc d =>
       let nx := x + fst d in
       let ny := y + snd d in
       if (0 <=? nx) && (nx <? fire_width) && (0 <=? ny) && (ny <? fire_height)
       then (fst acc + get buf ny nx, snd acc + 1)
       else acc)
    [(-1, 0); (-1, 1); (0, 0); (0, 1); (1, 0); (1, 1)]
    (0, 0).

(** The heat the pass gives the cell [(x, y)], and the draws it takes. *)
Definition new_heat (buf : grid) (g : Random.rng) (x y : Z) : Z * Random.rng :=
  let '(heat_sum, heat_count) := heat_around buf x y in
  if 0 <? heat_count then
    let avg_heat := (inject_Z heat_sum / inject_Z heat_count)%Q in
    let '(cooling, g1) := Random.randint 1 3 g in
    let heat := Z.max 0 (Py.int_Q (avg_heat - inject_Z cooling)) in
    let '(flicker, g2) := Random.randint 0 10 g1 in
    if flicker <? 3 then
      let '(extra, g3) := Random.randint 0 2 g2 in
      (Z.min 31 (Z.max 0 (heat - extra)), g3)
    else (Z.min 31 heat, g2)
  else (0, g).

Definition cell_step (y : Z) (st : grid * Random.rng) (x : Z) : grid * Random.rng :=
  let '(v, g1) := new_heat (fst st) (snd st) x y in
  (set (fst st) y x v, g1).

Definition row_step (st : grid * Random.rng) (y : Z) : grid * Random.rng :=
  fold_left (cell_step y) (Py.range fire_width) st.

Definition source_step (st : grid * Random.rng) (x : Z) : grid * Random.rng :=
  let '(jitter, g1) := Random.randint (-3) 3 (snd st) in
  let base_heat := 28 + jitter in
  (set (fst st) (fire_height - 1) x (Z.max 20 (Z.min 31 base_heat)), g1).

Definition _update_fire_simulation (buf : grid) (g : Random.rng)
  : grid * Random.rng :=
  let st := fold_left row_step (Py.range3 (fire_height - 2) (-1) (-1)) (buf, g) in
  fold_left source_step (Py.range fire_width) st.

(** The copy of the buffer into the bitmap. *)
Definition frame (buf : grid) : list write :=
  flat_map (fun y => map (fun x => (x, y, get buf y x)) (Py.range fire_width))
           (Py.range fire_height).

End Simulation.

Record t := {
  fire_width : Z;
  fire_height : Z;
  palette : list rgb;
  fire_buffer : grid;
  cooling_map : grid;
  time : Q
}.

Definition reset (s : t) : t :=
  {| fire_width := fire_width s;
     fire_height := fire_height s;
     palette := palette s;
     fire_buffer := _init_fire_source (fire_width s) (fire_height s) (fire_buffer s);
     cooling_map := cooling_map s;
     time := 0 |}.

Definition zeros (w h : Z) : grid :=
  replicate (Z.to_nat h) (replicate (Z.to_nat w) 0).

Definition __init__ : t :=
  reset
    {| fire_width := 80;
       fire_height := 60;
       palette := _init_fire_palette;
       fire_buffer := _init_fire_source 80 60 (zeros 80 60);
       cooling_map := zeros 80 60;
       time := 0 |}.

Definition update (s : t) (g : Random.rng) : t * Random.rng * list write :=
  let '(buf, g1) :=
    _update_fire_simulation (fire_width s) (fire_height s) (fire_buffer s) g in
  ({| fire_width := fire_width s;
      fire_height := fire_height s;
      palette := palette s;
      fire_buffer := buf;
      cooling_map := cooling_map s;
      time := time s + (1 # 10) |},
   g1,
   frame (fire_width s) (fire_height s) buf).

(** What the scheduler can do to the effect. *)
Inductive op := Update | Reset.

Fixpoint run (ops : list op) (s : t) (g : Random.rng) : t * Random.rng :=
  match ops with
  | [] => (s, g)
  | Update :: rest => let '(s1, g1, _) := update s g in run rest s1 g1
  | Reset :: rest => run rest (reset s) g
  end.

(** The grid has [h] rows of [w] cells, each a heat of [lo .. 31]. *)
Definition shaped (w h : Z) (buf : grid) : Prop :=
  length buf = Z.to_nat h /\ Forall (fun row => length row = Z.to_nat w) buf.

Definition heat_in (lo : Z) (row : list Z) : Prop :=
  Forall (fun v => lo <= v <= 31) row.

(** The invariant of the heat buffer. *)
Definition fire_inv (w h : Z) (buf : grid) : Prop :=
  shaped w h buf /\ Forall (heat_in 0) buf.

(** The bottom row is there and every cell of it holds [lo .. 31]. *)
Definition source_row (h lo : Z) (buf : grid) : Prop :=
  exists row, buf !! Z.to_nat (h - 1) = Some row /\ heat_in lo row.

(** What holds of the effect in every state it can reach. *)
Definition fire_good (s : t) : Prop :=
  fire_width s = 80 /\ fire_height s = 60 /\
  fire_inv 80 60 (fire_buffer s) /\ source_row 60 20 (fire_buffer s).

End FireEffect.

(* ================================================================== *)
(** ** [PlasmaEffect] (pyportal_8effects_stable.py) *)

Module PlasmaEffect.

Definition palette_entry (i : Z) : rgb :=
  let angle := (IZR i / 63.0 * 2 * PI)%R in
  (Py.int_R (127 + 127 * sin angle),
   Py.int_R (127 + 127 * sin (angle + 2.094)),
   Py.int_R (127 + 127 * sin (angle + 4.188))).

Definition _init_palette : list rgb := map palette_entry (Py.range 64).

Record t := {
  width : Z;
  height : Z;
  palette : list rgb;
  time : R
}.

Definition reset (s : t) : t :=
  {| width := width s; height := height s; palette := palette s; time := 0 |}.

Definition __init__ : t :=
  reset {| width := 320; height := 240; palette := _init_palette; time := 0 |}.

Definition color_idx (s : t) (x y : Z) : Z :=
  let val := (sin (IZR x * 0.2 + time s) + sin (IZR y * 0.15 + time s * 0.8))%R in
  Py.int_R ((val + 2.0) * 15.5) mod 64.

Definition frame (s : t) : list write :=
  flat_map (fun y => map (fun x => (x, y, color_idx s x y))
                         (Py.range (width s / 2)))
           (Py.range (height s / 2)).

Definition update (s : t) : t * list write :=
  let s1 := {| width := width s; height := height s; palette := palette s;
               time := time s + 0.1 |} in
  (s1, frame s1).

End PlasmaEffect.

(* ================================================================== *)
(** ** [SpiralEffect] (pyportal_8effects_stable.py) *)

Module SpiralEffect.

Definition palette_entry (i : Z) : rgb :=
  let t := (IZR i / 31.0)%R in
  let r := Py.int_R (50 + 205 * t * t) in
  let g := Py.int_R (20 + 100 * sin (t * PI)) in
  let b := Py.int_R (255 - 100 * t) in
  (Py.clamp 0 255 r, Py.clamp 0 255 g, Py.clamp 0 255 b).

Definition _init_palette : list rgb := map palette_entry (Py.range 32).

Record t := {
  width : Z;
  height : Z;
  palette : list rgb;
  time : R;
  rotation : R;
  center_x : Z;
  center_y : Z
}.

Definition reset (s : t) : t :=
  {| width := width s; height := height s; palette := palette s;
     time := 0; rotation := 0;
     center_x := center_x s; center_y := center_y s |}.

Definition __init__ : t :=
  reset {| width := 320; height := 240; palette := _init_palette;
           time := 0; rotation := 0;
           center_x := (320 / 2) / 2; center_y := (240 / 2) / 2 |}.

Definition color_idx (s : t) (x y : Z) : Z :=
  let dx := x - center_x s in
  let dy := y - center_y s in
  let distance := sqrt (IZR (dx * dx + dy * dy)) in
  let angle := Py.atan2 (IZR dy) (IZR dx) in
  let spiral_value :=
    sin (distance * 0.3 - time s * 3 + angle * 2 + rotation s) in
  let radial := cos (distance * 0.1 + time s) in
  let combined := ((spiral_value + radial) / 2.0)%R in
  Py.int_R ((combined + 1.0) * 15.5) mod 32.

Definition frame (s : t) : list write :=
  flat_map (fun y => map (fun x => (x, y, color_idx s x y))
                         (Py.range (width s / 2)))
           (Py.range (height s / 2)).

Definition update (s : t) : t * list write :=
  let s1 := {| width := width s; height := height s; palette := palette s;
               time := time s + 0.08; rotation := rotation s + 0.05;
               center_x := center_x s; center_y := center_y s |} in
  (s1, frame s1).

End SpiralEffect.

(* ================================================================== *)
(** ** [PlasmaField] (screensaver_effects/plasma_field.py) *)

Module PlasmaField.

Definition palette_entry (i : Z) : rgb :=
  let angle := (IZR i / 255.0 * 2 * PI)%R in
  let r := Py.int_R (127 + 127 * sin angle) in
  let g := Py.int_R (127 + 127 * sin (angle + 2.094)) in
  let b := Py.int_R (127 + 127 * sin (angle + 4.188)) in
  (Py.clamp 0 255 r, Py.clamp 0 255 g, Py.clamp 0 255 b).

Definition _init_plasma_palette : list rgb := map palette_entry (Py.range 256).

Record t := {
  width : Z;
  height : Z;
  palette : list rgb;
  time : R;
  plasma_speed : R;
  plasma_scale : R;
  center_x : Z;
  center_y : Z
}.

Definition __init__ (display_width display_height : Z) : t :=
  {| width := display_width; height := display_height;
     palette := _init_plasma_palette;
     time := 0; plasma_speed := 0.08; plasma_scale := 16.0;
     center_x := display_width / 2; center_y := display_height / 2 |}.

Definition reset (s : t) : t :=
  {| width := width s; height := height s; palette := palette s;
     time := 0; plasma_speed := plasma_speed s; plasma_scale := plasma_scale s;
     center_x := center_x s; center_y := center_y s |}.

Definition color_index (s : t) (x y : Z) : Z :=
  let val1 := sin ((IZR x + time s * 50) / plasma_scale s) in
  let val2 := sin ((IZR y + time s * 30) / plasma_scale s) in
  let val3 := sin ((IZR (x + y) + time s * 40) / plasma_scale s) in
  let val4 :=
    sin (sqrt (IZR ((x - center_x s) ^ 2 + (y - center_y s) ^ 2))
           / plasma_scale s + time s * 20) in
  let plasma_value := ((val1 + val2 + val3 + val4) / 4.0)%R in
  Py.clamp 0 255 (Py.int_R ((plasma_value + 1.0) * 127.5)).

Definition frame (s : t) : list write :=
  flat_map (fun y => map (fun x => (x, y, color_index s x y))
                         (Py.range (width s)))
           (Py.range (height s)).

Definition update (s : t) : t * list write :=
  let s1 := {| width := width s; height := height s; palette := palette s;
               time := time s + plasma_speed s;
               plasma_speed := plasma_speed s; plasma_scale := plasma_scale s;
               center_x := center_x s; center_y := center_y s |} in
  (s1, frame s1).

End PlasmaField.

(* ================================================================== *)
(** ** [Kaleidoscope] (screensaver_effects/kaleidoscope.py) *)

Module Kaleidoscope.

Definition palette_entry (i : Z) : rgb :=
  let angle := (IZR i / 255.0 * 4 * PI)%R in
  let r := Py.int_R (127 + 127 * sin (angle * 1.3)) in
  let g := Py.int_R (127 + 127 * sin (angle * 0.8 + PI / 2)) in
  let b := Py.int_R (127 + 127 * sin (angle * 1.7 + PI)) in
  let max_val := Z.max (Z.max r g) b in
  let '(r, g, b) :=
    if 0 <? max_val then
      let scale := (255 / IZR max_val)%R in
      (Py.int_R (IZR r * scale * 0.8),
       Py.int_R (IZR g * scale * 0.8),
       Py.int_R (IZR b * scale * 0.8))
    else (r, g, b) in
  (Py.clamp 0 255 r, Py.clamp 0 255 g, Py.clamp 0 255 b).

Definition _init_kaleidoscope_palette : list rgb :=
  map palette_entry (Py.range 256).

Record t := {
  width : Z;
  height : Z;
  palette : list rgb;
  time : R;
  rotation_speed : R;
  color_shift : R;
  symmetry_order : Z;
  center_x : Z;
  center_y : Z
}.

Definition __init__ (display_width display_height : Z) : t :=
  {| width := display_width; height := display_height;
     palette := _init_kaleidoscope_palette;
     time := 0; rotation_speed := 0.02; color_shift := 0;
     symmetry_order := 6;
     center_x := display_width / 2; center_y := display_height / 2 |}.

Definition reset (s : t) : t :=
  {| width := width s; height := height s; palette := palette s;
     time := 0; rotation_speed := rotation_speed s; color_shift := 0;
     symmetry_order := symmetry_order s;
     center_x := center_x s; center_y := center_y s |}.

Definition _get_kaleidoscope_value (s : t) (x y : Z) : R :=
  let dx := x - center_x s in
  let dy := y - center_y s in
  let radius := sqrt (IZR (dx * dx + dy * dy)) in
  let angle := (Py.atan2 (IZR dy) (IZR dx) + time s)%R in
  let segment_angle := (2 * PI / IZR (symmetry_order s))%R in
  let angle_in_segment := Py.fmod_R angle segment_angle in
  let segment_num :=
    Py.int_R (Py.floordiv_R angle segment_angle) mod (2 * symmetry_order s) in
  let angle_in_segment :=
    if segment_num mod 2 =? 1 then (segment_angle - angle_in_segment)%R
    else angle_in_segment in
  let mirrored_x := (radius * cos angle_in_segment)%R in
  let mirrored_y := (radius * sin angle_in_segment)%R in
  let pattern1 := sin (mirrored_x * 0.1 + time s * 2) in
  let pattern2 := cos (mirrored_y * 0.08 + time s * 1.5) in
  let pattern3 := sin ((mirrored_x + mirrored_y) * 0.06 + time s) in
  let pattern4 := cos (radius * 0.05 + time s * 0.8) in
  let combined := ((pattern1 + pattern2 + pattern3 + pattern4) / 4.0)%R in
  let radial := sin (radius * 0.02 + time s * 0.5) in
  ((combined + radial) / 2.0)%R.

Definition color_index (s : t) (x y : Z) : Z :=
  let pattern_value := _get_kaleidoscope_value s x y in
  let color_base := ((pattern_value + 1.0) * 127.5)%R in
  Py.clamp 0 255 (Py.int_R (Py.fmod_R (color_base + color_shift s) 256)).

Definition frame (s : t) : list write :=
  flat_map (fun y => map (fun x => (x, y, color_index s x y))
                         (Py.range (width s)))
           (Py.range (height s)).

Definition update (s : t) : t * list write :=
  let s1 := {| width := width s; height := height s; palette := palette s;
               time := time s + rotation_speed s;
               rotation_speed := rotation_speed s;
               color_shift := color_shift s + 0.5;
               symmetry_order := symmetry_order s;
               center_x := center_x s; center_y := center_y s |} in
  (s1, frame s1).

End Kaleidoscope.

(* ================================================================== *)
(** ** [SineWaveEffect] (pyportal_8effects_stable.py) *)

Module SineWaveEffect.

Definition palette_entry (i : Z) : rgb :=
  let t := (inject_Z i / 63)%Q in
  let '(r, g, b) :=
    if Py.lt_Q t (2 # 10) then
      (0, Py.int_Q (t * 5 * 255), 255)
    else if Py.lt_Q t (4 # 10) then
      let s := ((t - (2 # 10)) / (2 # 10))%Q in
      (0, 255, Py.int_Q (255 * (1 - s)))
    else if Py.lt_Q t (6 # 10) then
      let s := ((t - (4 # 10)) / (2 # 10))%Q in
      (Py.int_Q (s * 255), 255, 0)
    else if Py.lt_Q t (8 # 10) then
      let s := ((t - (6 # 10)) / (2 # 10))%Q in
      (255, Py.int_Q (255 * (1 - s * (5 # 10))), 0)
    else
      let s := ((t - (8 # 10)) / (2 # 10))%Q in
      (255, Py.int_Q (128 + s * 127), Py.int_Q (s * 255)) in
  (Py.clamp 0 255 r, Py.clamp 0 255 g, Py.clamp 0 255 b).

Definition _init_wave_palette : list rgb := map palette_entry (Py.range 64).

Record source := {
  x : R;
  y : R;
  freq : R;
  amplitude : R;
  phase : R
}.

Record t := {
  width : Z;
  height : Z;
  palette : list rgb;
  wave_sources : list source;
  time : R;
  color_shift : R
}.

Definition reset (s : t) : t :=
  {| width := width s; height := height s; palette := palette s;
     wave_sources := wave_sources s; time := 0; color_shift := 0 |}.

Definition __init__ : t :=
  reset
    {| width := 320; height := 240; palette := _init_wave_palette;
       wave_sources :=
         [ {| x := 40; y := 30; freq := 0.2; amplitude := 1.0; phase := 0.0 |};
           {| x := 120; y := 30; freq := 0.15; amplitude := 0.8; phase := 1.57 |};
           {| x := 80; y := 90; freq := 0.25; amplitude := 0.9; phase := 3.14 |};
           {| x := 40; y := 90; freq := 0.18; amplitude := 0.7; phase := 4.71 |} ];
       time := 0; color_shift := 0 |}.

Definition _calculate_wave_interference (s : t) (px py : Z) : R :=
  fold_left
    (fun total_amplitude src =>
       let dx := (IZR px - x src)%R in
       let dy := (IZR py - y src)%R in
       let distance := sqrt (dx * dx + dy * dy) in
       let wave_value :=
         (amplitude src * sin (freq src * distance + phase src + time s * 2))%R in
       let attenuation := (1.0 / (1.0 + distance * 0.01))%R in
       (total_amplitude + wave_value * attenuation)%R)
    (wave_sources s) 0%R.

Definition color_index (s : t) (px py : Z) : Z :=
  let wave_amplitude := _calculate_wave_interference s px py in
  let color_value := ((wave_amplitude + 2.0) / 4.0)%R in
  Py.clamp 0 63 (Py.int_R (Py.fmod_R (color_value * 63 + color_shift s) 64)).

(** The source number [i] after the move of this frame. *)
Definition move_source (width height : Z) (time : R) (i : nat) (src : source)
  : source :=
  let k := INR i in
  let angle := (time * 0.3 + k * 1.57)%R in
  let radius := (20 + 15 * sin (time * 0.2 + k))%R in
  let center_x := (width / 2) / 2 in
  let center_y := (height / 2) / 2 in
  let base_freq := (0.1 + k * 0.05)%R in
  {| x := IZR center_x + radius * cos angle;
     y := IZR center_y + radius * sin angle;
     freq := base_freq + 0.05 * sin (time * 0.4 + k);
     amplitude := amplitude src;
     phase := phase src |}.

Definition frame (s : t) : list write :=
  flat_map (fun py => map (fun px => (px, py, color_index s px py))
                          (Py.range (width s / 2)))
           (Py.range (height s / 2)).

Definition update (s : t) : t * list write :=
  let time1 := (time s + 0.08)%R in
  let s1 := {| width := width s; height := height s; palette := palette s;
               wave_sources :=
                 imap (move_source (width s) (height s) time1) (wave_sources s);
               time := time1;
               color_shift := color_shift s + 0.5 |} in
  (s1, frame s1).

End SineWaveEffect.

(* ================================================================== *)
(** ** [MatrixEffect] (pyportal_8effects_stable.py) *)

Module MatrixEffect.

Definition palette_entry (i : Z) : rgb :=
  let intensity := (inject_Z i / 15)%Q in
  (0, Py.int_Q (intensity * 255), Py.int_Q (intensity * 50)).

Definition _init_palette : list rgb := map palette_entry (Py.range 16).

Record t := {
  columns : Z;
  rows : Z;
  palette : list rgb;
  drop_positions : list Q;
  drop_speeds : list Z;
  drop_active : list bool;
  time : Q
}.

Definition position (s : t) (col : Z) : Q :=
  default 0%Q (drop_positions s !! Z.to_nat col).
Definition speed (s : t) (col : Z) : Z :=
  default 0 (drop_speeds s !! Z.to_nat col).
Definition active (s : t) (col : Z) : bool :=
  default false (drop_active s !! Z.to_nat col).

Definition set_position (s : t) (col : Z) (p : Q) : t :=
  {| columns := columns s; rows := rows s; palette := palette s;
     drop_positions := <[Z.to_nat col := p]> (drop_positions s);
     drop_speeds := drop_speeds s;
     drop_active := drop_active s;
     time := time s |}.

Definition set_speed (s : t) (col : Z) (v : Z) : t :=
  {| columns := columns s; rows := rows s; palette := palette s;
     drop_positions := drop_positions s;
     drop_speeds := <[Z.to_nat col := v]> (drop_speeds s);
     drop_active := drop_active s;
     time := time s |}.

Definition set_active (s : t) (col : Z) (a : bool) : t :=
  {| columns := columns s; rows := rows s; palette := palette s;
     drop_positions := drop_positions s;
     drop_speeds := drop_speeds s;
     drop_active := <[Z.to_nat col := a]> (drop_active s);
     time := time s |}.

Definition reset (s : t) : t :=
  {| columns := columns s; rows := rows s; palette := palette s;
     drop_positions := drop_positions s;
     drop_speeds := drop_speeds s;
     drop_active := drop_active s;
     time := 0 |}.

(** The random start of the drop of column [i]. *)
Definition init_drop (st : t * Random.rng) (i : Z) : t * Random.rng :=
  let '(s, g) := st in
  let '(p, g1) := Random.randint (-10) (rows s) g in
  let '(v, g2) := Random.choice 1 [1; 2; 3] g1 in
  let '(a, g3) := Random.choice true [true; false] g2 in
  (set_active (set_speed (set_position s i (inject_Z p)) i v) i a, g3).

Definition __init__ (g : Random.rng) : t * Random.rng :=
  let s0 := {| columns := 20; rows := 15; palette := _init_palette;
               drop_positions := replicate 20 0%Q;
               drop_speeds := replicate 20 1;
               drop_active := replicate 20 true;
               time := 0 |} in
  let '(s1, g1) := fold_left init_drop (Py.range 20) (s0, g) in
  (reset s1, g1).

Definition trail_brightness (trail : Z) : Z :=
  let brightness := Z.max 0 (15 - trail * 2) in
  if trail =? 0 then 15 else brightness.

Definition trail_writes (rows col drop_y : Z) : list write :=
  flat_map (fun trail =>
              let y := drop_y - trail in
              if (0 <=? y) && (y <? rows)
              then [(col, y, trail_brightness trail)] else [])
           (Py.range 8).

Definition col_step (st : t * Random.rng * list write) (col : Z)
  : t * Random.rng * list write :=
  let '(s, g, ws) := st in
  if active s col then
    let drop_y := Py.int_Q (position s col) in
    let ws1 := trail_writes (rows s) col drop_y in
    let s1 :=
      set_position s col (position s col + inject_Z (speed s col) * (3 # 10)) in
    if Py.gt_Q (position s1 col) (inject_Z (rows s1 + 5)) then
      let '(p2, g1) := Random.randint (-15) (-5) g in
      let '(v, g2) := Random.choice 1 [1; 2; 3] g1 in
      let '(a, g3) := Random.choice true [true; true; true; false] g2 in
      (set_active (set_speed (set_position s1 col (inject_Z p2)) col v) col a,
       g3, ws ++ ws1)
    else (s1, g, ws ++ ws1)
  else
    let '(r, g1) := Random.randint 0 100 g in
    if r <? 5 then
      let '(p2, g2) := Random.randint (-15) (-5) g1 in
      (set_position (set_active s col true) col (inject_Z p2), g2, ws)
    else (s, g1, ws).

Definition clear (s : t) : list write :=
  flat_map (fun y => map (fun x => (x, y, 0)) (Py.range (columns s)))
           (Py.range (rows s)).

Definition update (s : t) (g : Random.rng) : t * Random.rng * list write :=
  let s1 := {| columns := columns s; rows := rows s; palette := palette s;
               drop_positions := drop_positions s;
               drop_speeds := drop_speeds s;
               drop_active := drop_active s;
               time := time s + (1 # 10) |} in
  fold_left col_step (Py.range (columns s)) (s1, g, clear s1).

End MatrixEffect.

(* ================================================================== *)
(** ** [ColorMatrixEffect] (pyportal_8effects_stable.py)

    The effect draws text labels, not a bitmap.  This module holds its
    state and [reset]; its construction and [update] follow in
    [ColorMatrixRain]. *)

Module ColorMatrixEffect.

Record label := {
  text : Z;        (* index of the character in [characters] *)
  color : rgb;
  x : Z;
  y : Z;
  _matrix_age : Z
}.

Record t := {
  columns : Z;
  rows : Z;
  colors : list rgb;
  drop_positions : list Q;
  drop_speeds : list Q;
  drop_active : list bool;
  drop_colors : list rgb;
  active_labels : list label;
  time : Q
}.

Definition reset (s : t) : t :=
  {| columns := columns s; rows := rows s; colors := colors s;
     drop_positions := drop_positions s;
     drop_speeds := drop_speeds s;
     drop_active := drop_active s;
     drop_colors := drop_colors s;
     active_labels := [];
     time := 0 |}.

(** [self.colors]: the eight colours a column of text is given. *)
Definition colors_table : list rgb :=
  [(0, 255, 0); (0, 255, 255); (255, 0, 255); (255, 255, 0);
   (255, 0, 0); (0, 0, 255); (255, 128, 0); (128, 0, 255)].

End ColorMatrixEffect.

(* ================================================================== *)
(** ** [ColorMatrixEffect]: construction and [update]

    The text rain of [ColorMatrixEffect], on the state and the labels of
    the module above.  A label is an object of the display library; whether
    [label.Label(...)] finds the memory for one is up to the heap of the
    device, so [update] takes the answer for each column as an argument
    ([MemoryError] and [RuntimeError] make the code skip the character). *)

Module ColorMatrixRain.
Import ColorMatrixEffect.

Definition char_width : Z := 9.
Definition char_height : Z := 12.

(** [len(self.characters)]. *)
Definition characters_count : Z := 62.

Definition position (s : t) (col : Z) : Q :=
  default 0%Q (drop_positions s !! Z.to_nat col).
Definition speed (s : t) (col : Z) : Q :=
  default 0%Q (drop_speeds s !! Z.to_nat col).
Definition active (s : t) (col : Z) : bool :=
  default false (drop_active s !! Z.to_nat col).
Definition drop_color (s : t) (col : Z) : rgb :=
  default (0, 0, 0) (drop_colors s !! Z.to_nat col).

Definition set_position (s : t) (col : Z) (p : Q) : t :=
  {| columns := columns s; rows := rows s; colors := colors s;
     drop_positions := <[Z.to_nat col := p]> (drop_positions s);
     drop_speeds := drop_speeds s; drop_active := drop_active s;
     drop_colors := drop_colors s; active_labels := active_labels s;
     time := time s |}.

Definition set_speed (s : t) (col : Z) (v : Q) : t :=
  {| columns := columns s; rows := rows s; colors := colors s;
     drop_positions := drop_positions s;
     drop_speeds := <[Z.to_nat col := v]> (drop_speeds s);
     drop_active := drop_active s;
     drop_colors := drop_colors s; active_labels := active_labels s;
     time := time s |}.

Definition set_active (s : t) (col : Z) (a : bool) : t :=
  {| columns := columns s; rows := rows s; colors := colors s;
     drop_positions := drop_positions s; drop_speeds := drop_speeds s;
     drop_active := <[Z.to_nat col := a]> (drop_active s);
     drop_colors := drop_colors s; active_labels := active_labels s;
     time := time s |}.

Definition set_color (s : t) (col : Z) (c : rgb) : t :=
  {| columns := columns s; rows := rows s; colors := colors s;
     drop_positions := drop_positions s; drop_speeds := drop_speeds s;
     drop_active := drop_active s;
     drop_colors := <[Z.to_nat col := c]> (drop_colors s);
     active_labels := active_labels s;
     time := time s |}.

(** [self.active_labels.append(text_label)]. *)
Definition add_label (s : t) (l : label) : t :=
  {| columns := columns s; rows := rows s; colors := colors s;
     drop_positions := drop_positions s; drop_speeds := drop_speeds s;
     drop_active := drop_active s; drop_colors := drop_colors s;
     active_labels := active_labels s ++ [l];
     time := time s |}.

(** The speeds a drop can be given. *)
Definition speeds : list Q := [1 # 2; 1; 3 # 2; 2]%Q.

Definition init_drop (st : t * Random.rng) (i : Z) : t * Random.rng :=
  let '(s, g) := st in
  let '(p, g1) := Random.randint (-20) (rows s) g in
  let '(v, g2) := Random.choice 1%Q speeds g1 in
  let '(a, g3) := Random.choice true [true; false] g2 in
  let '(c, g4) := Random.choice (0, 255, 0) (colors s) g3 in
  (set_color (set_active (set_speed (set_position s i (inject_Z p)) i v) i a) i c,
   g4).

Definition __init__ (g : Random.rng) : t * Random.rng :=
  let columns0 := 320 / char_width in
  let rows0 := 240 / char_height in
  let s0 := {| columns := columns0; rows := rows0; colors := colors_table;
               drop_positions := replicate (Z.to_nat columns0) 0%Q;
               drop_speeds := replicate (Z.to_nat columns0) 1%Q;
               drop_active := replicate (Z.to_nat columns0) true;
               drop_colors := replicate (Z.to_nat columns0) (0, 255, 0);
               active_labels := [];
               time := 0 |} in
  let '(s1, g1) := fold_left init_drop (Py.range columns0) (s0, g) in
  (reset s1, g1).

(** The first loop of [update]: every label is a frame older, and the
    labels older than 50 frames are taken off the display. *)
Definition aged (l : label) : label :=
  {| text := text l; color := color l; x := x l; y := y l;
     _matrix_age := _matrix_age l + 1 |}.

Definition sweep (ls : list label) : list label :=
  List.filter (fun l => _matrix_age l <=? 50) (map aged ls).

(** The blocks of the second loop, for one column.  [alloc col] tells
    whether the label of this column, if one is asked for, can be made. *)

(** "Add new character at drop position": one time in four, when the drop
    is on the screen. *)
Definition add_character (alloc : Z -> bool) (s : t) (g : Random.rng) (col : Z)
  : t * Random.rng :=
  let drop_y := Py.int_Q (position s col) in
  if (0 <=? drop_y) && (drop_y <? rows s) then
    let '(r, g1) := Random.randint 0 3 g in
    if r =? 0 then
      let '(char, g2) := Random.choice 0 (Py.range characters_count) g1 in
      if alloc col then
        (add_label s {| text := char; color := drop_color s col;
                        x := col * char_width;
                        y := drop_y * char_height + 8;
                        _matrix_age := 0 |}, g2)
      else (s, g2)
    else (s, g1)
  else (s, g).

(** "Move drop down", and "reset drop if it goes off screen". *)
Definition move_drop (s : t) (g : Random.rng) (col : Z) : t * Random.rng :=
  let s2 := set_position s col (position s col + speed s col * (4 # 10)) in
  if Py.gt_Q (position s2 col) (inject_Z (rows s2 + 5)) then
    let '(p, g2) := Random.randint (-25) (-5) g in
    let '(v, g3) := Random.choice 1%Q speeds g2 in
    let '(c, g4) := Random.choice (0, 255, 0) (colors s2) g3 in
    let '(a, g5) := Random.choice true [true; true; false] g4 in
    (set_active (set_color (set_speed (set_position s2 col (inject_Z p)) col v)
                           col c) col a, g5)
  else (s2, g).

(** "Randomly reactivate drops". *)
Definition reactivate (s : t) (g : Random.rng) (col : Z) : t * Random.rng :=
  let '(r, g1) := Random.randint 0 150 g in
  if r <? 3 then
    let '(p, g2) := Random.randint (-25) (-5) g1 in
    let '(c, g3) := Random.choice (0, 255, 0) (colors s) g2 in
    (set_color (set_position (set_active s col true) col (inject_Z p)) col c,
     g3)
  else (s, g1).

Definition col_step (alloc : Z -> bool) (st : t * Random.rng) (col : Z)
  : t * Random.rng :=
  let '(s, g) := st in
  if active s col then
    let '(s1, g1) := add_character alloc s g col in
    move_drop s1 g1 col
  else reactivate s g col.

Definition update (alloc : Z -> bool) (s : t) (g : Random.rng)
  : t * Random.rng :=
  let s1 := {| columns := columns s; rows := rows s; colors := colors s;
               drop_positions := drop_positions s;
               drop_speeds := drop_speeds s;
               drop_active := drop_active s;
               drop_colors := drop_colors s;
               active_labels := sweep (active_labels s);
               time := time s + (1 # 10) |} in
  fold_left (col_step alloc) (Py.range (Z.min (columns s) 35)) (s1, g).

(** What the scheduler can do to the effect; an update comes with the
    answers of the heap for this frame. *)
Inductive op := Update (alloc : Z -> bool) | Reset.

Fixpoint run (ops : list op) (s : t) (g : Random.rng) : t * Random.rng :=
  match ops with
  | [] => (s, g)
  | Update alloc :: rest => let '(s1, g1) := update alloc s g in run rest s1 g1
  | Reset :: rest => run rest (reset s) g
  end.

(** A label as [update] makes it: a character of the set, in one of the
    eight colours, on the character grid of the display, not older than 50
    frames. *)
Definition label_ok (l : label) : Prop :=
  0 <= text l < characters_count /\ In (color l) colors_table /\
  (exists col, 0 <= col < 35 /\ x l = col * char_width) /\
  (exists row, 0 <= row < 20 /\ y l = row * char_height + 8) /\
  0 <= _matrix_age l <= 50.

(** The number of labels of the age [a]. *)
Definition count_age (a : Z) (ls : list label) : nat :=
  length (List.filter (fun l => _matrix_age l =? a) ls).

(** The drops: one per column of the 35 by 20 character grid. *)
Definition drops_inv (s : t) : Prop :=
  columns s = 35 /\ rows s = 20 /\ colors s = colors_table /\
  length (drop_positions s) = 35%nat /\ length (drop_speeds s) = 35%nat /\
  length (drop_active s) = 35%nat /\ length (drop_colors s) = 35%nat /\
  Forall (fun p => (-25 <= p)%Q /\ (p <= 25)%Q) (drop_positions s) /\
  Forall (fun v => In v speeds) (drop_speeds s) /\
  Forall (fun c => In c colors_table) (drop_colors s).

(** The labels: well formed, and at most one per column and age. *)
Definition labels_inv (ls : list label) : Prop :=
  Forall label_ok ls /\ forall a, (count_age a ls <= 35)%nat.

Definition rain_inv (s : t) : Prop :=
  drops_inv s /\ labels_inv (active_labels s).

End ColorMatrixRain.

(* ================================================================== *)
(** ** [StarfieldEffect] (pyportal_8effects_stable.py) *)

Module StarfieldEffect.

Definition palette_entry (i : Z) : rgb :=
  let intensity := (inject_Z i / 15)%Q in
  if i =? 0 then (0, 0, 0)
  else if Py.lt_Q intensity (3 # 10) then
    (Py.int_Q (intensity * 100), Py.int_Q (intensity * 100),
     Py.int_Q (intensity * 255))
  else if Py.lt_Q intensity (7 # 10) then
    let value := Py.int_Q (intensity * 255) in (value, value, value)
  else (255, 255, 255).

Definition _init_star_palette : list rgb := map palette_entry (Py.range 16).

Record star := {
  x : R;
  y : R;
  z : R;
  brightness : Z;
  speed : R
}.

Record t := {
  width : Z;
  height : Z;
  palette : list rgb;
  num_stars : Z;
  stars : list star;
  center_x : Z;
  center_y : Z;
  time : R
}.

(** A star at a random angle round the centre: at a distance of
    [d_lo .. d_hi] and a depth of [z_lo .. z_hi]. *)
Definition random_star (cx cy : Z) (d_lo d_hi z_lo z_hi : R) (g : Random.rng)
  : star * Random.rng :=
  let '(angle, g1) := Random.uniform 0 (2 * 3.14159) g in
  let '(distance, g2) := Random.uniform d_lo d_hi g1 in
  let '(depth, g3) := Random.uniform z_lo z_hi g2 in
  let '(b, g4) := Random.randint 5 15 g3 in
  let '(v, g5) := Random.uniform 0.5 2.0 g4 in
  ({| x := IZR cx + distance * cos angle;
      y := IZR cy + distance * sin angle;
      z := depth; brightness := b; speed := v |}, g5).

Definition _init_stars (s : t) (g : Random.rng) : t * Random.rng :=
  let '(l, g1) :=
    fold_left (fun acc _ =>
                 let '(st, g') :=
                   random_star (center_x s) (center_y s) 1 100 1 50 (snd acc) in
                 (fst acc ++ [st], g'))
              (Py.range (num_stars s)) ([], g) in
  ({| width := width s; height := height s; palette := palette s;
      num_stars := num_stars s; stars := l;
      center_x := center_x s; center_y := center_y s; time := time s |}, g1).

Definition _reset_star (s : t) (g : Random.rng) : star * Random.rng :=
  random_star (center_x s) (center_y s) 1 5 30 50 g.

Definition reset (s : t) (g : Random.rng) : t * Random.rng :=
  _init_stars
    {| width := width s; height := height s; palette := palette s;
       num_stars := num_stars s; stars := stars s;
       center_x := center_x s; center_y := center_y s; time := 0 |} g.

Definition __init__ (g : Random.rng) : t * Random.rng :=
  let s0 := {| width := 320; height := 240; palette := _init_star_palette;
               num_stars := 150; stars := [];
               center_x := (320 / 2) / 2; center_y := (240 / 2) / 2;
               time := 0 |} in
  let '(s1, g1) := _init_stars s0 g in
  reset s1 g1.

(** One star of the frame: moved, then respawned or drawn. *)
Definition star_step (s : t) (warp_factor : R)
    (acc : list star * Random.rng * list write) (st : star)
  : list star * Random.rng * list write :=
  let '(done, g, ws) := acc in
  let dx := (x st - IZR (center_x s))%R in
  let dy := (y st - IZR (center_y s))%R in
  let x1 := (x st + dx * 0.02 * speed st * warp_factor)%R in
  let y1 := (y st + dy * 0.02 * speed st * warp_factor)%R in
  let z1 := (z st - 0.5 * speed st * warp_factor)%R in
  let screen_x := Py.int_R x1 in
  let screen_y := Py.int_R y1 in
  if (screen_x <? 0) || (width s / 2 <=? screen_x)
     || (screen_y <? 0) || (height s / 2 <=? screen_y)
     || (if Rlt_dec z1 1 then true else false)
  then
    let '(st1, g1) := _reset_star s g in (done ++ [st1], g1, ws)
  else
    let size_factor := Rmax 0.1 (30.0 / z1) in
    let b := Py.clamp 1 15 (Py.int_R (IZR (brightness st) * size_factor)) in
    let drawn :=
      if Rgt_dec size_factor 1.5
      then Bitmap.block2x2 (width s / 2) (height s / 2) screen_x screen_y b
      else [(screen_x, screen_y, b)] in
    (done ++ [{| x := x1; y := y1; z := z1;
                 brightness := brightness st; speed := speed st |}],
     g, ws ++ drawn).

Definition clear (s : t) : list write :=
  flat_map (fun y => map (fun x => (x, y, 0)) (Py.range (width s / 2)))
           (Py.range (height s / 2)).

Definition update (s : t) (g : Random.rng) : t * Random.rng * list write :=
  let time1 := (time s + 0.1)%R in
  let warp_factor := (1.0 + 0.5 * sin (time1 * 0.3))%R in
  let '(l, g1, ws) :=
    fold_left (star_step s warp_factor) (stars s) ([], g, clear s) in
  ({| width := width s; height := height s; palette := palette s;
      num_stars := num_stars s; stars := l;
      center_x := center_x s; center_y := center_y s; time := time1 |},
   g1, ws).

End StarfieldEffect.

(* ================================================================== *)
(** ** [StreamersEffect] (pyportal_8effects_stable.py) *)

Module StreamersEffect.

Definition palette_entry (i : Z) : rgb :=
  if i =? 0 then (0, 0, 0)
  else
    let t := (IZR (i - 1) / 30.0)%R in
    let angle := (t * 2 * 3.14159)%R in
    let r := Py.int_R (127 + 127 * sin angle) in
    let g := Py.int_R (127 + 127 * sin (angle + 2.094)) in
    let b := Py.int_R (127 + 127 * sin (angle + 4.188)) in
    let max_val := Z.max (Z.max r g) b in
    let '(r, g, b) :=
      if 0 <? max_val then
        let scale := (255 / IZR max_val)%R in
        (Py.int_R (IZR r * scale * 0.9),
         Py.int_R (IZR g * scale * 0.9),
         Py.int_R (IZR b * scale * 0.9))
      else (r, g, b) in
    (Py.clamp 0 255 r, Py.clamp 0 255 g, Py.clamp 0 255 b).

Definition _init_streamer_palette : list rgb := map palette_entry (Py.range 32).

Record streamer := {
  x_start : R;
  y_base : Z;
  amplitude : R;
  frequency : R;
  speed : R;
  phase : R;
  color : Z;
  thickness : Z;
  direction : Z;
  wave_speed : R
}.

Record t := {
  width : Z;
  height : Z;
  palette : list rgb;
  num_streamers : Z;
  streamers : list streamer;
  time : R
}.

Definition new_streamer (width height : Z) (g : Random.rng)
  : streamer * Random.rng :=
  let '(xs, g1) := Random.randint (-20) (width / 2 + 20) g in
  let '(yb, g2) := Random.randint 10 (height / 2 - 10) g1 in
  let '(am, g3) := Random.uniform 5 25 g2 in
  let '(fr, g4) := Random.uniform 0.05 0.15 g3 in
  let '(sp, g5) := Random.uniform 0.5 2.0 g4 in
  let '(ph, g6) := Random.uniform 0 6.28 g5 in
  let '(co, g7) := Random.randint 1 31 g6 in
  let '(th, g8) := Random.randint 1 3 g7 in
  let '(di, g9) := Random.choice 1 [-1; 1] g8 in
  let '(ws, g10) := Random.uniform 0.02 0.08 g9 in
  ({| x_start := IZR xs; y_base := yb; amplitude := am; frequency := fr;
      speed := sp; phase := ph; color := co; thickness := th;
      direction := di; wave_speed := ws |}, g10).

Definition _init_streamers (s : t) (g : Random.rng) : t * Random.rng :=
  let '(l, g1) :=
    fold_left (fun acc _ =>
                 let '(st, g') := new_streamer (width s) (height s) (snd acc) in
                 (fst acc ++ [st], g'))
              (Py.range (num_streamers s)) ([], g) in
  ({| width := width s; height := height s; palette := palette s;
      num_streamers := num_streamers s; streamers := l; time := time s |}, g1).

Definition reset (s : t) (g : Random.rng) : t * Random.rng :=
  _init_streamers
    {| width := width s; height := height s; palette := palette s;
       num_streamers := num_streamers s; streamers := streamers s;
       time := 0 |} g.

Definition __init__ (g : Random.rng) : t * Random.rng :=
  let s0 := {| width := 320; height := 240; palette := _init_streamer_palette;
               num_streamers := 8; streamers := []; time := 0 |} in
  let '(s1, g1) := _init_streamers s0 g in
  reset s1 g1.

(** The streamer moved by one frame, respawned on the other side when it
    has left the screen. *)
Definition move (width height : Z) (st : streamer) (g : Random.rng)
  : streamer * Random.rng :=
  let xs := (x_start st + speed st * IZR (direction st))%R in
  let ph := (phase st + wave_speed st)%R in
  if ((0 <? direction st) && (if Rgt_dec xs (IZR (width / 2 + 50)) then true else false))
     || ((direction st <? 0) && (if Rlt_dec xs (-50) then true else false))
  then
    let '(xs1, g1) :=
      if 0 <? direction st then Random.randint (-50) (-20) g
      else Random.randint (width / 2 + 20) (width / 2 + 50) g in
    let '(yb, g2) := Random.randint 10 (height / 2 - 10) g1 in
    let '(am, g3) := Random.uniform 5 25 g2 in
    let '(fr, g4) := Random.uniform 0.05 0.15 g3 in
    let '(sp, g5) := Random.uniform 0.5 2.0 g4 in
    let '(co, g6) := Random.randint 1 31 g5 in
    let '(th, g7) := Random.randint 1 3 g6 in
    let '(ws, g8) := Random.uniform 0.02 0.08 g7 in
    ({| x_start := IZR xs1; y_base := yb; amplitude := am; frequency := fr;
        speed := sp; phase := ph; color := co; thickness := th;
        direction := direction st; wave_speed := ws |}, g8)
  else
    ({| x_start := xs; y_base := y_base st; amplitude := amplitude st;
        frequency := frequency st; speed := speed st; phase := ph;
        color := color st; thickness := thickness st;
        direction := direction st; wave_speed := wave_speed st |}, g).

(** The pixels of one column [x] of the wavy line, and the link to the
    previous column. *)
Definition draw_column (width height : Z) (st : streamer)
    (acc : option (Z * Z) * list write) (x : Z) : option (Z * Z) * list write :=
  let '(prev, ws) := acc in
  if (0 <=? x) && (x <? width / 2) then
    let wave_offset :=
      (amplitude st * sin ((IZR x - x_start st) * frequency st + phase st))%R in
    let y := Py.int_R (IZR (y_base st) + wave_offset) in
    let drawn :=
      flat_map
        (fun k =>
           let py := y + k - thickness st / 2 in
           if (0 <=? py) && (py <? height / 2) then
             (x, py, color st)
             :: match prev with
                | Some (prev_x, prev_y) =>
                    if (Z.abs (x - prev_x) <=? 2) && (Z.abs (py - prev_y) <=? 4)
                    then
                      let mid_y := (py + prev_y) / 2 in
                      if (0 <=? mid_y) && (mid_y <? height / 2)
                         && (0 <=? prev_x) && (prev_x <? width / 2)
                      then [(prev_x, mid_y, color st)] else []
                    else []
                | None => []
                end
           else [])
        (Py.range (thickness st)) in
    (Some (x, y), ws ++ drawn)
  else acc.

Definition _draw_wavy_streamer (width height : Z) (st : streamer) : list write :=
  let start_x := Z.max (-10) (Z.min (width / 2 + 10) (Py.int_R (x_start st) - 30)) in
  let end_x := Z.max (-10) (Z.min (width / 2 + 10) (Py.int_R (x_start st) + 60)) in
  snd (fold_left (draw_column width height st) (Py.range3 start_x end_x 2)
                 (None, [])).

Definition streamer_step (width height : Z)
    (acc : list streamer * Random.rng * list write) (st : streamer)
  : list streamer * Random.rng * list write :=
  let '(done, g, ws) := acc in
  let '(st1, g1) := move width height st g in
  (done ++ [st1], g1, ws ++ _draw_wavy_streamer width height st1).

Definition clear (s : t) : list write :=
  flat_map (fun y => map (fun x => (x, y, 0)) (Py.range (width s / 2)))
           (Py.range (height s / 2)).

Definition update (s : t) (g : Random.rng) : t * Random.rng * list write :=
  let '(l, g1, ws) :=
    fold_left (streamer_step (width s) (height s)) (streamers s)
              ([], g, clear s) in
  ({| width := width s; height := height s; palette := palette s;
      num_streamers := num_streamers s; streamers := l;
      time := time s + 0.1 |},
   g1, ws).

Inductive op := Update | Reset.

Fixpoint run (ops : list op) (s : t) (g : Random.rng) : t * Random.rng :=
  match ops with
  | [] => (s, g)
  | Update :: rest => let '(s1, g1, _) := update s g in run rest s1 g1
  | Reset :: rest => let '(s1, g1) := reset s g in run rest s1 g1
  end.

(** Every streamer carries a colour of the palette other than the
    background. *)
Definition colours_ok (l : list streamer) : Prop :=
  Forall (fun st => 1 <= color st <= 31) l.

End StreamersEffect.

(* ================================================================== *)
(** ** Palettes as a whole *)

Module Palette.

(** Every channel of the entry is an 8-bit value. *)
Definition channel_ok (c : rgb) : Prop :=
  let '(r, g, b) := c in
  0 <= r <= 255 /\ 0 <= g <= 255 /\ 0 <= b <= 255.

Definition channel_okb (c : rgb) : bool :=
  let '(r, g, b) := c in
  (0 <=? r) && (r <=? 255) && (0 <=? g) && (g <=? 255)
  && (0 <=? b) && (b <=? 255).

Definition black : rgb := (0, 0, 0).

(** The colour tables of the repository, each with the effect that builds
    it. *)
Definition all : list (effect_id * list rgb) :=
  [ (PlasmaEffect_id, PlasmaEffect._init_palette);
    (SpiralEffect_id, SpiralEffect._init_palette);
    (MatrixEffect_id, MatrixEffect._init_palette);
    (ColorMatrixEffect_id, ColorMatrixEffect.colors_table);
    (JuliaFractalEffect_id, JuliaFractalEffect._init_palette);
    (FireEffect_id, FireEffect._init_fire_palette);
    (StarfieldEffect_id, StarfieldEffect._init_star_palette);
    (SineWaveEffect_id, SineWaveEffect._init_wave_palette);
    (StreamersEffect_id, StreamersEffect._init_streamer_palette);
    (PlasmaField_id, PlasmaField._init_plasma_palette);
    (Kaleidoscope_id, Kaleidoscope._init_kaleidoscope_palette);
    (Mandelbrot_id, Mandelbrot._init_mandelbrot_palette) ].

(** The rainbow scheme in the words of the specification (4.1): channel
    angle [(i/N) * 2 pi], phase shifts of [2 pi / 3] and [4 pi / 3], each
    channel [round(127 + 127 sin angle)] clamped to [0 .. 255]. *)
Definition spec_round (r : R) : Z := Int_part (r + 0.5).

Definition spec_rainbow_entry (N i : Z) : rgb :=
  let angle := (IZR i / IZR N * 2 * PI)%R in
  (Py.clamp 0 255 (spec_round (127 + 127 * sin angle)),
   Py.clamp 0 255 (spec_round (127 + 127 * sin (angle + 2 * PI / 3))),
   Py.clamp 0 255 (spec_round (127 + 127 * sin (angle + 4 * PI / 3)))).

(** Every channel of the entry lies in [lo .. hi]. *)
Definition channels_in (lo hi : Z) (c : rgb) : Prop :=
  let '(r, g, b) := c in
  lo <= r <= hi /\ lo <= g <= hi /\ lo <= b <= hi.

(** The two entries differ by at most [k] in every channel. *)
Definition within (k : Z) (c c' : rgb) : Prop :=
  let '(r, g, b) := c in
  let '(r', g', b') := c' in
  Z.abs (r - r') <= k /\ Z.abs (g - g') <= k /\ Z.abs (b - b') <= k.

End Palette.

(* ================================================================== *)
(** ** Observations on logs and frames *)

(** The effects rendered in a log, in order. *)
Definition renders (log : list event) : list Z :=
  flat_map (fun e => match e with Rendered i => [i] | _ => [] end) log.

(** The pixel a write goes to, and whether it lies on a bitmap of the
    given size: [displayio.Bitmap] raises [IndexError] for any other. *)
Definition pixel (w : write) : Z * Z := fst w.

Definition on_bitmap (width height : Z) (w : write) : Prop :=
  0 <= fst (pixel w) < width /\ 0 <= snd (pixel w) < height.

(** What a pixel holds once the writes [ws] are done, in their order, on a
    bitmap that held [before]: the value of the last write that went to it. *)
Definition painted (before : Z * Z -> Z) (ws : list write) (p : Z * Z) : Z :=
  fold_left (fun v w => if decide (pixel w = p) then Bitmap.value w else v)
            ws (before p).

(** The writes [ws] repaint a [width] by [height] bitmap with [index]:
    none of them leaves the bitmap, and whatever the bitmap held before,
    every pixel [(x, y)] holds [index x y] afterwards. *)
Definition repaints (width height : Z) (index : Z -> Z -> Z) (ws : list write)
  : Prop :=
  Forall (on_bitmap width height) ws /\
  forall (before : Z * Z -> Z) (x y : Z),
    0 <= x < width -> 0 <= y < height ->
    painted before ws (x, y) = index x y.

(** The calls a scheduler makes on its current effect. *)
Inductive call := CallUpdate | CallReset.

(** The state of an effect that draws no random numbers after the calls
    [cs], made in order. *)
Definition after {S} (update reset : S -> S) (cs : list call) (s : S) : S :=
  fold_left (fun s c => match c with
                        | CallUpdate => update s
                        | CallReset => reset s
                        end) cs s.

(** The state of an effect that draws random numbers, with the random
    source, after the calls [cs]. *)
Definition after_random {S} (update reset : S -> Random.rng -> S * Random.rng)
    (cs : list call) (st : S * Random.rng) : S * Random.rng :=
  fold_left (fun st c => match c with
                         | CallUpdate => update (fst st) (snd st)
                         | CallReset => reset (fst st) (snd st)
                         end) cs st.

(* ================================================================== *)
(** ** Invariants of the effects' states *)

(** The Mandelbrot zoom cycle on a [w] by [h] display: the frame counter
    runs inside the cycle, the zoom is the zoom speed raised to it, and the
    view centre lies between its start and the point it drifts to. *)
Definition mandelbrot_inv (w h : Z) (s : Mandelbrot.t) : Prop :=
  Mandelbrot.width s = w /\ Mandelbrot.height s = h /\
  Mandelbrot.max_iterations s = 32 /\
  Mandelbrot.zoom_speed s = (102 # 100)%Q /\
  Mandelbrot.zoom_cycle_time s = 200 /\
  Mandelbrot.zoom_center_x s = (- (235125 # 1000000))%Q /\
  Mandelbrot.zoom_center_y s = (827215 # 1000000)%Q /\
  0 <= Mandelbrot.frame_count s < 200 /\
  (Mandelbrot.zoom s == (102 # 100) ^ Mandelbrot.frame_count s)%Q /\
  (1 <= Mandelbrot.zoom s)%Q /\
  (- (1 # 2) <= Mandelbrot.center_x s)%Q /\
  (Mandelbrot.center_x s <= - (235125 # 1000000))%Q /\
  (0 <= Mandelbrot.center_y s)%Q /\
  (Mandelbrot.center_y s <= 827215 # 1000000)%Q.

(** The Matrix rain: one drop per column of the 20 by 15 grid, each with a
    speed of 1, 2 or 3 and a position between its highest respawn point
    and the row where it is recycled. *)
Definition matrix_inv (s : MatrixEffect.t) : Prop :=
  MatrixEffect.columns s = 20 /\ MatrixEffect.rows s = 15 /\
  length (MatrixEffect.drop_positions s) = 20%nat /\
  length (MatrixEffect.drop_speeds s) = 20%nat /\
  length (MatrixEffect.drop_active s) = 20%nat /\
  Forall (fun p => (-15 <= p)%Q /\ (p <= 20)%Q) (MatrixEffect.drop_positions s) /\
  Forall (fun v => 1 <= v <= 3) (MatrixEffect.drop_speeds s).

(** A star as the starfield keeps it: a brightness of 5..15, a speed of
    0.5..2 and a depth of 1..50. *)
Definition star_ok (st : StarfieldEffect.star) : Prop :=
  5 <= StarfieldEffect.brightness st <= 15 /\
  (0.5 <= StarfieldEffect.speed st <= 2)%R /\
  (1 <= StarfieldEffect.z st <= 50)%R.

(** The star is shown: [int] of its position is a pixel of the bitmap. *)
Definition star_on_screen (s : StarfieldEffect.t) (st : StarfieldEffect.star)
  : Prop :=
  0 <= Py.int_R (StarfieldEffect.x st) < StarfieldEffect.width s / 2 /\
  0 <= Py.int_R (StarfieldEffect.y st) < StarfieldEffect.height s / 2.

Definition starfield_inv (s : StarfieldEffect.t) : Prop :=
  StarfieldEffect.width s = 320 /\ StarfieldEffect.height s = 240 /\
  StarfieldEffect.center_x s = 80 /\ StarfieldEffect.center_y s = 60 /\
  StarfieldEffect.num_stars s = 150 /\
  length (StarfieldEffect.stars s) = 150%nat /\
  Forall star_ok (StarfieldEffect.stars s).

(** A streamer as the effect keeps it on the 160 by 120 bitmap: the ranges
    its fields are drawn from, and a start column between the two respawn
    zones left and right of the bitmap. *)
Definition streamer_ok (st : StreamersEffect.streamer) : Prop :=
  (-50 <= StreamersEffect.x_start st <= 210)%R /\
  10 <= StreamersEffect.y_base st <= 110 /\
  (5 <= StreamersEffect.amplitude st <= 25)%R /\
  (0.05 <= StreamersEffect.frequency st <= 0.15)%R /\
  (0.5 <= StreamersEffect.speed st <= 2)%R /\
  1 <= StreamersEffect.color st <= 31 /\
  1 <= StreamersEffect.thickness st <= 3 /\
  (StreamersEffect.direction st = -1 \/ StreamersEffect.direction st = 1) /\
  (0.02 <= StreamersEffect.wave_speed st <= 0.08)%R.

Definition streamers_inv (s : StreamersEffect.t) : Prop :=
  StreamersEffect.width s = 320 /\ StreamersEffect.height s = 240 /\
  StreamersEffect.num_streamers s = 8 /\
  length (StreamersEffect.streamers s) = 8%nat /\
  Forall streamer_ok (StreamersEffect.streamers s).

(** How hot the fire can be in row [y] of a grid of [h] rows: the flame
    loses at least one unit of heat per row it rises from the bottom row,
    where it is at most 31. *)
Definition fire_cap (h y : Z) : Z := Z.max 0 (31 - (h - 1 - y)).

Definition fire_capped (h : Z) (buf : FireEffect.grid) : Prop :=
  forall y x, 0 <= y -> 0 <= FireEffect.get buf y x <= fire_cap h y.

(* ================================================================== *)
(** * Theorems *)

(* ------------------------------------------------------------------ *)
(** ** Float comparisons *)

Lemma gt_true (a b : Q) :
  Py.gt_Q a b = true <-> (b < a)%Q.
Proof.
  unfold Py.gt_Q. rewrite negb_true_iff.
  split; intros H.
  - apply Qnot_le_lt. intros Hle. apply Qle_bool_iff in Hle. congruence.
  - destruct (Qle_bool a b) eqn:E; [|reflexivity].
    apply Qle_bool_iff in E. exfalso. apply (Qlt_not_le _ _ H E).
Qed.

Lemma gt_false (a b : Q) :
  Py.gt_Q a b = false <-> (a <= b)%Q.
Proof.
  unfold Py.gt_Q. rewrite negb_false_iff. apply Qle_bool_iff.
Qed.

Lemma Qle_bool_false (a b : Q) : Qle_bool a b = false <-> (b < a)%Q.
Proof.
  rewrite <- gt_true. unfold Py.gt_Q.
  destruct (Qle_bool a b); simpl; split; congruence.
Qed.

Lemma transitions_app (l1 l2 : list event) :
  transitions (l1 ++ l2) = (transitions l1 + transitions l2)%nat.
Proof. unfold transitions. rewrite filter_app, length_app. reflexivity. Qed.

(* ------------------------------------------------------------------ *)
(** ** The auto-scroll scheduler *)

Section AutoScroll.
Import ScreensaverManager.
Variable effs : list effect_id.
Hypothesis effs_nonempty : effs <> [].

Lemma count_positive : 0 < Z.of_nat (length effs).
Proof. destruct effs; [congruence|simpl; lia]. Qed.

Lemma manager_inv_start (t0 : Q) : manager_inv effs (start effs t0).
Proof. pose proof count_positive. repeat split; simpl; lia. Qed.

Lemma manager_inv_update (s : t) (now : Q) :
  manager_inv effs s -> manager_inv effs (fst (update s now)).
Proof.
  intros (Hn & Ha & Hi). pose proof count_positive as Hc.
  unfold update, handle_auto_scroll.
  destruct (Qle_bool _ _); simpl.
  - rewrite Hn. repeat split; auto; apply Z.mod_pos_bound; exact Hc.
  - repeat split; auto; lia.
Qed.

Lemma manager_inv_run (ticks : list Q) (s : t) :
  manager_inv effs s -> manager_inv effs (fst (run s ticks)).
Proof.
  revert s. induction ticks as [|now rest IH]; intros s Hs; simpl; [exact Hs|].
  pose proof (manager_inv_update s now Hs) as H1.
  destruct (update s now) as [s1 log1]. simpl in H1.
  specialize (IH s1 H1). destruct (run s1 rest) as [s2 log2]. exact IH.
Qed.

(** Each transition moves the index one step round the ring of effects. *)
Lemma manager_index_counts_transitions (ticks : list Q) (s : t) :
  manager_inv effs s ->
  current_effect_index (fst (run s ticks)) =
  (current_effect_index s + Z.of_nat (transitions (snd (run s ticks))))
    mod Z.of_nat (length effs).
Proof.
  revert s. induction ticks as [|now rest IH]; intros s Hs; simpl.
  - destruct Hs as (_ & _ & Hi). rewrite Z.add_0_r, Z.mod_small; auto.
  - pose proof (manager_inv_update s now Hs) as H1.
    assert (Hstep : current_effect_index (fst (update s now)) =
              (current_effect_index s +
               Z.of_nat (transitions (snd (update s now))))
                mod Z.of_nat (length effs)).
    { destruct Hs as (Hn & _ & Hi). unfold update, handle_auto_scroll.
      destruct (Qle_bool _ _); simpl.
      - rewrite Hn. reflexivity.
      - rewrite Z.add_0_r, Z.mod_small; auto. }
    destruct (update s now) as [s1 log1]. simpl in H1, Hstep.
    specialize (IH s1 H1). destruct (run s1 rest) as [s2 log2].
    simpl in IH |- *. rewrite IH, Hstep, transitions_app, Nat2Z.inj_add.
    rewrite Zplus_mod_idemp_l. f_equal. lia.
Qed.

(** C4. With [auto_scroll_time = 10] and no touch input, in every state a
    run of the manager reaches: a tick at which at least 10 seconds have
    passed since the last transition performs exactly one transition, to
    index [(index + 1) mod count], and from the last effect to index 0, and
    records the tick as the time of the last transition; a tick before that
    performs none and leaves the state alone.  Along the whole run the index
    is the number of transitions modulo the number of effects. *)
Theorem auto_scroll_advances_once_per_interval :
  forall (t0 : Q) (ticks : list Q) (now : Q),
    let count := Z.of_nat (length effs) in
    let s := fst (run (start effs t0) ticks) in
    let r := update s now in
    auto_scroll_time s = 10%Q /\
    effects s = effs /\
    ((10 <= now - last_scroll_time s)%Q ->
       current_effect_index (fst r) = (current_effect_index s + 1) mod count /\
       (current_effect_index s = count - 1 -> current_effect_index (fst r) = 0) /\
       last_scroll_time (fst r) = now /\
       transitions (snd r) = 1%nat) /\
    ((now - last_scroll_time s < 10)%Q ->
       fst r = s /\ transitions (snd r) = 0%nat) /\
    current_effect_index s =
      Z.of_nat (transitions (snd (run (start effs t0) ticks))) mod count.
Proof.
  intros t0 ticks now count s r.
  pose proof (manager_inv_run ticks _ (manager_inv_start t0)) as Hinv.
  fold s in Hinv. destruct Hinv as (Hn & Ha & Hi).
  pose proof count_positive as Hc. fold count in Hc, Hi.
  split; [exact Ha|]. split; [exact Hn|].
  split; [|split].
  - intros Hge. subst r. unfold update, handle_auto_scroll.
    rewrite Ha. apply Qle_bool_iff in Hge. rewrite Hge. simpl.
    rewrite Hn. fold count. repeat split.
    intros H8. rewrite H8. replace (count - 1 + 1) with count by lia.
    apply Z_mod_same_full.
  - intros Hlt. subst r. unfold update, handle_auto_scroll.
    rewrite Ha. apply Qle_bool_false in Hlt. rewrite Hlt. simpl.
    split; reflexivity.
  - subst s count.
    rewrite (manager_index_counts_transitions ticks _ (manager_inv_start t0)).
    reflexivity.
Qed.

End AutoScroll.

(** The manager of nine effects built at time 0, after the ticks at 5,
    10 and 25 seconds: a tick at 35 advances, a tick at 30 does not. *)
Lemma auto_scroll_advances_once_per_interval_witness :
  let s := fst (ScreensaverManager.run (ScreensaverManager.__init__ 0)
                  [5; 10; 25]%Q) in
  ScreensaverManager.current_effect_index s = 2 /\
  ScreensaverManager.current_effect_index
    (fst (ScreensaverManager.update s 35)) = 3 /\
  fst (ScreensaverManager.update s 30) = s.
Proof.
  assert (Hne : ScreensaverManager.effects (ScreensaverManager.__init__ 0) <> [])
    by discriminate.
  pose proof (auto_scroll_advances_once_per_interval _ Hne 0 [5; 10; 25]%Q 35)
    as H35.
  pose proof (auto_scroll_advances_once_per_interval _ Hne 0 [5; 10; 25]%Q 30)
    as H30.
  cbv zeta in H35, H30.
  destruct H35 as (_ & _ & Hadv & _ & Hidx).
  destruct H30 as (_ & _ & _ & Hkeep & _).
  split; [exact Hidx|]. split.
  - destruct Hadv as (Hi & _); [vm_compute; discriminate|]. exact Hi.
  - destruct Hkeep as (Hs & _); [vm_compute; reflexivity|]. exact Hs.
Defined.

(* ------------------------------------------------------------------ *)
(** ** The touch scheduler *)

Section Touch.
Import PyPortalScreensaver.

(** An accepted touch sample: one transition, and the timer stays quiet. *)
Lemma update_touch_accepted (s : t) (k : tick) :
  touch_value k = true ->
  (touch_debounce s < t_touch k - last_touch_time s)%Q ->
  monotone k -> (0 <= auto_advance_time s)%Q ->
  let r := update s k in
  transitions (snd r) = 1%nat /\
  current_effect_index (fst r) =
    (current_effect_index s + 1) mod Z.of_nat (length (effects s)) /\
  last_touch_time (fst r) = t_touch k /\
  last_advance_time (fst r) = t_advance_touch k /\
  touch_debounce (fst r) = touch_debounce s /\
  auto_advance_time (fst r) = auto_advance_time s /\
  effects (fst r) = effects s.
Proof.
  intros Ht Hacc (Hm1 & Hm2) Hauto r. subst r.
  unfold update, handle_touch. rewrite Ht. simpl andb.
  apply gt_true in Hacc. rewrite Hacc. simpl.
  assert (Hq : Py.gt_Q (t_update k - t_advance_touch k) (auto_advance_time s) = false).
  { apply gt_false. lra. }
  rewrite Hq.
  destruct (Qle_bool _ _); simpl; repeat split; reflexivity.
Qed.

(** A tick inside the window of the last accepted touch and of the timer
    changes neither the index nor the time stamps of the transitions. *)
Lemma update_quiet (s : t) (k : tick) :
  (t_touch k - last_touch_time s <= touch_debounce s)%Q ->
  (t_update k - last_advance_time s <= auto_advance_time s)%Q ->
  let r := update s k in
  transitions (snd r) = 0%nat /\
  current_effect_index (fst r) = current_effect_index s /\
  last_touch_time (fst r) = last_touch_time s /\
  last_advance_time (fst r) = last_advance_time s /\
  touch_debounce (fst r) = touch_debounce s /\
  auto_advance_time (fst r) = auto_advance_time s /\
  effects (fst r) = effects s.
Proof.
  intros Hw Ha r. subst r. unfold update, handle_touch.
  apply gt_false in Hw. rewrite Hw, andb_false_r.
  apply gt_false in Ha. rewrite Ha.
  destruct (Qle_bool _ _); simpl; repeat split; reflexivity.
Qed.

Lemma run_quiet (rest : list tick) (s : t) (t_a : Q) :
  last_touch_time s = t_a -> (t_a <= last_advance_time s)%Q ->
  touch_debounce s = (1 # 2)%Q -> auto_advance_time s = 30%Q ->
  Forall (in_window t_a) rest ->
  let r := run s rest in
  transitions (snd r) = 0%nat /\
  current_effect_index (fst r) = current_effect_index s /\
  last_touch_time (fst r) = t_a /\
  last_advance_time (fst r) = last_advance_time s /\
  touch_debounce (fst r) = (1 # 2)%Q /\
  auto_advance_time (fst r) = 30%Q /\
  effects (fst r) = effects s.
Proof.
  revert s. induction rest as [|b rest IH]; intros s Hl Hadv Hd Hau Hall;
    simpl; [repeat split; assumption|].
  inversion Hall as [|b' rest' (Hb1 & Hb2) Hrest]; subst b' rest'.
  destruct (update_quiet s b) as (T & I & L & A & D & U & E).
  { rewrite Hl, Hd. lra. }
  { rewrite Hau. lra. }
  destruct (update s b) as [s1 log1]. simpl in T, I, L, A, D, U, E.
  assert (Hadv1 : (t_a <= last_advance_time s1)%Q) by (rewrite A; exact Hadv).
  destruct (IH s1) as (T' & I' & L' & A' & D' & U' & E');
    [congruence | exact Hadv1 | congruence | congruence | exact Hrest |].
  destruct (run s1 rest) as [s2 log2]. simpl in T', I', L', A', D', U', E' |- *.
  rewrite transitions_app, T, T'.
  repeat split; congruence.
Qed.

Lemma run_app (l1 l2 : list tick) (s : t) :
  run s (l1 ++ l2) =
  (fst (run (fst (run s l1)) l2), snd (run s l1) ++ snd (run (fst (run s l1)) l2)).
Proof.
  revert s. induction l1 as [|k l1 IH]; intros s; simpl.
  - destruct (run s l2). reflexivity.
  - destruct (update s k) as [s1 log1]. rewrite IH.
    destruct (run s1 l1) as [s2 log2]. simpl.
    destruct (run s2 l2) as [s3 log3]. simpl.
    rewrite app_assoc. reflexivity.
Qed.

(** C5, as amended.  When a touch sample is accepted (it comes more than
    0.5 s after the last accepted one), every touch sample of the following
    ticks that is less than 0.5 s after it is ignored: the accepted sample
    and the ticks of its window make exactly one transition together. *)
Theorem accepted_touch_debounces_later_touches :
  forall (s : t) (a : tick) (rest : list tick),
    touch_debounce s = (1 # 2)%Q -> auto_advance_time s = 30%Q ->
    touch_value a = true ->
    (1 # 2 < t_touch a - last_touch_time s)%Q ->
    monotone a ->
    Forall (in_window (t_touch a)) rest ->
    transitions (snd (run s (a :: rest))) = 1%nat /\
    current_effect_index (fst (run s (a :: rest))) =
      (current_effect_index s + 1) mod Z.of_nat (length (effects s)).
Proof.
  intros s a rest Hd Hau Ht Hacc Hm Hall. simpl.
  destruct (update_touch_accepted s a Ht) as (T & I & L & A & D & U & _); auto.
  { rewrite Hd. exact Hacc. }
  { rewrite Hau. lra. }
  destruct (update s a) as [s1 log1]. simpl in T, I, L, A, D, U.
  assert (Hadv : (t_touch a <= last_advance_time s1)%Q) by (rewrite A; apply Hm).
  destruct (run_quiet rest s1 (t_touch a) L Hadv) as (T' & I' & _);
    [congruence | congruence | exact Hall |].
  destruct (run s1 rest) as [s2 log2]. simpl in T', I' |- *.
  rewrite transitions_app, T, T'. split; [reflexivity|congruence].
Qed.

(** A tap at 1.0 s, a release, and a second tap at 1.2 s. *)
Lemma accepted_touch_debounces_later_touches_witness :
  transitions
    (snd (run (__init__ 0) [tap 1; release (11 # 10); tap (12 # 10)])) = 1%nat.
Proof.
  apply (accepted_touch_debounces_later_touches
           (__init__ 0) (tap 1) [release (11 # 10); tap (12 # 10)]).
  - reflexivity.
  - reflexivity.
  - reflexivity.
  - vm_compute. reflexivity.
  - split; vm_compute; discriminate.
  - repeat constructor; vm_compute; try discriminate; reflexivity.
Defined.

(** C5 as stated fails: of three quick taps at 1.0 s, 1.2 s and 1.4 s the
    second and the third are rising edges 0.2 s apart, and the scheduler
    makes no transition for that pair. *)
Lemma debounce_pair_counterexample :
  let s := fst (run (__init__ 0) [tap 1; release (11 # 10)]) in
  let a := tap (12 # 10) in
  let b := tap (14 # 10) in
  touch_value a = true /\ touch_value b = true /\
  (t_touch b - t_touch a < 1 # 2)%Q /\
  transitions (snd (run s [a; release (13 # 10); b])) <> 1%nat.
Proof.
  cbv zeta. repeat split; vm_compute; discriminate.
Qed.

(** A sample that is ignored opens no window of its own: after an accepted
    touch at 1.0 s, of the samples at 1.4 s and 1.8 s the first is ignored
    and the second, 0.8 s after the accepted touch, is accepted. *)
Example ignored_sample_opens_no_window :
  let s := fst (run (__init__ 0) [tap 1]) in
  (t_touch (tap (18 # 10)) - t_touch (tap (14 # 10)) < 1 # 2)%Q /\
  transitions (snd (run s [tap (14 # 10)])) = 0%nat /\
  transitions (snd (run s [tap (14 # 10); release (16 # 10); tap (18 # 10)]))
    = 1%nat.
Proof.
  cbv zeta. repeat split; vm_compute; reflexivity.
Qed.

(** C10.  [handle_touch] samples the level of the sensor: a tick whose
    sample reads true more than 0.5 s after the last accepted touch makes a
    transition whatever the samples before it were.  With the sensor held
    down, the ticks [held] inside the window of that touch make none, and
    the first tick [k2] more than 0.5 s later makes the next one, with no
    release in between. *)
Theorem touch_is_level_sampled :
  forall (s : t) (k1 k2 : tick) (held : list tick),
    touch_debounce s = (1 # 2)%Q -> auto_advance_time s = 30%Q ->
    touch_value k1 = true -> monotone k1 ->
    (1 # 2 < t_touch k1 - last_touch_time s)%Q ->
    Forall (fun b => touch_value b = true /\ in_window (t_touch k1) b) held ->
    touch_value k2 = true -> monotone k2 ->
    (1 # 2 < t_touch k2 - t_touch k1)%Q ->
    let n := Z.of_nat (length (effects s)) in
    transitions (snd (update s k1)) = 1%nat /\
    current_effect_index (fst (update s k1)) = (current_effect_index s + 1) mod n /\
    last_touch_time (fst (update s k1)) = t_touch k1 /\
    transitions (snd (run s (k1 :: held))) = 1%nat /\
    transitions (snd (run s (k1 :: held ++ [k2]))) = 2%nat /\
    current_effect_index (fst (run s (k1 :: held ++ [k2]))) =
      ((current_effect_index s + 1) mod n + 1) mod n.
Proof.
  intros s k1 k2 held Hd Hau Ht1 Hm1 Hacc1 Hheld Ht2 Hm2 Hacc2 n. subst n.
  assert (Hwin : Forall (in_window (t_touch k1)) held).
  { eapply Forall_impl; [exact Hheld|]. intros b [_ Hb]. exact Hb. }
  cbn [run].
  destruct (update_touch_accepted s k1 Ht1) as (T & I & L & A & D & U & E); auto.
  { rewrite Hd. exact Hacc1. }
  { rewrite Hau. lra. }
  destruct (update s k1) as [s1 log1]. cbn [fst snd] in T, I, L, A, D, U, E |- *.
  assert (Hadv : (t_touch k1 <= last_advance_time s1)%Q) by (rewrite A; apply Hm1).
  destruct (run_quiet held s1 (t_touch k1) L Hadv)
    as (T' & I' & L' & A' & D' & U' & E');
    [congruence | congruence | exact Hwin |].
  rewrite run_app.
  destruct (run s1 held) as [s2 log2]. cbn [fst snd] in T', I', L', A', D', U', E' |- *.
  cbn [run].
  destruct (update_touch_accepted s2 k2 Ht2) as (T2 & I2 & _); auto.
  { rewrite D', L'. exact Hacc2. }
  { rewrite U'. lra. }
  destruct (update s2 k2) as [s3 log3]. cbn [fst snd] in T2, I2 |- *.
  rewrite app_nil_r, !transitions_app, T, T', T2, I2, I', E', E, <- I.
  repeat split; solve [reflexivity | exact L].
Qed.

(** The sensor held down over the ticks at 1.0 s, 1.2 s, 1.4 s and 1.6 s. *)
Lemma touch_is_level_sampled_witness :
  let ticks := [tap 1; tap (12 # 10); tap (14 # 10); tap (16 # 10)] in
  transitions (snd (run (__init__ 0) ticks)) = 2%nat /\
  current_effect_index (fst (run (__init__ 0) ticks)) = 2.
Proof.
  destruct (touch_is_level_sampled (__init__ 0) (tap 1) (tap (16 # 10))
              [tap (12 # 10); tap (14 # 10)])
    as (_ & _ & _ & _ & T & I).
  - reflexivity.
  - reflexivity.
  - reflexivity.
  - split; vm_compute; discriminate.
  - vm_compute. reflexivity.
  - repeat constructor; vm_compute; try discriminate; reflexivity.
  - reflexivity.
  - split; vm_compute; discriminate.
  - vm_compute. reflexivity.
  - split; [exact T | exact I].
Defined.

End Touch.

(* ------------------------------------------------------------------ *)
(** ** Truncation, float modulo and clamping *)

Lemma clamp_range (lo hi v : Z) :
  lo <= hi -> lo <= Py.clamp lo hi v <= hi.
Proof. unfold Py.clamp. lia. Qed.

(** Truncation keeps a float between the integers that bound it. *)
Lemma int_R_range (r : R) (lo hi : Z) :
  (IZR lo <= r)%R -> (r <= IZR hi)%R -> lo <= Py.int_R r <= hi.
Proof.
  intros Hlo Hhi. unfold Py.int_R.
  destruct (Rle_dec 0 r) as [Hr|Hr].
  - destruct (base_Int_part r) as [H1 H2]. split.
    + apply Z.lt_succ_r, lt_IZR. rewrite succ_IZR. lra.
    + apply le_IZR. lra.
  - destruct (base_Int_part (- r)) as [H1 H2]. split.
    + apply le_IZR. rewrite opp_IZR. lra.
    + apply Z.lt_succ_r, lt_IZR. rewrite succ_IZR, opp_IZR. lra.
Qed.

Lemma int_R_below (r : R) (hi : Z) :
  (0 <= r)%R -> (r < IZR hi)%R -> 0 <= Py.int_R r < hi.
Proof.
  intros Hlo Hhi. unfold Py.int_R.
  destruct (Rle_dec 0 r) as [Hr|Hr]; [|contradiction].
  destruct (base_Int_part r) as [H1 H2]. split.
  - apply Z.lt_succ_r, lt_IZR. rewrite succ_IZR. lra.
  - apply lt_IZR. lra.
Qed.

Lemma fmod_R_range (a b : R) :
  (0 < b)%R -> (0 <= Py.fmod_R a b < b)%R.
Proof.
  intros Hb. unfold Py.fmod_R.
  destruct (base_Int_part (a / b)) as [H1 H2].
  assert (Ha : (a = a / b * b)%R) by (field; lra).
  set (q := (a / b)%R) in *. set (n := IZR (Int_part q)) in *.
  rewrite Ha. split; nra.
Qed.

Lemma fmod_Q_range (a b : Q) :
  (0 < b)%Q -> (0 <= Py.fmod_Q a b)%Q /\ (Py.fmod_Q a b < b)%Q.
Proof.
  intros Hb. unfold Py.fmod_Q.
  pose proof (Qfloor_le (a / b)) as H1.
  pose proof (Qlt_floor (a / b)) as H2.
  assert (Ha : (a == a / b * b)%Q) by (field; lra).
  rewrite inject_Z_plus in H2.
  set (q := (a / b)%Q) in *. set (n := inject_Z (Qfloor q)) in *.
  split.
  - rewrite Ha at 1. nra.
  - rewrite Ha at 1. change (inject_Z 1) with 1%Q in H2. nra.
Qed.

Lemma int_Q_below (q : Q) (hi : Z) :
  (0 <= q)%Q -> (q < inject_Z hi)%Q -> 0 <= Py.int_Q q < hi.
Proof.
  intros Hlo Hhi. unfold Py.int_Q.
  apply Qle_bool_iff in Hlo. rewrite Hlo. apply Qle_bool_iff in Hlo.
  split.
  - change 0 with (Qfloor 0). apply Qfloor_resp_le. exact Hlo.
  - pose proof (Qfloor_le q) as H1.
    assert (H : (inject_Z (Qfloor q) < inject_Z hi)%Q) by lra.
    rewrite <- Zlt_Qlt in H. exact H.
Qed.

(* ------------------------------------------------------------------ *)
(** ** The escape-time loops *)

(** The origin is a fixed point of [z := z^2 + 0]. *)
Lemma mandelbrot_origin_stays (fuel : nat) (i : Z) :
  Mandelbrot.iterate 0 0 fuel i 0 0 = Inside.
Proof.
  revert i. induction fuel as [|fuel IH]; intros i; [reflexivity|].
  exact (IH (i + 1)).
Qed.

(** An escape is reported with the number of the iteration that saw it. *)
Lemma mandelbrot_iterate_escape_index (cx cy : Q) (fuel : nat) :
  forall (i : Z) (x y : Q) (j : Z),
    Mandelbrot.iterate cx cy fuel i x y = Escaped j -> i <= j.
Proof.
  induction fuel as [|fuel IH]; intros i x y j H; simpl in H; [discriminate|].
  destruct (Py.gt_Q _ _).
  - inversion H. lia.
  - apply IH in H. lia.
Qed.

(** [z] starts at 0, so the Mandelbrot loop never escapes at iteration 0. *)
Lemma mandelbrot_escape_positive (m : Z) (cx cy : Q) (j : Z) :
  Mandelbrot.escape_loop m cx cy = Escaped j -> 1 <= j.
Proof.
  unfold Mandelbrot.escape_loop. destruct (Z.to_nat m) as [|fuel]; simpl.
  - discriminate.
  - intros H. apply mandelbrot_iterate_escape_index in H. lia.
Qed.

Lemma mandelbrot_index_of_escape (s : Mandelbrot.t) (j : Z) :
  1 <= Py.int_Q (Py.fmod_Q (inject_Z j + Mandelbrot.color_offset s) 255) + 1 <= 255.
Proof.
  destruct (fmod_Q_range (inject_Z j + Mandelbrot.color_offset s) 255)
    as [H1 H2]; [reflexivity|].
  pose proof (int_Q_below _ 255 H1 H2). lia.
Qed.

(** The Mandelbrot half of C3: index 0 exactly for the points that stay
    inside, and the offset escape count for the others. *)
Lemma mandelbrot_black_iff_inside (s : Mandelbrot.t) (x y : Z) :
  let '(cx, cy) := Mandelbrot._screen_to_complex s x y in
  let o := Mandelbrot.escape_loop (Mandelbrot.max_iterations s) cx cy in
  (Mandelbrot.color_index s x y = 0 <-> o = Inside) /\
  (forall j, o = Escaped j ->
     Mandelbrot.color_index s x y =
     Py.int_Q (Py.fmod_Q (inject_Z j + Mandelbrot.color_offset s) 255) + 1).
Proof.
  unfold Mandelbrot.color_index, Mandelbrot._mandelbrot_iteration.
  destruct (Mandelbrot._screen_to_complex s x y) as [cx cy].
  destruct (Mandelbrot.escape_loop _ cx cy) as [j|] eqn:E; simpl.
  - apply mandelbrot_escape_positive in E.
    pose proof (mandelbrot_index_of_escape s j) as Hr.
    destruct (j =? 0) eqn:Ej; [lia|]. split.
    + split; [lia|discriminate].
    + intros j' H. inversion H. subst. reflexivity.
  - split; [split; reflexivity|discriminate].
Qed.

(** C6, as amended.  Whatever the positive [max_iterations], [c = (0,0)]
    never escapes and the function returns 0.  [c = (2,2)] escapes at
    iteration 1 as soon as [max_iterations >= 2]; with [max_iterations = 1]
    the loop ends before the test can see [z = c], and the function returns
    the no-escape result 0. *)
Theorem mandelbrot_origin_inside_corner_escapes :
  forall (s : Mandelbrot.t),
    0 < Mandelbrot.max_iterations s ->
    Mandelbrot.escape_loop (Mandelbrot.max_iterations s) 0 0 = Inside /\
    Mandelbrot._mandelbrot_iteration s 0 0 = 0 /\
    (2 <= Mandelbrot.max_iterations s ->
       Mandelbrot.escape_loop (Mandelbrot.max_iterations s) 2 2 = Escaped 1 /\
       Mandelbrot._mandelbrot_iteration s 2 2 = 1) /\
    (Mandelbrot.max_iterations s = 1 ->
       Mandelbrot.escape_loop (Mandelbrot.max_iterations s) 2 2 = Inside /\
       Mandelbrot._mandelbrot_iteration s 2 2 = 0).
Proof.
  intros s Hpos. unfold Mandelbrot._mandelbrot_iteration, Mandelbrot.escape_loop.
  rewrite mandelbrot_origin_stays. repeat split.
  - destruct (Z.to_nat (Mandelbrot.max_iterations s)) as [|[|n]] eqn:E;
      [lia | lia | reflexivity].
  - destruct (Z.to_nat (Mandelbrot.max_iterations s)) as [|[|n]] eqn:E;
      [lia | lia | reflexivity].
  - rewrite H. reflexivity.
  - rewrite H. reflexivity.
Qed.

(** The effect as constructed: [max_iterations = 32]. *)
Lemma mandelbrot_origin_inside_corner_escapes_witness :
  Mandelbrot._mandelbrot_iteration (Mandelbrot.__init__ 320 240) 0 0 = 0 /\
  Mandelbrot._mandelbrot_iteration (Mandelbrot.__init__ 320 240) 2 2 = 1.
Proof.
  destruct (mandelbrot_origin_inside_corner_escapes (Mandelbrot.__init__ 320 240))
    as (_ & H0 & H2 & _).
  - reflexivity.
  - split; [exact H0|]. apply H2. simpl. lia.
Defined.

(** C6 as stated fails for [max_iterations = 1]: at [c = (2,2)] the loop
    is left without an escape, neither at iteration 0 nor at iteration 1. *)
Lemma mandelbrot_one_iteration_counterexample :
  0 < 1 /\
  Mandelbrot.escape_loop 1 2 2 <> Escaped 0 /\
  Mandelbrot.escape_loop 1 2 2 <> Escaped 1 /\
  Mandelbrot.escape_loop 1 2 2 = Inside.
Proof. repeat split; try lia; vm_compute; discriminate. Qed.

(** In every frame the Julia zoom lies in [1.2, 1.8], which puts the pixel
    (0, 0) outside the circle of radius 2. *)
Lemma julia_corner_outside (s : JuliaFractalEffect.t) :
  JuliaFractalEffect.width s = 320 -> JuliaFractalEffect.height s = 240 ->
  JuliaFractalEffect.center_x s = (-0.7)%R ->
  JuliaFractalEffect.center_y s = 0%R ->
  let s1 := JuliaFractalEffect.advance s in
  let '(zx, zy) := JuliaFractalEffect.point s1 0 0 in
  (zx * zx + zy * zy > 4)%R.
Proof.
  intros Hw Hh Hcx Hcy. unfold JuliaFractalEffect.point, JuliaFractalEffect.advance.
  cbn [JuliaFractalEffect.width JuliaFractalEffect.height JuliaFractalEffect.zoom JuliaFractalEffect.center_x JuliaFractalEffect.center_y].
  rewrite Hw, Hh, Hcx, Hcy.
  change (320 / 2) with 160. change (240 / 2) with 120.
  pose proof (SIN_bound ((JuliaFractalEffect.time s + 0.05) * 0.3)) as [Hs1 Hs2].
  set (z := (1.5 + 0.3 * sin ((JuliaFractalEffect.time s + 0.05) * 0.3))%R).
  assert (Hz1 : (1.2 <= z)%R) by (unfold z; lra).
  assert (Hz2 : (z <= 1.8)%R) by (unfold z; lra).
  assert (Hu : (/ z * z = 1)%R) by (field; lra).
  assert (Hu0 : (0 < / z)%R) by (apply Rinv_0_lt_compat; lra).
  assert (Hu1 : (5 / 9 <= / z)%R) by nra.
  unfold Rdiv. set (u := (/ z)%R) in *.
  replace ((0 * / 160 - 0.5) * 4.0 * u + -0.7)%R with (- (2 * u + 0.7))%R by lra.
  replace ((0 * / 120 - 0.5) * 4.0 * u + 0)%R with (- (2 * u))%R by lra.
  nra.
Qed.

(** One turn of the Julia loop. *)
Lemma julia_iterate_step (c_re c_im : R) (fuel : nat) (i : Z) (zx zy : R) :
  JuliaFractalEffect.iterate c_re c_im (S fuel) i zx zy =
  if Rgt_dec (zx * zx + zy * zy) 4 then Escaped i
  else JuliaFractalEffect.iterate c_re c_im fuel (i + 1)
         (zx * zx - zy * zy + c_re) (2 * zx * zy + c_im).
Proof. reflexivity. Qed.

(** C3 on the code: in the first frame of the Julia effect the pixel
    (0, 0) escapes at iteration 0, [_julia_iteration] returns that 0, and
    [update] writes the index 0 of the points that never escape. *)
Theorem julia_escape_at_iteration_zero_is_written_black :
  let s1 := fst (JuliaFractalEffect.update JuliaFractalEffect.__init__) in
  JuliaFractalEffect.escape_loop s1 0 0 = Escaped 0 /\
  JuliaFractalEffect._julia_iteration s1 0 0 = 0 /\
  JuliaFractalEffect.color_index s1 0 0 = 0 /\
  In (0, 0, 0) (snd (JuliaFractalEffect.update JuliaFractalEffect.__init__)).
Proof.
  cbv zeta. unfold JuliaFractalEffect.update. cbn [fst snd].
  set (s1 := JuliaFractalEffect.advance JuliaFractalEffect.__init__).
  assert (E : JuliaFractalEffect.escape_loop s1 0 0 = Escaped 0).
  { pose proof (julia_corner_outside JuliaFractalEffect.__init__
                  eq_refl eq_refl eq_refl eq_refl) as H.
    cbv zeta in H. fold s1 in H.
    unfold JuliaFractalEffect.escape_loop.
    destruct (JuliaFractalEffect.point s1 0 0) as [zx zy].
    change (Z.to_nat (JuliaFractalEffect.max_iterations s1)) with (S 19).
    rewrite julia_iterate_step.
    destruct (Rgt_dec (zx * zx + zy * zy) 4); [reflexivity|contradiction]. }
  assert (C : JuliaFractalEffect.color_index s1 0 0 = 0).
  { unfold JuliaFractalEffect.color_index, JuliaFractalEffect._julia_iteration.
    rewrite E. reflexivity. }
  split; [exact E|]. split.
  - unfold JuliaFractalEffect._julia_iteration. rewrite E. reflexivity.
  - split; [exact C|].
    unfold JuliaFractalEffect.frame. apply in_flat_map. exists 0. split.
    + change (JuliaFractalEffect.height s1 / 2) with 120. 
      unfold Py.range3. change (Z.to_nat _) with 60%nat. left. reflexivity.
    + apply in_flat_map. exists 0. split.
      * change (JuliaFractalEffect.width s1 / 2) with 160.
        unfold Py.range3. change (Z.to_nat _) with 80%nat. left. reflexivity.
      * unfold Bitmap.block2x2. rewrite C. left. reflexivity.
Qed.

(* ------------------------------------------------------------------ *)
(** ** The fire simulation *)

Lemma range_seq (n : Z) : Py.range n = map Z.of_nat (seq 0 (Z.to_nat n)).
Proof.
  unfold Py.range, Py.range3. simpl (0 <? 1).
  replace ((n - 0 + 1 - 1) / 1) with n by (rewrite Z.div_1_r; lia).
  apply map_ext. intros k. lia.
Qed.

Lemma randint_range (a b : Z) (g : Random.rng) :
  a <= b -> a <= fst (Random.randint a b g) <= b.
Proof.
  intros Hab. unfold Random.randint. simpl.
  pose proof (Z.mod_pos_bound (Random.int_draws g (Random.cursor g)) (b - a + 1)).
  lia.
Qed.

Section FireInvariant.
Import FireEffect.
Variables w h : Z.

Lemma set_shaped (buf : grid) (y x v : Z) :
  shaped w h buf -> shaped w h (set buf y x v).
Proof.
  intros [Hl Hr]. unfold shaped, set. rewrite length_alter. split; [exact Hl|].
  apply Forall_alter; [exact Hr|]. intros row _ Hrow.
  rewrite length_insert. exact Hrow.
Qed.

Lemma set_heat_in (lo : Z) (buf : grid) (y x v : Z) :
  lo <= v <= 31 -> Forall (heat_in lo) buf -> Forall (heat_in lo) (set buf y x v).
Proof.
  intros Hv Hb. unfold set. apply Forall_alter; [exact Hb|].
  intros row _ Hrow. apply Forall_insert; assumption.
Qed.

Lemma new_heat_range (buf : grid) (g : Random.rng) (x y : Z) :
  0 <= fst (new_heat w h buf g x y) <= 31.
Proof.
  unfold new_heat. destruct (heat_around w h buf x y) as [heat_sum heat_count].
  destruct (0 <? heat_count); [|simpl; lia].
  destruct (Random.randint 1 3 g) as [cooling g1].
  destruct (Random.randint 0 10 g1) as [flicker g2].
  destruct (flicker <? 3).
  - destruct (Random.randint 0 2 g2) as [extra g3]. simpl. lia.
  - simpl. lia.
Qed.

Lemma cell_step_inv (y : Z) (st : grid * Random.rng) (x : Z) :
  fire_inv w h (fst st) -> fire_inv w h (fst (cell_step w h y st x)).
Proof.
  intros [Hs Hh]. unfold cell_step.
  pose proof (new_heat_range (fst st) (snd st) x y) as Hv.
  destruct (new_heat w h (fst st) (snd st) x y) as [v g1]. simpl in *.
  split; [apply set_shaped | apply set_heat_in]; assumption.
Qed.

Lemma fold_inv {A} (f : grid * Random.rng -> A -> grid * Random.rng) (l : list A) :
  (forall st a, fire_inv w h (fst st) -> fire_inv w h (fst (f st a))) ->
  forall st, fire_inv w h (fst st) -> fire_inv w h (fst (fold_left f l st)).
Proof.
  intros Hf. induction l as [|a l IH]; intros st Hst; simpl; [exact Hst|].
  apply IH, Hf, Hst.
Qed.

Lemma row_step_inv (st : grid * Random.rng) (y : Z) :
  fire_inv w h (fst st) -> fire_inv w h (fst (row_step w h st y)).
Proof. apply fold_inv. intros st' x. apply cell_step_inv. Qed.

Lemma source_step_set (st : grid * Random.rng) (x : Z) :
  exists v, 20 <= v <= 31 /\
    fst (source_step h st x) = set (fst st) (h - 1) x v.
Proof.
  unfold source_step. destruct (Random.randint (-3) 3 (snd st)) as [j g1].
  eexists. split; [|reflexivity]. lia.
Qed.

Lemma source_step_inv (st : grid * Random.rng) (x : Z) :
  fire_inv w h (fst st) -> fire_inv w h (fst (source_step h st x)).
Proof.
  intros [Hs Hh]. destruct (source_step_set st x) as (v & Hv & ->).
  split; [apply set_shaped | apply set_heat_in]; auto. lia.
Qed.

(** Writing the cells [0 .. n-1] of the row [y], one after the other, with
    heats of [lo .. 31] leaves exactly those heats in these cells. *)
Lemma fill_row {S} (proj : S -> grid) (F : S -> Z -> S) (y lo : Z) :
  (forall st x, exists v, lo <= v <= 31 /\ proj (F st x) = set (proj st) y x v) ->
  forall (n : nat) (st : S) (row : list Z),
    proj st !! Z.to_nat y = Some row ->
    exists row',
      proj (fold_left F (map Z.of_nat (seq 0 n)) st) !! Z.to_nat y = Some row' /\
      length row' = length row /\
      (forall i v, (i < n)%nat -> row' !! i = Some v -> lo <= v <= 31).
Proof.
  intros HF n st row Hrow. induction n as [|n IH].
  - exists row. split; [exact Hrow|]. split; [reflexivity|].
    intros j u Hj. lia.
  - destruct IH as (row1 & H1 & Hlen & Hok).
    rewrite seq_S, map_app, fold_left_app. simpl.
    set (st1 := fold_left F (map Z.of_nat (seq 0 n)) st) in *.
    destruct (HF st1 (Z.of_nat n)) as (v & Hv & ->).
    exists (<[n := v]> row1). unfold set.
    rewrite list_lookup_alter_eq, H1, Nat2Z.id. simpl.
    split; [reflexivity|]. split; [rewrite length_insert; exact Hlen|].
    intros i u Hi Hu.
    destruct (decide (i = n)) as [->|Hne].
    + apply list_lookup_insert_Some in Hu. destruct Hu as [(_ & -> & _)|(? & _)];
        [exact Hv|congruence].
    + rewrite list_lookup_insert_ne in Hu by congruence.
      apply (Hok i u); [lia|exact Hu].
Qed.

Lemma bottom_row_exists (buf : grid) :
  0 < h -> shaped w h buf ->
  exists row, buf !! Z.to_nat (h - 1) = Some row /\ length row = Z.to_nat w.
Proof.
  intros Hh [Hl Hr].
  destruct (lookup_lt_is_Some_2 buf (Z.to_nat (h - 1))) as [row Hrow]; [lia|].
  exists row. split; [exact Hrow|].
  exact (Forall_lookup_1 _ _ _ _ Hr Hrow).
Qed.

Lemma filled_row_heat (lo : Z) (row : list Z) :
  (forall i v, (i < length row)%nat -> row !! i = Some v -> lo <= v <= 31) ->
  heat_in lo row.
Proof.
  intros H. apply Forall_lookup_2. intros i v Hv.
  apply (H i v); [|exact Hv]. apply lookup_lt_Some in Hv. exact Hv.
Qed.

Lemma update_fire_simulation_inv (buf : grid) (g : Random.rng) :
  0 < h -> fire_inv w h buf ->
  fire_inv w h (fst (_update_fire_simulation w h buf g)) /\
  source_row h 20 (fst (_update_fire_simulation w h buf g)).
Proof.
  intros Hh Hinv. unfold _update_fire_simulation.
  set (st := fold_left (row_step w h) _ (buf, g)).
  assert (Hst : fire_inv w h (fst st)).
  { apply fold_inv; [|exact Hinv]. intros st' y. apply row_step_inv. }
  split.
  - apply fold_inv; [|exact Hst]. intros st' x. apply source_step_inv.
  - destruct (bottom_row_exists (fst st) Hh (proj1 Hst)) as (row & Hrow & Hlen).
    rewrite range_seq.
    destruct (fill_row fst (source_step h) (h - 1) 20 source_step_set
                (Z.to_nat w) st row Hrow) as (row' & H1 & Hl' & Hok).
    exists row'. split; [exact H1|].
    apply filled_row_heat. intros i v Hi. apply Hok. lia.
Qed.

Lemma init_fire_source_inv (buf : grid) :
  0 < h -> fire_inv w h buf ->
  fire_inv w h (_init_fire_source w h buf) /\ source_row h 20 (_init_fire_source w h buf).
Proof.
  intros Hh Hinv. unfold _init_fire_source.
  assert (Hset : forall (b : grid) (x : Z), exists v,
            31 <= v <= 31 /\ set b (h - 1) x 31 = set b (h - 1) x v).
  { intros b x. exists 31. split; [lia|reflexivity]. }
  split.
  - generalize (Py.range w). intros l. revert buf Hinv.
    induction l as [|x l IH]; intros buf [Hs Hb]; simpl; [split; assumption|].
    apply IH. split; [apply set_shaped | apply set_heat_in]; auto. lia.
  - destruct (bottom_row_exists buf Hh (proj1 Hinv)) as (row & Hrow & Hlen).
    rewrite range_seq.
    destruct (fill_row (fun b : grid => b)
                (fun b x => set b (h - 1) x 31) (h - 1) 31 Hset
                (Z.to_nat w) buf row Hrow) as (row' & H1 & Hl' & Hok).
    exists row'. split; [exact H1|].
    apply filled_row_heat. intros i v Hi Hv.
    assert (31 <= v <= 31) by (apply (Hok i v); [lia|exact Hv]). lia.
Qed.

End FireInvariant.

Section FireRun.
Import FireEffect.

Lemma zeros_inv (w h : Z) : fire_inv w h (zeros w h).
Proof.
  unfold fire_inv, shaped, zeros. rewrite length_replicate.
  split; [split; [reflexivity|]|].
  - apply Forall_replicate. apply length_replicate.
  - apply Forall_replicate. apply Forall_replicate. lia.
Qed.

Lemma reset_good (s : t) : fire_good s -> fire_good (reset s).
Proof.
  intros (Hw & Hh & Hinv & _). unfold fire_good, reset. simpl.
  rewrite Hw, Hh.
  destruct (init_fire_source_inv 80 60 (fire_buffer s)) as [H1 H2];
    [lia | exact Hinv |].
  repeat split; solve [reflexivity | apply H1 | exact H2].
Qed.

Lemma init_good : fire_good __init__.
Proof.
  unfold __init__. apply reset_good. unfold fire_good. simpl.
  destruct (init_fire_source_inv 80 60 (zeros 80 60)) as [H1 H2];
    [lia | apply zeros_inv |].
  repeat split; solve [reflexivity | apply H1 | exact H2].
Qed.

Lemma update_good (s : t) (g : Random.rng) :
  fire_good s -> fire_good (fst (fst (update s g))).
Proof.
  intros (Hw & Hh & Hinv & _). unfold fire_good, update.
  rewrite Hw, Hh.
  destruct (update_fire_simulation_inv 80 60 (fire_buffer s) g) as [H1 H2];
    [lia | exact Hinv |].
  destruct (_update_fire_simulation 80 60 (fire_buffer s) g) as [buf g1].
  simpl in *. repeat split; solve [assumption | apply H1].
Qed.

Lemma run_good (ops : list op) :
  forall (s : t) (g : Random.rng), fire_good s -> fire_good (fst (run ops s g)).
Proof.
  induction ops as [|[|] ops IH]; intros s g Hs; simpl.
  - exact Hs.
  - pose proof (update_good s g Hs) as H.
    destruct (update s g) as [[s1 g1] ws]. apply IH. exact H.
  - apply IH, reset_good, Hs.
Qed.

(** C7.  Whatever updates and resets the fire effect has gone through
    since its construction and whatever the random source drew, the heat
    grid has its 60 rows of 80 cells, every cell holds a heat of 0..31 (the
    palette has 32 entries), and every cell of the bottom source row holds
    at least 20. *)
Theorem fire_heat_stays_in_range :
  forall (ops : list op) (g : Random.rng),
    let buf := fire_buffer (fst (run ops __init__ g)) in
    length buf = 60%nat /\
    Forall (fun row => length row = 80%nat /\
                       Forall (fun v => 0 <= v <= 31) row) buf /\
    exists row, buf !! 59%nat = Some row /\
                Forall (fun v => 20 <= v <= 31) row.
Proof.
  intros ops g buf.
  destruct (run_good ops __init__ g init_good) as (_ & _ & [[Hl Hr] Hh] & Hsrc).
  fold buf in Hl, Hr, Hh, Hsrc.
  split; [exact Hl|]. split; [|exact Hsrc].
  apply Forall_lookup_2. intros i row Hrow. split.
  - exact (Forall_lookup_1 _ _ _ _ Hr Hrow).
  - exact (Forall_lookup_1 _ _ _ _ Hh Hrow).
Qed.

End FireRun.

(* ------------------------------------------------------------------ *)
(** ** Every write of every generator is a valid palette index *)

Lemma Forall_flat_map_intro {A B} (P : B -> Prop) (f : A -> list B) (l : list A) :
  (forall a, In a l -> Forall P (f a)) -> Forall P (flat_map f l).
Proof.
  induction l as [|a l IH]; intros H; simpl; [constructor|].
  apply Forall_app. split.
  - apply H. left. reflexivity.
  - apply IH. intros a' Ha'. apply H. right. exact Ha'.
Qed.

Lemma Forall_map_intro {A B} (P : B -> Prop) (f : A -> B) (l : list A) :
  (forall a, In a l -> P (f a)) -> Forall P (map f l).
Proof.
  induction l as [|a l IH]; intros H; simpl; constructor.
  - apply H. left. reflexivity.
  - apply IH. intros a' Ha'. apply H. right. exact Ha'.
Qed.

Lemma in_range (n x : Z) : In x (Py.range n) -> 0 <= x < n.
Proof.
  rewrite range_seq, in_map_iff. intros (k & <- & Hk).
  apply in_seq in Hk. lia.
Qed.

(** A frame that writes [index x y] at every pixel of a grid. *)
Lemma grid_frame_accepted (n w h : Z) (index : Z -> Z -> Z) :
  (forall x y, 0 <= index x y < n) ->
  Forall (Bitmap.accepts n)
    (flat_map (fun y => map (fun x => (x, y, index x y)) (Py.range w)) (Py.range h)).
Proof.
  intros H. apply Forall_flat_map_intro. intros y _.
  apply Forall_map_intro. intros x _. apply H.
Qed.

Lemma block2x2_accepted (n w h x y c : Z) :
  0 <= c < n -> Forall (Bitmap.accepts n) (Bitmap.block2x2 w h x y c).
Proof.
  intros Hc. unfold Bitmap.block2x2.
  assert (Hw : forall x' y', Bitmap.accepts n (x', y', c)) by (intros; exact Hc).
  destruct (x + 1 <? w), (y + 1 <? h); simpl; repeat constructor; apply Hw.
Qed.

Lemma mod_index (v n : Z) : 0 < n -> 0 <= v mod n < n.
Proof. intros Hn. apply Z.mod_pos_bound. exact Hn. Qed.

Lemma plasma_index_range (s : PlasmaEffect.t) (x y : Z) :
  0 <= PlasmaEffect.color_idx s x y < 64.
Proof. apply mod_index. lia. Qed.

Lemma spiral_index_range (s : SpiralEffect.t) (x y : Z) :
  0 <= SpiralEffect.color_idx s x y < 32.
Proof. apply mod_index. lia. Qed.

Lemma plasma_field_index_range (s : PlasmaField.t) (x y : Z) :
  0 <= PlasmaField.color_index s x y < 256.
Proof.
  unfold PlasmaField.color_index.
  match goal with |- _ <= Py.clamp 0 255 ?v < _ =>
    pose proof (clamp_range 0 255 v) end.
  lia.
Qed.

Lemma kaleidoscope_index_range (s : Kaleidoscope.t) (x y : Z) :
  0 <= Kaleidoscope.color_index s x y < 256.
Proof.
  unfold Kaleidoscope.color_index.
  match goal with |- _ <= Py.clamp 0 255 ?v < _ =>
    pose proof (clamp_range 0 255 v) end.
  lia.
Qed.

Lemma sine_wave_index_range (s : SineWaveEffect.t) (x y : Z) :
  0 <= SineWaveEffect.color_index s x y < 64.
Proof.
  unfold SineWaveEffect.color_index.
  match goal with |- _ <= Py.clamp 0 63 ?v < _ =>
    pose proof (clamp_range 0 63 v) end.
  lia.
Qed.

Lemma julia_index_range (s : JuliaFractalEffect.t) (x y : Z) :
  0 <= JuliaFractalEffect.color_index s x y < 64.
Proof.
  unfold JuliaFractalEffect.color_index.
  destruct (_ =? 0); [lia|].
  match goal with |- _ <= Py.int_R (Py.fmod_R ?a 63) + 1 < _ =>
    destruct (fmod_R_range a 63) as [H1 H2]; [lra|];
    pose proof (int_R_below _ 63 H1 H2) end.
  lia.
Qed.

Lemma mandelbrot_index_range (s : Mandelbrot.t) (x y : Z) :
  0 <= Mandelbrot.color_index s x y < 256.
Proof.
  unfold Mandelbrot.color_index.
  destruct (Mandelbrot._screen_to_complex s x y) as [cx cy].
  destruct (_ =? 0); [lia|].
  pose proof (mandelbrot_index_of_escape s (Mandelbrot._mandelbrot_iteration s cx cy)).
  lia.
Qed.

Lemma fractal_frame_accepted (n w h : Z) (index : Z -> Z -> Z) :
  (forall x y, 0 <= index x y < n) ->
  Forall (Bitmap.accepts n)
    (flat_map (fun y =>
       flat_map (fun x => Bitmap.block2x2 w h x y (index x y)) (Py.range3 0 w 2))
       (Py.range3 0 h 2)).
Proof.
  intros H. apply Forall_flat_map_intro. intros y _.
  apply Forall_flat_map_intro. intros x _. apply block2x2_accepted, H.
Qed.

(** Accumulating loops: the writes collected so far stay valid. *)
Lemma fold_writes_accepted {S A} (n : Z) (ws_of : S -> list write)
    (f : S -> A -> S) (l : list A) :
  (forall st a, Forall (Bitmap.accepts n) (ws_of st) ->
                Forall (Bitmap.accepts n) (ws_of (f st a))) ->
  forall st, Forall (Bitmap.accepts n) (ws_of st) ->
             Forall (Bitmap.accepts n) (ws_of (fold_left f l st)).
Proof.
  intros Hf. induction l as [|a l IH]; intros st Hst; cbn [fold_left];
    [exact Hst|].
  apply IH, Hf, Hst.
Qed.

Lemma trail_brightness_range (trail : Z) :
  0 <= trail -> 0 <= MatrixEffect.trail_brightness trail < 16.
Proof. intros H. unfold MatrixEffect.trail_brightness. destruct (trail =? 0); lia. Qed.

Lemma trail_writes_accepted (rows col drop_y : Z) :
  Forall (Bitmap.accepts 16) (MatrixEffect.trail_writes rows col drop_y).
Proof.
  unfold MatrixEffect.trail_writes. apply Forall_flat_map_intro.
  intros trail Ht. apply in_range in Ht.
  destruct (_ && _); constructor; [|constructor].
  apply trail_brightness_range. lia.
Qed.

Lemma matrix_col_step_accepted (st : MatrixEffect.t * Random.rng * list write) (col : Z) :
  Forall (Bitmap.accepts 16) (snd st) ->
  Forall (Bitmap.accepts 16) (snd (MatrixEffect.col_step st col)).
Proof.
  destruct st as [[s g] ws]. cbn [snd]. intros Hws. unfold MatrixEffect.col_step.
  pose proof (trail_writes_accepted (MatrixEffect.rows s) col
                (Py.int_Q (MatrixEffect.position s col))) as Ht.
  assert (Happ : Forall (Bitmap.accepts 16)
            (ws ++ MatrixEffect.trail_writes (MatrixEffect.rows s) col
                     (Py.int_Q (MatrixEffect.position s col)))).
  { apply Forall_app. split; assumption. }
  destruct (MatrixEffect.active s col).
  - destruct (Py.gt_Q _ _).
    + destruct (Random.randint (-15) (-5) g) as [p2 g1].
      destruct (Random.choice 1 [1; 2; 3] g1) as [v g2].
      destruct (Random.choice true [true; true; true; false] g2) as [a g3].
      exact Happ.
    + exact Happ.
  - destruct (Random.randint 0 100 g) as [r g1].
    destruct (r <? 5).
    + destruct (Random.randint (-15) (-5) g1) as [p2 g2]. exact Hws.
    + exact Hws.
Qed.

Lemma matrix_update_accepted (s : MatrixEffect.t) (g : Random.rng) :
  Forall (Bitmap.accepts 16) (snd (MatrixEffect.update s g)).
Proof.
  unfold MatrixEffect.update.
  apply (fold_writes_accepted 16 snd); [apply matrix_col_step_accepted|].
  cbn [snd]. unfold MatrixEffect.clear. apply grid_frame_accepted.
  intros x y. lia.
Qed.

Lemma star_step_accepted (s : StarfieldEffect.t) (warp : R)
    (acc : list StarfieldEffect.star * Random.rng * list write)
    (st : StarfieldEffect.star) :
  Forall (Bitmap.accepts 16) (snd acc) ->
  Forall (Bitmap.accepts 16) (snd (StarfieldEffect.star_step s warp acc st)).
Proof.
  destruct acc as [[done g] ws]. cbn [snd]. intros Hws.
  unfold StarfieldEffect.star_step.
  destruct (_ || _).
  - destruct (StarfieldEffect._reset_star s g) as [st1 g1]. exact Hws.
  - cbn [snd]. apply Forall_app. split; [exact Hws|].
    match goal with |- context [Py.clamp 1 15 ?v] =>
      pose proof (clamp_range 1 15 v) as Hc end.
    destruct (Rgt_dec _ _).
    + apply block2x2_accepted. lia.
    + constructor; [|constructor]. unfold Bitmap.accepts, Bitmap.value.
      cbn [snd]. lia.
Qed.

Lemma starfield_update_accepted (s : StarfieldEffect.t) (g : Random.rng) :
  Forall (Bitmap.accepts 16) (snd (StarfieldEffect.update s g)).
Proof.
  unfold StarfieldEffect.update.
  pose proof (fold_writes_accepted 16 snd
                (StarfieldEffect.star_step s
                   (1.0 + 0.5 * sin ((StarfieldEffect.time s + 0.1) * 0.3)))
                (StarfieldEffect.stars s)
                (star_step_accepted s _)
                ([], g, StarfieldEffect.clear s)) as H.
  destruct (fold_left _ _ _) as [[l g1] ws]. cbn [snd] in *. apply H.
  unfold StarfieldEffect.clear. apply grid_frame_accepted. intros x y. lia.
Qed.

Section Streamers.
Import StreamersEffect.

Lemma new_streamer_colour (w h : Z) (g : Random.rng) :
  1 <= color (fst (new_streamer w h g)) <= 31.
Proof.
  unfold new_streamer.
  destruct (Random.randint (-20) (w / 2 + 20) g) as [xs g1].
  destruct (Random.randint 10 (h / 2 - 10) g1) as [yb g2].
  destruct (Random.uniform 5 25 g2) as [am g3].
  destruct (Random.uniform 0.05 0.15 g3) as [fr g4].
  destruct (Random.uniform 0.5 2.0 g4) as [sp g5].
  destruct (Random.uniform 0 6.28 g5) as [ph g6].
  pose proof (randint_range 1 31 g6) as Hc.
  destruct (Random.randint 1 31 g6) as [co g7].
  destruct (Random.randint 1 3 g7) as [th g8].
  destruct (Random.choice 1 [-1; 1] g8) as [di g9].
  destruct (Random.uniform 0.02 0.08 g9) as [ws g10].
  cbn [fst color] in *. lia.
Qed.

Lemma move_colour (w h : Z) (st : streamer) (g : Random.rng) :
  1 <= color st <= 31 -> 1 <= color (fst (move w h st g)) <= 31.
Proof.
  intros Hst. unfold move.
  destruct (_ || _); [|exact Hst].
  destruct (if 0 <? direction st then _ else _) as [xs1 g1].
  destruct (Random.randint 10 (h / 2 - 10) g1) as [yb g2].
  destruct (Random.uniform 5 25 g2) as [am g3].
  destruct (Random.uniform 0.05 0.15 g3) as [fr g4].
  destruct (Random.uniform 0.5 2.0 g4) as [sp g5].
  pose proof (randint_range 1 31 g5) as Hc.
  destruct (Random.randint 1 31 g5) as [co g6].
  destruct (Random.randint 1 3 g6) as [th g7].
  destruct (Random.uniform 0.02 0.08 g7) as [ws g8].
  cbn [fst color] in *. lia.
Qed.

Lemma init_streamers_colours (s : t) (g : Random.rng) :
  colours_ok (streamers (fst (_init_streamers s g))).
Proof.
  unfold _init_streamers.
  assert (H : forall (l : list Z) (acc : list streamer * Random.rng),
             colours_ok (fst acc) ->
             colours_ok (fst (fold_left
               (fun acc _ =>
                  let '(st, g') := new_streamer (width s) (height s) (snd acc) in
                  (fst acc ++ [st], g')) l acc))).
  { induction l as [|a l IH]; intros acc Hacc; cbn [fold_left]; [exact Hacc|].
    apply IH.
    pose proof (new_streamer_colour (width s) (height s) (snd acc)) as Hc.
    destruct (new_streamer (width s) (height s) (snd acc)) as [st g'].
    cbn [fst] in *. apply Forall_app. split; [exact Hacc|].
    constructor; [exact Hc|constructor]. }
  assert (H0 : colours_ok (fst (@nil streamer, g))) by constructor.
  specialize (H (Py.range (num_streamers s)) ([], g) H0).
  destruct (fold_left _ _ _) as [l g1]. exact H.
Qed.

(** Every pixel of a streamer is written in the streamer's colour. *)
Lemma draw_column_colour (w h : Z) (st : streamer)
    (acc : option (Z * Z) * list write) (x : Z) :
  Forall (fun wr => Bitmap.value wr = color st) (snd acc) ->
  Forall (fun wr => Bitmap.value wr = color st) (snd (draw_column w h st acc x)).
Proof.
  destruct acc as [prev ws]. cbn [snd]. intros Hws. unfold draw_column.
  destruct ((0 <=? x) && (x <? w / 2)); [|exact Hws].
  cbn [snd]. apply Forall_app. split; [exact Hws|].
  apply Forall_flat_map_intro. intros k _.
  destruct ((0 <=? _) && (_ <? h / 2)); [|constructor].
  constructor; [reflexivity|].
  destruct prev as [[prev_x prev_y]|]; [|constructor].
  destruct (_ && _); [|constructor].
  destruct (_ && _); [|constructor].
  constructor; [reflexivity|constructor].
Qed.

Lemma draw_wavy_streamer_colour (w h : Z) (st : streamer) :
  Forall (fun wr => Bitmap.value wr = color st) (_draw_wavy_streamer w h st).
Proof.
  unfold _draw_wavy_streamer.
  generalize (Py.range3
    (Z.max (-10) (Z.min (w / 2 + 10) (Py.int_R (x_start st) - 30)))
    (Z.max (-10) (Z.min (w / 2 + 10) (Py.int_R (x_start st) + 60))) 2).
  intros l.
  assert (H : forall acc,
             Forall (fun wr => Bitmap.value wr = color st) (snd acc) ->
             Forall (fun wr => Bitmap.value wr = color st)
                    (snd (fold_left (draw_column w h st) l acc))).
  { induction l as [|x l IH]; intros acc Hacc; cbn [fold_left]; [exact Hacc|].
    apply IH, draw_column_colour, Hacc. }
  apply H. constructor.
Qed.

Lemma streamer_step_ok (w h : Z)
    (acc : list streamer * Random.rng * list write) (st : streamer) :
  1 <= color st <= 31 ->
  colours_ok (fst (fst acc)) /\ Forall (Bitmap.accepts 32) (snd acc) ->
  colours_ok (fst (fst (streamer_step w h acc st))) /\
  Forall (Bitmap.accepts 32) (snd (streamer_step w h acc st)).
Proof.
  destruct acc as [[done g] ws]. cbn [fst snd]. intros Hst [Hd Hws].
  unfold streamer_step.
  pose proof (move_colour w h st g Hst) as Hc.
  destruct (move w h st g) as [st1 g1]. cbn [fst snd] in *. split.
  - apply Forall_app. split; [exact Hd|]. constructor; [exact Hc|constructor].
  - apply Forall_app. split; [exact Hws|].
    eapply Forall_impl; [apply draw_wavy_streamer_colour|].
    intros wr Hwr. unfold Bitmap.accepts. rewrite Hwr. lia.
Qed.

Lemma streamers_update_ok (s : t) (g : Random.rng) :
  colours_ok (streamers s) ->
  colours_ok (streamers (fst (fst (update s g)))) /\
  Forall (Bitmap.accepts 32) (snd (update s g)).
Proof.
  intros Hs. unfold update.
  assert (H : forall (l : list streamer) acc,
             colours_ok l ->
             colours_ok (fst (fst acc)) /\ Forall (Bitmap.accepts 32) (snd acc) ->
             let r := fold_left (streamer_step (width s) (height s)) l acc in
             colours_ok (fst (fst r)) /\ Forall (Bitmap.accepts 32) (snd r)).
  { induction l as [|st l IH]; intros acc Hl Hacc; cbn [fold_left];
      [exact Hacc|].
    inversion Hl as [|st' l' Hst Hl']; subst.
    apply IH; [exact Hl'|]. apply streamer_step_ok; assumption. }
  specialize (H (streamers s) ([], g, clear s) Hs).
  cbv zeta in H.
  destruct (fold_left _ _ _) as [[l g1] ws]. cbn [fst snd streamers] in *.
  apply H. split; [constructor|].
  unfold clear. apply grid_frame_accepted. intros x y. lia.
Qed.

Lemma streamers_run_colours (ops : list op) :
  forall (s : t) (g : Random.rng),
    colours_ok (streamers s) -> colours_ok (streamers (fst (run ops s g))).
Proof.
  induction ops as [|[|] ops IH]; intros s g Hs; cbn [run].
  - exact Hs.
  - pose proof (streamers_update_ok s g Hs) as [H _].
    destruct (update s g) as [[s1 g1] ws]. apply IH. exact H.
  - pose proof (init_streamers_colours
      {| width := width s; height := height s; palette := palette s;
         num_streamers := num_streamers s; streamers := streamers s;
         time := 0 |} g) as H.
    unfold reset. destruct (_init_streamers _ g) as [s1 g1]. apply IH. exact H.
Qed.

Lemma streamers_init_colours (g : Random.rng) :
  colours_ok (streamers (fst (__init__ g))).
Proof.
  unfold __init__.
  destruct (_init_streamers _ g) as [s1 g1].
  unfold reset. apply init_streamers_colours.
Qed.

End Streamers.

Lemma fire_frame_accepted (w h : Z) (buf : list (list Z)) :
  Forall (FireEffect.heat_in 0) buf ->
  Forall (Bitmap.accepts 32) (FireEffect.frame w h buf).
Proof.
  intros Hb. unfold FireEffect.frame. apply grid_frame_accepted.
  intros x y. unfold FireEffect.get.
  destruct (buf !! Z.to_nat y) as [row|] eqn:Hrow; simpl; [|lia].
  destruct (row !! Z.to_nat x) as [v|] eqn:Hv; simpl; [|lia].
  pose proof (Forall_lookup_1 _ _ _ _ Hb Hrow) as Hr.
  pose proof (Forall_lookup_1 _ _ _ _ Hr Hv). simpl in *. lia.
Qed.

Lemma fire_update_accepted (s : FireEffect.t) (g : Random.rng) :
  FireEffect.fire_good s ->
  Forall (Bitmap.accepts 32) (snd (FireEffect.update s g)).
Proof.
  intros Hs. pose proof (update_good s g Hs) as (_ & _ & [_ Hh] & _).
  unfold FireEffect.update in *.
  destruct (FireEffect._update_fire_simulation _ _ _ g) as [buf g1].
  cbn [fst snd FireEffect.fire_buffer] in *.
  apply fire_frame_accepted. exact Hh.
Qed.

(** C1.  Every palette index a generator writes into its bitmap lies in
    [0 .. N-1], [N] being the size of the effect's palette and the value
    count of its bitmap: whatever the state of the effect (so for every
    accumulated time), at every pixel, and whatever the random source
    draws.  The fire and the streamers read the index from their state,
    which is any state their construction, updates and resets lead to. *)
Theorem every_written_index_is_in_the_palette :
  (forall s, Forall (Bitmap.accepts 64) (snd (PlasmaEffect.update s))) /\
  (forall s, Forall (Bitmap.accepts 64) (snd (JuliaFractalEffect.update s))) /\
  (forall s, Forall (Bitmap.accepts 64) (snd (SineWaveEffect.update s))) /\
  (forall s, Forall (Bitmap.accepts 32) (snd (SpiralEffect.update s))) /\
  (forall ops g g',
     Forall (Bitmap.accepts 32)
       (snd (FireEffect.update
               (fst (FireEffect.run ops FireEffect.__init__ g)) g'))) /\
  (forall ops g0 g g',
     Forall (Bitmap.accepts 32)
       (snd (StreamersEffect.update
               (fst (StreamersEffect.run ops
                       (fst (StreamersEffect.__init__ g0)) g)) g'))) /\
  (forall s g, Forall (Bitmap.accepts 16) (snd (MatrixEffect.update s g))) /\
  (forall s g, Forall (Bitmap.accepts 16) (snd (StarfieldEffect.update s g))) /\
  (forall s, Forall (Bitmap.accepts 256) (snd (PlasmaField.update s))) /\
  (forall s, Forall (Bitmap.accepts 256) (snd (Kaleidoscope.update s))) /\
  (forall s, Forall (Bitmap.accepts 256) (snd (Mandelbrot.update s))).
Proof.
  repeat split.
  - intros s. apply grid_frame_accepted. apply plasma_index_range.
  - intros s. apply fractal_frame_accepted. apply julia_index_range.
  - intros s. apply grid_frame_accepted. apply sine_wave_index_range.
  - intros s. apply grid_frame_accepted. apply spiral_index_range.
  - intros ops g g'. apply fire_update_accepted, run_good, init_good.
  - intros ops g0 g g'. apply streamers_update_ok, streamers_run_colours,
      streamers_init_colours.
  - intros s g. apply matrix_update_accepted.
  - intros s g. apply starfield_update_accepted.
  - intros s. apply grid_frame_accepted. apply plasma_field_index_range.
  - intros s. apply grid_frame_accepted. apply kaleidoscope_index_range.
  - intros s. apply fractal_frame_accepted. apply mandelbrot_index_range.
Qed.

(* ------------------------------------------------------------------ *)
(** ** Palettes *)

Lemma lookup_map {A B} (f : A -> B) (l : list A) (k : nat) :
  map f l !! k = f <$> (l !! k).
Proof.
  revert k. induction l as [|a l IH]; intros [|k]; simpl; auto.
Qed.

(** [palette[i]] after the loop [for i in range(n): palette[i] = f(i)]. *)
Lemma palette_lookup (f : Z -> rgb) (n i : Z) :
  0 <= i < n -> map f (Py.range n) !! Z.to_nat i = Some (f i).
Proof.
  intros Hi. rewrite range_seq, lookup_map, lookup_map.
  rewrite lookup_seq_lt by lia. simpl. rewrite Z2Nat.id by lia. reflexivity.
Qed.

Lemma palette_length (f : Z -> rgb) (n : Z) :
  length (map f (Py.range n)) = Z.to_nat n.
Proof. rewrite range_seq, !length_map, length_seq. reflexivity. Qed.

(** The sizes of the colour tables, in the order of [Palette.all]: the
    value counts of the bitmaps they colour. *)
Lemma palette_sizes :
  map (fun ep => length (snd ep)) Palette.all =
  [64; 32; 16; 8; 64; 32; 16; 64; 32; 256; 256; 256]%nat.
Proof.
  unfold Palette.all. cbn [map snd].
  unfold PlasmaEffect._init_palette, SpiralEffect._init_palette,
    MatrixEffect._init_palette, JuliaFractalEffect._init_palette,
    FireEffect._init_fire_palette, StarfieldEffect._init_star_palette,
    SineWaveEffect._init_wave_palette, StreamersEffect._init_streamer_palette,
    PlasmaField._init_plasma_palette, Kaleidoscope._init_kaleidoscope_palette,
    Mandelbrot._init_mandelbrot_palette.
  rewrite !palette_length. reflexivity.
Qed.

Lemma channel_okb_ok (c : rgb) :
  Palette.channel_okb c = true -> Palette.channel_ok c.
Proof.
  destruct c as [[r g] b]. unfold Palette.channel_okb, Palette.channel_ok.
  rewrite !andb_true_iff. lia.
Qed.

Lemma forallb_channel_ok (p : list rgb) :
  forallb Palette.channel_okb p = true -> Forall Palette.channel_ok p.
Proof.
  induction p as [|c p IH]; simpl; [constructor|].
  rewrite andb_true_iff. intros [Hc Hp].
  constructor; [apply channel_okb_ok, Hc | apply IH, Hp].
Qed.

Lemma clamped_channel_ok (r g b : Z) :
  Palette.channel_ok (Py.clamp 0 255 r, Py.clamp 0 255 g, Py.clamp 0 255 b).
Proof.
  unfold Palette.channel_ok.
  pose proof (clamp_range 0 255 r). pose proof (clamp_range 0 255 g).
  pose proof (clamp_range 0 255 b). lia.
Qed.

(** [int(127 + 127 sin a)] is a channel value already. *)
Lemma sine_channel_range (a : R) :
  0 <= Py.int_R (127 + 127 * sin a) <= 254.
Proof.
  destruct (SIN_bound a) as [H1 H2]. apply int_R_range; simpl; lra.
Qed.

Lemma plasma_palette_ok : Forall Palette.channel_ok PlasmaEffect._init_palette.
Proof.
  apply Forall_map_intro. intros i _. unfold PlasmaEffect.palette_entry.
  lazy zeta. unfold Palette.channel_ok.
  repeat split; match goal with |- context [sin ?a] =>
    pose proof (sine_channel_range a) end; lia.
Qed.

Lemma spiral_palette_ok : Forall Palette.channel_ok SpiralEffect._init_palette.
Proof.
  apply Forall_map_intro. intros i _. apply clamped_channel_ok.
Qed.

Lemma plasma_field_palette_ok :
  Forall Palette.channel_ok PlasmaField._init_plasma_palette.
Proof.
  apply Forall_map_intro. intros i _. apply clamped_channel_ok.
Qed.

Lemma julia_palette_ok : Forall Palette.channel_ok JuliaFractalEffect._init_palette.
Proof.
  apply Forall_map_intro. intros i _. unfold JuliaFractalEffect.palette_entry.
  destruct (i =? 0); [|apply clamped_channel_ok].
  unfold Palette.channel_ok. lia.
Qed.

Lemma mandelbrot_palette_ok :
  Forall Palette.channel_ok Mandelbrot._init_mandelbrot_palette.
Proof.
  apply Forall_map_intro. intros i _. unfold Mandelbrot.palette_entry.
  destruct (i =? 0); [|apply clamped_channel_ok].
  unfold Palette.channel_ok. lia.
Qed.

Lemma kaleidoscope_palette_ok :
  Forall Palette.channel_ok Kaleidoscope._init_kaleidoscope_palette.
Proof.
  apply Forall_map_intro. intros i _. unfold Kaleidoscope.palette_entry.
  lazy zeta. destruct (0 <? _); apply clamped_channel_ok.
Qed.

Lemma streamer_palette_ok :
  Forall Palette.channel_ok StreamersEffect._init_streamer_palette.
Proof.
  apply Forall_map_intro. intros i _. unfold StreamersEffect.palette_entry.
  destruct (i =? 0); [unfold Palette.channel_ok; lia|].
  lazy zeta. destruct (0 <? _); apply clamped_channel_ok.
Qed.

Lemma fire_palette_ok : Forall Palette.channel_ok FireEffect._init_fire_palette.
Proof. apply forallb_channel_ok. vm_compute. reflexivity. Qed.

Lemma matrix_palette_ok : Forall Palette.channel_ok MatrixEffect._init_palette.
Proof. apply forallb_channel_ok. vm_compute. reflexivity. Qed.

Lemma star_palette_ok : Forall Palette.channel_ok StarfieldEffect._init_star_palette.
Proof. apply forallb_channel_ok. vm_compute. reflexivity. Qed.

Lemma wave_palette_ok : Forall Palette.channel_ok SineWaveEffect._init_wave_palette.
Proof. apply forallb_channel_ok. vm_compute. reflexivity. Qed.

Lemma colors_table_ok : Forall Palette.channel_ok ColorMatrixEffect.colors_table.
Proof. apply forallb_channel_ok. vm_compute. reflexivity. Qed.

(** C8.  Every entry of every colour table the effects build has its three
    channels in [0 .. 255], and the fractal palettes (Julia, Mandelbrot),
    the heat palette of the fire and the star palette begin with pure
    black, the background colour. *)
Theorem palette_channels_in_range_and_background_black :
  Forall (fun ep => Forall Palette.channel_ok (snd ep)) Palette.all /\
  JuliaFractalEffect._init_palette !! 0%nat = Some Palette.black /\
  Mandelbrot._init_mandelbrot_palette !! 0%nat = Some Palette.black /\
  FireEffect._init_fire_palette !! 0%nat = Some Palette.black /\
  StarfieldEffect._init_star_palette !! 0%nat = Some Palette.black.
Proof.
  split.
  - unfold Palette.all.
    constructor; [exact plasma_palette_ok|].
    constructor; [exact spiral_palette_ok|].
    constructor; [exact matrix_palette_ok|].
    constructor; [exact colors_table_ok|].
    constructor; [exact julia_palette_ok|].
    constructor; [exact fire_palette_ok|].
    constructor; [exact star_palette_ok|].
    constructor; [exact wave_palette_ok|].
    constructor; [exact streamer_palette_ok|].
    constructor; [exact plasma_field_palette_ok|].
    constructor; [exact kaleidoscope_palette_ok|].
    constructor; [exact mandelbrot_palette_ok|].
    constructor.
  - split; [|split; [|split]].
    + apply (palette_lookup JuliaFractalEffect.palette_entry 64 0). lia.
    + apply (palette_lookup Mandelbrot.palette_entry 256 0). lia.
    + vm_compute. reflexivity.
    + vm_compute. reflexivity.
Qed.

(** *** The rainbow palettes against the scheme of the specification *)

Lemma PI_bounds : (3.141 < PI < 3.142)%R.
Proof.
  pose proof (PI_2_3_7_ineq 2) as [Hlo Hhi].
  unfold sum_f_R0, tg_alt, PI_2_3_7_tg, Ratan_seq in Hlo, Hhi.
  simpl in Hlo, Hhi.
  split; lra.
Qed.

Lemma sin_abs_bound (x : R) : (0 <= x -> - x <= sin x <= x)%R.
Proof.
  intros [Hx|Hx].
  - split; [|left; apply sin_lt_x; exact Hx].
    destruct (Rle_dec x 1) as [H1|H1].
    + pose proof PI_bounds as Hpi.
      assert (0 <= sin x)%R by (apply sin_ge_0; lra). lra.
    + destruct (SIN_bound x). lra.
  - rewrite <- Hx, sin_0. lra.
Qed.

(** The sine moves no further than its argument. *)
Lemma sin_close (a b d : R) :
  (- d <= a - b <= d -> - d <= sin a - sin b <= d)%R.
Proof.
  intros Hd. rewrite form4.
  set (c := cos ((a + b) / 2)). set (u := ((a - b) / 2)%R).
  destruct (COS_bound ((a + b) / 2)) as [Hc1 Hc2]. fold c in Hc1, Hc2.
  assert (Hu : (- (d / 2) <= u <= d / 2)%R) by (unfold u; lra).
  assert (Hs : (- (d / 2) <= sin u <= d / 2)%R).
  { destruct (Rle_dec 0 u) as [H0|H0].
    - pose proof (sin_abs_bound u H0). lra.
    - assert (H1 : (0 <= - u)%R) by lra.
      pose proof (sin_abs_bound (- u) H1) as H. rewrite sin_neg in H. lra. }
  set (s := sin u) in *. clearbody s c. nra.
Qed.

(** A truncated channel against a rounded one: when the two angles differ
    by at most [e], the channels differ by less than [127 e + 1.5]. *)
Lemma channel_close (x y e : R) (k : Z) :
  (- e <= x - y <= e)%R -> (127 * e + 1.5 < IZR k + 1)%R ->
  Z.abs (Py.int_R (127 + 127 * sin x)
         - Py.clamp 0 255 (Palette.spec_round (127 + 127 * sin y))) <= k.
Proof.
  intros He Hk. pose proof (sin_close x y e He) as Hs.
  destruct (SIN_bound x) as [Hx1 Hx2]. destruct (SIN_bound y) as [Hy1 Hy2].
  unfold Py.int_R, Palette.spec_round.
  destruct (Rle_dec 0 (127 + 127 * sin x)) as [_|H]; [|exfalso; apply H; lra].
  destruct (base_Int_part (127 + 127 * sin x)) as [A1 A2].
  destruct (base_Int_part (127 + 127 * sin y + 0.5)) as [B1 B2].
  set (p := Int_part (127 + 127 * sin x)) in *.
  set (q := Int_part (127 + 127 * sin y + 0.5)) in *.
  assert (Hq : 0 <= q <= 254).
  { split.
    - apply Z.lt_succ_r, lt_IZR. rewrite succ_IZR. lra.
    - assert (q < 255) by (apply lt_IZR; lra). lia. }
  unfold Py.clamp. rewrite Z.min_r, Z.max_r by lia.
  assert (H1 : p - q < k + 1).
  { apply lt_IZR. rewrite minus_IZR, plus_IZR. lra. }
  assert (H2 : q - p < k + 1).
  { apply lt_IZR. rewrite minus_IZR, plus_IZR. lra. }
  lia.
Qed.

(** The clamp of [PlasmaField] to [0 .. 255] never acts. *)
Lemma sine_channel_clamp (a : R) :
  Py.clamp 0 255 (Py.int_R (127 + 127 * sin a)) = Py.int_R (127 + 127 * sin a).
Proof. pose proof (sine_channel_range a). unfold Py.clamp. lia. Qed.

Lemma plasma_entry_range (i : Z) :
  Palette.channels_in 0 254 (PlasmaEffect.palette_entry i).
Proof.
  unfold PlasmaEffect.palette_entry, Palette.channels_in. lazy zeta.
  split; [|split]; apply sine_channel_range.
Qed.

Lemma plasma_field_entry_range (i : Z) :
  Palette.channels_in 0 254 (PlasmaField.palette_entry i).
Proof.
  unfold PlasmaField.palette_entry, Palette.channels_in. lazy zeta.
  rewrite !sine_channel_clamp.
  split; [|split]; apply sine_channel_range.
Qed.

(** The angle of the code runs over [i / 63], that of the scheme over
    [i / 64]: they part by at most [2 pi / 64], and the decimal phases add
    at most 0.00134. *)
Lemma plasma_entry_near (i : Z) :
  0 <= i < 64 ->
  Palette.within 14 (PlasmaEffect.palette_entry i)
                    (Palette.spec_rainbow_entry 64 i).
Proof.
  intros Hi.
  unfold PlasmaEffect.palette_entry, Palette.spec_rainbow_entry, Palette.within.
  lazy zeta. replace 63.0%R with 63%R by lra.
  pose proof PI_bounds as Hpi.
  assert (H0 : (0 <= IZR i)%R) by (apply IZR_le; lia).
  assert (H1 : (IZR i <= 63)%R) by (apply IZR_le; lia).
  assert (Hp : (0 <= IZR i * PI <= 63 * 3.142)%R) by nra.
  split; [|split]; apply (channel_close _ _ 0.0996); lra.
Qed.

Lemma plasma_field_entry_near (i : Z) :
  0 <= i < 256 ->
  Palette.within 4 (PlasmaField.palette_entry i)
                   (Palette.spec_rainbow_entry 256 i).
Proof.
  intros Hi.
  unfold PlasmaField.palette_entry, Palette.spec_rainbow_entry, Palette.within.
  lazy zeta. replace 255.0%R with 255%R by lra.
  pose proof PI_bounds as Hpi.
  assert (H0 : (0 <= IZR i)%R) by (apply IZR_le; lia).
  assert (H1 : (IZR i <= 255)%R) by (apply IZR_le; lia).
  assert (Hp : (0 <= IZR i * PI <= 255 * 3.142)%R) by nra.
  rewrite !sine_channel_clamp.
  split; [|split]; apply (channel_close _ _ 0.0259); lra.
Qed.

(** The saturation boost of the streamer palette: a channel [c] under the
    largest channel [m] becomes [int(c * (255 / m) * 0.9)], at most
    [int(229.5)]. *)
Lemma boosted_channel_range (c m : Z) :
  0 <= c <= m -> 0 < m ->
  0 <= Py.clamp 0 255 (Py.int_R (IZR c * (255 / IZR m) * 0.9)) <= 229.
Proof.
  intros Hc Hm.
  assert (Hm' : (0 < IZR m)%R) by (apply IZR_lt; lia).
  assert (Hc0 : (0 <= IZR c)%R) by (apply IZR_le; lia).
  assert (Hc1 : (IZR c <= IZR m)%R) by (apply IZR_le; lia).
  set (q := (IZR c / IZR m)%R).
  assert (Hq : (0 <= q <= 1)%R).
  { unfold q. split.
    - apply Rmult_le_pos; [lra|]. left. apply Rinv_0_lt_compat. lra.
    - apply (Rmult_le_reg_r (IZR m)); [lra|].
      unfold Rdiv. rewrite Rmult_assoc, Rinv_l by lra. lra. }
  replace (IZR c * (255 / IZR m) * 0.9)%R with (q * 229.5)%R
    by (unfold q; replace 0.9%R with (9 / 10)%R by lra;
        replace 229.5%R with (459 / 2)%R by lra; field; lra).
  assert (H : 0 <= Py.int_R (q * 229.5) < 230) by (apply int_R_below; lra).
  unfold Py.clamp. lia.
Qed.

Lemma streamer_entry_range (i : Z) :
  Palette.channels_in 0 229 (StreamersEffect.palette_entry i).
Proof.
  unfold StreamersEffect.palette_entry.
  destruct (i =? 0); [unfold Palette.channels_in; lia|].
  lazy zeta.
  set (a := (IZR (i - 1) / 30.0 * 2 * 3.14159)%R).
  pose proof (sine_channel_range a) as Hr.
  pose proof (sine_channel_range (a + 2.094)) as Hg.
  pose proof (sine_channel_range (a + 4.188)) as Hb.
  set (r := Py.int_R (127 + 127 * sin a)) in *.
  set (g := Py.int_R (127 + 127 * sin (a + 2.094))) in *.
  set (b := Py.int_R (127 + 127 * sin (a + 4.188))) in *.
  destruct (0 <? Z.max (Z.max r g) b) eqn:E.
  - apply Z.ltb_lt in E. unfold Palette.channels_in.
    split; [|split]; apply boosted_channel_range; lia.
  - apply Z.ltb_ge in E. unfold Palette.channels_in, Py.clamp. lia.
Qed.

Lemma Forall2_map_same {A B C} (P : B -> C -> Prop) (f : A -> B) (g : A -> C)
    (l : list A) :
  (forall a, In a l -> P (f a) (g a)) -> Forall2 P (map f l) (map g l).
Proof.
  induction l as [|a l IH]; intros H; simpl; constructor.
  - apply H. left. reflexivity.
  - apply IH. intros b Hb. apply H. right. exact Hb.
Qed.

(** C9, as amended.  The rainbow palettes follow the scheme of the
    specification only approximately.  Every channel of the 64 colours of
    [PlasmaEffect] and of the 256 colours of [PlasmaField] lies in
    [0 .. 254], and, entry by entry, differs from the channel the scheme
    gives (angle [(i / N) * 2 pi], phases [2 pi / 3] and [4 pi / 3],
    rounded, clamped) by at most 14 for the 64 colours and by at most 4 for
    the 256 colours: the code divides by [N - 1], adds the decimal phases
    2.094 and 4.188 and truncates.  The 32 colours of [StreamersEffect]
    begin with black, and the saturation boost leaves every channel of
    every entry in [0 .. 229]. *)
Theorem rainbow_palettes_stay_near_the_scheme :
  Forall (Palette.channels_in 0 254) PlasmaEffect._init_palette /\
  Forall2 (Palette.within 14) PlasmaEffect._init_palette
          (map (Palette.spec_rainbow_entry 64) (Py.range 64)) /\
  Forall (Palette.channels_in 0 254) PlasmaField._init_plasma_palette /\
  Forall2 (Palette.within 4) PlasmaField._init_plasma_palette
          (map (Palette.spec_rainbow_entry 256) (Py.range 256)) /\
  StreamersEffect._init_streamer_palette !! 0%nat = Some Palette.black /\
  Forall (Palette.channels_in 0 229) StreamersEffect._init_streamer_palette.
Proof.
  split; [|split; [|split; [|split; [|split]]]].
  - apply Forall_map_intro. intros i _. apply plasma_entry_range.
  - apply Forall2_map_same. intros i Hi. apply plasma_entry_near.
    apply in_range in Hi. lia.
  - apply Forall_map_intro. intros i _. apply plasma_field_entry_range.
  - apply Forall2_map_same. intros i Hi. apply plasma_field_entry_near.
    apply in_range in Hi. lia.
  - apply (palette_lookup StreamersEffect.palette_entry 32 0). lia.
  - apply Forall_map_intro. intros i _. apply streamer_entry_range.
Qed.

(** The red channel the specification's scheme gives a quarter of the way
    round the palette: [round(127 + 127 sin(pi/2)) = 254]. *)
Lemma spec_rainbow_quarter (N i : Z) :
  0 < N -> 4 * i = N ->
  fst (fst (Palette.spec_rainbow_entry N i)) = 254.
Proof.
  intros HN Hi. unfold Palette.spec_rainbow_entry. cbn [fst].
  assert (HNr : (0 < IZR N)%R) by (apply IZR_lt; exact HN).
  replace (IZR i / IZR N * 2 * PI)%R with (PI / 2)%R.
  2:{ rewrite <- Hi, mult_IZR. field.
      intros H0. rewrite <- Hi, mult_IZR in HNr. lra. }
  rewrite sin_PI2. unfold Palette.spec_round.
  replace (Int_part (127 + 127 * 1 + 0.5)) with 254; [reflexivity|].
  apply Int_part_spec. lra.
Qed.

(** The red channel [PlasmaEffect] computes at index 16 is smaller: the
    angle [(16 / 63) * 2 pi] lies beyond [pi / 2]. *)
Lemma plasma_quarter_red :
  fst (fst (PlasmaEffect.palette_entry 16)) < 254.
Proof.
  unfold PlasmaEffect.palette_entry. cbn [fst].
  replace 63.0%R with 63%R by lra.
  set (a := (16 / 63 * 2 * PI)%R).
  pose proof PI_RGT_0 as Hpi.
  assert (Ha : (PI - a = 31 / 63 * PI)%R) by (unfold a; field).
  assert (Hs : (sin a < 1)%R).
  { rewrite <- (sin_PI_x a), Ha, <- sin_PI2.
    apply sin_increasing_1; lra. }
  destruct (SIN_bound a) as [Hlo _].
  assert (H : 0 <= Py.int_R (127 + 127 * sin a) < 254)
    by (apply int_R_below; lra).
  lia.
Qed.

(** C9 as stated fails at index 16 of the 64-colour rainbow: the scheme of
    the specification gives red 254 there, the palette holds less. *)
Lemma rainbow_palette_counterexample :
  0 <= 16 < 64 /\
  PlasmaEffect._init_palette !! Z.to_nat 16 <>
    Some (Palette.spec_rainbow_entry 64 16).
Proof.
  split; [lia|]. unfold PlasmaEffect._init_palette.
  rewrite palette_lookup by lia. intros H.
  assert (E : PlasmaEffect.palette_entry 16 = Palette.spec_rainbow_entry 64 16)
    by congruence.
  pose proof (spec_rainbow_quarter 64 16) as Hs.
  pose proof plasma_quarter_red as Hc.
  rewrite E in Hc. rewrite Hs in Hc; lia.
Qed.

(* ------------------------------------------------------------------ *)
(** ** What [reset] restores *)

Lemma plasma_frames_keep (n : nat) :
  let s := Nat.iter n (fun s => fst (PlasmaEffect.update s)) PlasmaEffect.__init__ in
  PlasmaEffect.width s = 320 /\ PlasmaEffect.height s = 240 /\
  PlasmaEffect.palette s = PlasmaEffect._init_palette.
Proof.
  induction n as [|n IH]; cbn [Nat.iter]; [repeat split|].
  cbv zeta in IH. unfold PlasmaEffect.update at 1. cbn [fst].
  cbn [PlasmaEffect.width PlasmaEffect.height PlasmaEffect.palette]. exact IH.
Qed.

Lemma spiral_frames_keep (n : nat) :
  let s := Nat.iter n (fun s => fst (SpiralEffect.update s)) SpiralEffect.__init__ in
  SpiralEffect.width s = 320 /\ SpiralEffect.height s = 240 /\
  SpiralEffect.palette s = SpiralEffect._init_palette /\
  SpiralEffect.center_x s = 80 /\ SpiralEffect.center_y s = 60.
Proof.
  induction n as [|n IH]; cbn [Nat.iter]; [repeat split|].
  cbv zeta in IH. unfold SpiralEffect.update at 1. cbn [fst].
  cbn [SpiralEffect.width SpiralEffect.height SpiralEffect.palette
       SpiralEffect.center_x SpiralEffect.center_y]. exact IH.
Qed.

Lemma plasma_field_frames_keep (w h : Z) (n : nat) :
  let s := Nat.iter n (fun s => fst (PlasmaField.update s)) (PlasmaField.__init__ w h) in
  PlasmaField.width s = w /\ PlasmaField.height s = h /\
  PlasmaField.palette s = PlasmaField._init_plasma_palette /\
  PlasmaField.plasma_speed s = 0.08%R /\ PlasmaField.plasma_scale s = 16.0%R /\
  PlasmaField.center_x s = w / 2 /\ PlasmaField.center_y s = h / 2.
Proof.
  induction n as [|n IH]; cbn [Nat.iter]; [repeat split|].
  cbv zeta in IH. unfold PlasmaField.update at 1. cbn [fst].
  cbn [PlasmaField.width PlasmaField.height PlasmaField.palette
       PlasmaField.plasma_speed PlasmaField.plasma_scale
       PlasmaField.center_x PlasmaField.center_y]. exact IH.
Qed.

Lemma kaleidoscope_frames_keep (w h : Z) (n : nat) :
  let s := Nat.iter n (fun s => fst (Kaleidoscope.update s)) (Kaleidoscope.__init__ w h) in
  Kaleidoscope.width s = w /\ Kaleidoscope.height s = h /\
  Kaleidoscope.palette s = Kaleidoscope._init_kaleidoscope_palette /\
  Kaleidoscope.rotation_speed s = 0.02%R /\ Kaleidoscope.symmetry_order s = 6 /\
  Kaleidoscope.center_x s = w / 2 /\ Kaleidoscope.center_y s = h / 2.
Proof.
  induction n as [|n IH]; cbn [Nat.iter]; [repeat split|].
  cbv zeta in IH. unfold Kaleidoscope.update at 1. cbn [fst].
  cbn [Kaleidoscope.width Kaleidoscope.height Kaleidoscope.palette
       Kaleidoscope.rotation_speed Kaleidoscope.symmetry_order
       Kaleidoscope.center_x Kaleidoscope.center_y]. exact IH.
Qed.

Section FireReset.
Import FireEffect.
Variables w h : Z.

Lemma init_fire_source_other_rows (buf : grid) (y : nat) :
  y <> Z.to_nat (h - 1) -> _init_fire_source w h buf !! y = buf !! y.
Proof.
  intros Hy. unfold _init_fire_source. generalize (Py.range w). intros l.
  revert buf. induction l as [|x l IH]; intros buf; cbn [fold_left]; [reflexivity|].
  rewrite IH. unfold set. apply list_lookup_alter_ne. congruence.
Qed.

Lemma init_fire_source_bottom_row (buf : grid) :
  0 < h -> shaped w h buf ->
  _init_fire_source w h buf !! Z.to_nat (h - 1) = Some (replicate (Z.to_nat w) 31).
Proof.
  intros Hh Hs. unfold _init_fire_source.
  destruct (bottom_row_exists w h buf Hh Hs) as (row & Hrow & Hlen).
  assert (Hset : forall (b : grid) (x : Z), exists v,
            31 <= v <= 31 /\ set b (h - 1) x 31 = set b (h - 1) x v).
  { intros b x. exists 31. split; [lia|reflexivity]. }
  rewrite range_seq.
  destruct (fill_row (fun b : grid => b)
              (fun b x => set b (h - 1) x 31) (h - 1) 31 Hset
              (Z.to_nat w) buf row Hrow) as (row' & H1 & Hl' & Hok).
  rewrite H1. f_equal. symmetry. apply replicate_as_Forall. split; [lia|].
  apply Forall_lookup_2. intros i v Hv.
  assert (31 <= v <= 31).
  { apply (Hok i v); [|exact Hv]. apply lookup_lt_Some in Hv. lia. }
  lia.
Qed.

End FireReset.

Lemma starfield_reset_redraws (s : StarfieldEffect.t) (g : Random.rng) :
  let s1 := fst (StarfieldEffect.reset s g) in
  StarfieldEffect.time s1 = 0%R /\
  StarfieldEffect.palette s1 = StarfieldEffect.palette s /\
  StarfieldEffect.stars s1 =
    StarfieldEffect.stars (fst (StarfieldEffect._init_stars s g)).
Proof.
  unfold StarfieldEffect.reset, StarfieldEffect._init_stars.
  cbn [StarfieldEffect.width StarfieldEffect.height StarfieldEffect.palette
       StarfieldEffect.num_stars StarfieldEffect.center_x
       StarfieldEffect.center_y StarfieldEffect.time].
  destruct (fold_left _ _ _) as [l g1]. repeat split.
Qed.

Lemma streamers_reset_redraws (s : StreamersEffect.t) (g : Random.rng) :
  let s1 := fst (StreamersEffect.reset s g) in
  StreamersEffect.time s1 = 0%R /\
  StreamersEffect.palette s1 = StreamersEffect.palette s /\
  StreamersEffect.streamers s1 =
    StreamersEffect.streamers (fst (StreamersEffect._init_streamers s g)).
Proof.
  unfold StreamersEffect.reset, StreamersEffect._init_streamers.
  cbn [StreamersEffect.width StreamersEffect.height StreamersEffect.palette
       StreamersEffect.num_streamers StreamersEffect.time].
  destruct (fold_left _ _ _) as [l g1]. repeat split.
Qed.

Lemma fire_reset_partial (s : FireEffect.t) :
  FireEffect.fire_good s ->
  let s1 := FireEffect.reset s in
  FireEffect.time s1 = 0%Q /\
  FireEffect.palette s1 = FireEffect.palette s /\
  FireEffect.fire_buffer s1 !! 59%nat = Some (replicate 80 31) /\
  (forall y : nat, y <> 59%nat ->
     FireEffect.fire_buffer s1 !! y = FireEffect.fire_buffer s !! y).
Proof.
  intros (Hw & Hh & [Hs _] & _). unfold FireEffect.reset.
  cbn [FireEffect.time FireEffect.palette FireEffect.fire_buffer].
  rewrite Hw, Hh. repeat split.
  - apply (init_fire_source_bottom_row 80 60); [lia|exact Hs].
  - intros y Hy. apply init_fire_source_other_rows. exact Hy.
Qed.

(** C2, as amended.  [reset()] puts the time counter of every effect (and
    its rotation, colour offset or shift, frame counter and Mandelbrot zoom)
    back to the value of construction and leaves the palette alone.  For
    the plasma, spiral, plasma-field and kaleidoscope effects that is the
    whole state: after any number of frames [reset()] gives the constructed
    effect again.  The other animation state is restored in part only: the
    fire sets its bottom source row to 31 and keeps the heat of every row
    above; the two Matrix effects keep their drop columns (the text one
    drops its labels); the star and streamer lists are drawn anew from the
    random source; the Julia parameters and the wave sources, which every
    frame computes afresh from the time, keep the values of the last
    frame. *)
Theorem reset_zeroes_counters_and_keeps_palette :
  (forall n,
     PlasmaEffect.reset
       (Nat.iter n (fun s => fst (PlasmaEffect.update s)) PlasmaEffect.__init__)
     = PlasmaEffect.__init__) /\
  (forall n,
     SpiralEffect.reset
       (Nat.iter n (fun s => fst (SpiralEffect.update s)) SpiralEffect.__init__)
     = SpiralEffect.__init__) /\
  (forall w h n,
     PlasmaField.reset
       (Nat.iter n (fun s => fst (PlasmaField.update s)) (PlasmaField.__init__ w h))
     = PlasmaField.__init__ w h) /\
  (forall w h n,
     Kaleidoscope.reset
       (Nat.iter n (fun s => fst (Kaleidoscope.update s)) (Kaleidoscope.__init__ w h))
     = Kaleidoscope.__init__ w h) /\
  (forall s,
     let s1 := JuliaFractalEffect.reset s in
     JuliaFractalEffect.time s1 = 0%R /\
     JuliaFractalEffect.color_offset s1 = 0%R /\
     JuliaFractalEffect.palette s1 = JuliaFractalEffect.palette s /\
     JuliaFractalEffect.zoom s1 = JuliaFractalEffect.zoom s /\
     JuliaFractalEffect.c_real s1 = JuliaFractalEffect.c_real s /\
     JuliaFractalEffect.c_imag s1 = JuliaFractalEffect.c_imag s) /\
  (forall s,
     let s1 := SineWaveEffect.reset s in
     SineWaveEffect.time s1 = 0%R /\
     SineWaveEffect.color_shift s1 = 0%R /\
     SineWaveEffect.palette s1 = SineWaveEffect.palette s /\
     SineWaveEffect.wave_sources s1 = SineWaveEffect.wave_sources s) /\
  (forall s,
     let s1 := Mandelbrot.reset s in
     Mandelbrot.time s1 = 0%Q /\ Mandelbrot.frame_count s1 = 0 /\
     Mandelbrot.color_offset s1 = 0%Q /\ Mandelbrot.zoom s1 = 1%Q /\
     Mandelbrot.palette s1 = Mandelbrot.palette s) /\
  (forall s,
     let s1 := MatrixEffect.reset s in
     MatrixEffect.time s1 = 0%Q /\
     MatrixEffect.palette s1 = MatrixEffect.palette s /\
     MatrixEffect.drop_positions s1 = MatrixEffect.drop_positions s /\
     MatrixEffect.drop_speeds s1 = MatrixEffect.drop_speeds s /\
     MatrixEffect.drop_active s1 = MatrixEffect.drop_active s) /\
  (forall s,
     let s1 := ColorMatrixEffect.reset s in
     ColorMatrixEffect.time s1 = 0%Q /\
     ColorMatrixEffect.active_labels s1 = [] /\
     ColorMatrixEffect.colors s1 = ColorMatrixEffect.colors s /\
     ColorMatrixEffect.drop_positions s1 = ColorMatrixEffect.drop_positions s /\
     ColorMatrixEffect.drop_speeds s1 = ColorMatrixEffect.drop_speeds s /\
     ColorMatrixEffect.drop_active s1 = ColorMatrixEffect.drop_active s /\
     ColorMatrixEffect.drop_colors s1 = ColorMatrixEffect.drop_colors s) /\
  (forall s g,
     let s1 := fst (StarfieldEffect.reset s g) in
     StarfieldEffect.time s1 = 0%R /\
     StarfieldEffect.palette s1 = StarfieldEffect.palette s /\
     StarfieldEffect.stars s1 =
       StarfieldEffect.stars (fst (StarfieldEffect._init_stars s g))) /\
  (forall s g,
     let s1 := fst (StreamersEffect.reset s g) in
     StreamersEffect.time s1 = 0%R /\
     StreamersEffect.palette s1 = StreamersEffect.palette s /\
     StreamersEffect.streamers s1 =
       StreamersEffect.streamers (fst (StreamersEffect._init_streamers s g))) /\
  (forall ops g,
     let s := fst (FireEffect.run ops FireEffect.__init__ g) in
     let s1 := FireEffect.reset s in
     FireEffect.time s1 = 0%Q /\
     FireEffect.palette s1 = FireEffect.palette s /\
     FireEffect.fire_buffer s1 !! 59%nat = Some (replicate 80 31) /\
     (forall y : nat, y <> 59%nat ->
        FireEffect.fire_buffer s1 !! y = FireEffect.fire_buffer s !! y)).
Proof.
  split; [|split; [|split; [|split; [|split; [|split; [|split; [|split;
    [|split; [|split; [|split]]]]]]]]]].
  - intros n. pose proof (plasma_frames_keep n) as H. cbv zeta in H.
    destruct H as (Hw & Hh & Hp).
    unfold PlasmaEffect.reset. rewrite Hw, Hh, Hp. reflexivity.
  - intros n. pose proof (spiral_frames_keep n) as H. cbv zeta in H.
    destruct H as (Hw & Hh & Hp & Hx & Hy).
    unfold SpiralEffect.reset. rewrite Hw, Hh, Hp, Hx, Hy. reflexivity.
  - intros w h n. pose proof (plasma_field_frames_keep w h n) as H.
    cbv zeta in H. destruct H as (Hw & Hh & Hp & Hs & Hc & Hx & Hy).
    unfold PlasmaField.reset. rewrite Hw, Hh, Hp, Hs, Hc, Hx, Hy. reflexivity.
  - intros w h n. pose proof (kaleidoscope_frames_keep w h n) as H.
    cbv zeta in H. destruct H as (Hw & Hh & Hp & Hs & Hc & Hx & Hy).
    unfold Kaleidoscope.reset. rewrite Hw, Hh, Hp, Hs, Hc, Hx, Hy. reflexivity.
  - intros s. repeat split.
  - intros s. repeat split.
  - intros s. repeat split.
  - intros s. repeat split.
  - intros s. repeat split.
  - exact starfield_reset_redraws.
  - exact streamers_reset_redraws.
  - intros ops g. apply fire_reset_partial, run_good, init_good.
Qed.

(** The heat of row 58 survives a reset after the first frame. *)
Lemma reset_zeroes_counters_and_keeps_palette_witness :
  let s := fst (FireEffect.run [FireEffect.Update] FireEffect.__init__
                  (Random.constant 0 0)) in
  FireEffect.fire_buffer (FireEffect.reset s) !! 58%nat =
  FireEffect.fire_buffer s !! 58%nat.
Proof.
  destruct reset_zeroes_counters_and_keeps_palette
    as (_ & _ & _ & _ & _ & _ & _ & _ & _ & _ & _ & Hfire).
  destruct (Hfire [FireEffect.Update] (Random.constant 0 0)) as (_ & _ & _ & H).
  apply H. lia.
Defined.

(** C2 as stated fails for the fire and for the Matrix rain.  After one
    frame (every raw draw of the random source 0) the fire cell
    (x, y) = (0, 58) holds the heat 14, a reset leaves it there, and the
    constructed effect has 0 in that cell; the drop of Matrix column 0,
    constructed at position -10, stands at -9.7 after one frame and a
    reset. *)
Lemma reset_keeps_animation_state_counterexample :
  let g := Random.constant 0 0 in
  let s1 := fst (fst (FireEffect.update FireEffect.__init__ g)) in
  let m0 := MatrixEffect.__init__ g in
  let m1 := fst (fst (MatrixEffect.update (fst m0) (snd m0))) in
  FireEffect.get (FireEffect.fire_buffer FireEffect.__init__) 58 0 = 0 /\
  FireEffect.get (FireEffect.fire_buffer (FireEffect.reset s1)) 58 0 = 14 /\
  FireEffect.reset s1 <> FireEffect.__init__ /\
  MatrixEffect.position (fst m0) 0 = (-10)%Q /\
  MatrixEffect.position (MatrixEffect.reset m1) 0 = (-97 # 10)%Q.
Proof.
  cbv zeta.
  assert (H0 : FireEffect.get (FireEffect.fire_buffer FireEffect.__init__) 58 0 = 0).
  { vm_compute. reflexivity. }
  assert (H1 : FireEffect.get
                 (FireEffect.fire_buffer
                    (FireEffect.reset
                       (fst (fst (FireEffect.update FireEffect.__init__
                                    (Random.constant 0 0)))))) 58 0 = 14).
  { vm_compute. reflexivity. }
  split; [exact H0|]. split; [exact H1|]. split.
  - intros E.
    pose proof (eq_trans (eq_sym H1)
                  (eq_trans (f_equal (fun s => FireEffect.get (FireEffect.fire_buffer s) 58 0) E)
                            H0)) as Habs.
    discriminate Habs.
  - split; vm_compute; reflexivity.
Qed.

(* ------------------------------------------------------------------ *)
(** ** Further properties of the schedulers *)

Lemma renders_app (l1 l2 : list event) :
  renders (l1 ++ l2) = renders l1 ++ renders l2.
Proof. unfold renders. apply flat_map_app. Qed.

Section ManagerRun.
Import ScreensaverManager.

Lemma manager_update_stamp (s : t) (now : Q) :
  (0 <= auto_scroll_time s)%Q ->
  let r := update s now in
  auto_scroll_time (fst r) = auto_scroll_time s /\
  (inject_Z (Z.of_nat (transitions (snd r))) * auto_scroll_time s
   <= last_scroll_time (fst r) - last_scroll_time s)%Q /\
  renders (snd r) = [current_effect_index (fst r)].
Proof.
  intros Ha. unfold update, handle_auto_scroll.
  destruct (Qle_bool _ _) eqn:E; simpl.
  - apply Qle_bool_iff in E. split; [reflexivity|]. split; [|reflexivity].
    match goal with |- context [transitions ?l] =>
      change (transitions l) with 1%nat end.
    change (inject_Z (Z.of_nat 1)) with 1%Q. lra.
  - split; [reflexivity|]. split; [|reflexivity].
    match goal with |- context [transitions ?l] =>
      change (transitions l) with 0%nat end.
    change (inject_Z (Z.of_nat 0)) with 0%Q. lra.
Qed.

(** X1.  The manager never switches faster than its interval: whatever the
    clock readings of the ticks, the transitions of a run, each worth
    [auto_scroll_time] seconds, fit between the time stamp the run starts
    from and the one it ends with; and every tick renders exactly one frame. *)
Theorem manager_transitions_are_rate_limited :
  forall (ticks : list Q) (s : t),
    (0 <= auto_scroll_time s)%Q ->
    let r := run s ticks in
    (inject_Z (Z.of_nat (transitions (snd r))) * auto_scroll_time s
     <= last_scroll_time (fst r) - last_scroll_time s)%Q /\
    length (renders (snd r)) = length ticks.
Proof.
  induction ticks as [|now rest IH]; intros s Ha; cbn [run].
  - cbn [fst snd]. split; [|reflexivity].
    change (transitions []) with 0%nat.
    change (inject_Z (Z.of_nat 0)) with 0%Q. lra.
  - destruct (manager_update_stamp s now Ha) as (A & T & R).
    destruct (update s now) as [s1 log1]. cbn [fst snd] in A, T, R.
    assert (Ha1 : (0 <= auto_scroll_time s1)%Q) by (rewrite A; exact Ha).
    destruct (IH s1 Ha1) as (T' & R').
    destruct (run s1 rest) as [s2 log2]. cbn [fst snd] in T', R' |- *.
    rewrite transitions_app, renders_app, length_app, R, R', Nat2Z.inj_add.
    split; [|reflexivity].
    rewrite inject_Z_plus. rewrite A in T'. lra.
Qed.

(** The manager of nine effects over the ticks 5, 10, 25, 35. *)
Lemma manager_transitions_are_rate_limited_witness :
  (inject_Z (Z.of_nat (transitions (snd (run (__init__ 0) [5; 10; 25; 35]%Q))))
   * 10
   <= last_scroll_time (fst (run (__init__ 0) [5; 10; 25; 35]%Q)) - 0)%Q /\
  length (renders (snd (run (__init__ 0) [5; 10; 25; 35]%Q))) = 4%nat.
Proof.
  apply (manager_transitions_are_rate_limited [5; 10; 25; 35]%Q (__init__ 0)).
  vm_compute. discriminate.
Defined.

End ManagerRun.

Section TouchRun.
Import PyPortalScreensaver.

Lemma advance_effect_index (s : t) (now : Q) :
  effects s <> [] ->
  effects (fst (advance_effect s now)) = effects s /\
  0 <= current_effect_index (fst (advance_effect s now))
    < Z.of_nat (length (effects s)).
Proof.
  intros Hne. unfold advance_effect. cbn [fst effects current_effect_index].
  split; [reflexivity|]. apply Z.mod_pos_bound.
  destruct (effects s); [congruence|simpl; lia].
Qed.

Lemma touch_update_index (s : t) (k : tick) :
  effects s <> [] ->
  0 <= current_effect_index s < Z.of_nat (length (effects s)) ->
  effects (fst (update s k)) = effects s /\
  0 <= current_effect_index (fst (update s k)) < Z.of_nat (length (effects s)).
Proof.
  intros Hne Hi. unfold update, handle_touch.
  assert (H1 : forall s' now, effects s' = effects s ->
             effects (fst (advance_effect s' now)) = effects s /\
             0 <= current_effect_index (fst (advance_effect s' now))
               < Z.of_nat (length (effects s))).
  { intros s' now He. rewrite <- He. apply advance_effect_index. congruence. }
  destruct (touch_value k && _).
  - destruct (H1 s (t_advance_touch k) eq_refl) as [He1 Hi1].
    destruct (advance_effect s (t_advance_touch k)) as [s1 log1].
    cbn [fst] in He1, Hi1.
    set (s1' := set_last_touch_time s1 (t_touch k)).
    assert (He1' : effects s1' = effects s) by exact He1.
    assert (Hi1' : 0 <= current_effect_index s1' < Z.of_nat (length (effects s)))
      by exact Hi1.
    clearbody s1'.
    destruct (Py.gt_Q _ _).
    + destruct (H1 s1' (t_advance_auto k) He1') as [He2 Hi2].
      destruct (advance_effect s1' (t_advance_auto k)) as [s2 log2].
      cbn [fst] in He2, Hi2.
      destruct (Qle_bool _ _); cbn [fst]; split; assumption.
    + destruct (Qle_bool _ _); cbn [fst]; split; assumption.
  - destruct (Py.gt_Q _ _).
    + destruct (H1 s (t_advance_auto k) eq_refl) as [He2 Hi2].
      destruct (advance_effect s (t_advance_auto k)) as [s2 log2].
      cbn [fst] in He2, Hi2.
      destruct (Qle_bool _ _); cbn [fst]; split; assumption.
    + destruct (Qle_bool _ _); cbn [fst]; split; auto.
Qed.

(** X2.  [effects[current_effect_index]] never fails: along every run of
    the touch scheduler over a non-empty effect list (any touch samples,
    any clock readings) the list stays as it is and the index stays inside
    it, so the current effect is always there. *)
Theorem touch_scheduler_index_stays_valid :
  forall (ticks : list tick) (s : t),
    effects s <> [] ->
    0 <= current_effect_index s < Z.of_nat (length (effects s)) ->
    let s' := fst (run s ticks) in
    effects s' = effects s /\
    0 <= current_effect_index s' < Z.of_nat (length (effects s)) /\
    exists e, current_effect s' = Some e.
Proof.
  assert (H : forall ticks s, effects s <> [] ->
            0 <= current_effect_index s < Z.of_nat (length (effects s)) ->
            effects (fst (run s ticks)) = effects s /\
            0 <= current_effect_index (fst (run s ticks))
              < Z.of_nat (length (effects s))).
  { induction ticks as [|k rest IH]; intros s Hne Hi; cbn [run].
    - split; [reflexivity|exact Hi].
    - destruct (touch_update_index s k Hne Hi) as [He1 Hi1].
      destruct (update s k) as [s1 log1]. cbn [fst] in He1, Hi1.
      destruct (IH s1) as [He2 Hi2]; [congruence | rewrite He1; exact Hi1 |].
      destruct (run s1 rest) as [s2 log2]. cbn [fst] in *.
      rewrite He1 in He2, Hi2. split; assumption. }
  intros ticks s Hne Hi s'. destruct (H ticks s Hne Hi) as [He Hi'].
  fold s' in He, Hi'. split; [exact He|]. split; [exact Hi'|].
  unfold current_effect. apply lookup_lt_is_Some_2. rewrite He. lia.
Qed.

Lemma touch_scheduler_index_stays_valid_witness :
  exists e,
    current_effect (fst (run (__init__ 0) [tap 1; release 2; tap 40])) = Some e.
Proof.
  destruct (touch_scheduler_index_stays_valid
              [tap 1; release 2; tap 40] (__init__ 0)) as (_ & _ & H).
  - discriminate.
  - simpl. lia.
  - exact H.
Defined.

(** X3.  One call of [update] makes at most one transition when the clock
    does not run backwards: an accepted touch stamps [last_advance_time]
    with a reading no earlier than the one the timer test uses.  A frame
    rendered in the call is a frame of the effect the call ends with, so a
    transition and the first frame of the new effect share a tick. *)
Theorem touch_update_transitions_at_most_once :
  forall (s : t) (k : tick),
    (t_update k <= t_advance_touch k)%Q -> (0 <= auto_advance_time s)%Q ->
    let r := update s k in
    (transitions (snd r) <= 1)%nat /\
    (renders (snd r) = [] \/ renders (snd r) = [current_effect_index (fst r)]).
Proof.
  intros s k Hm Ha. unfold update, handle_touch.
  destruct (touch_value k && _).
  - cbn [advance_effect fst snd set_last_touch_time last_advance_time
         auto_advance_time frame_time last_frame_time current_effect_index].
    assert (Hq : Py.gt_Q (t_update k - t_advance_touch k) (auto_advance_time s) = false).
    { apply gt_false. lra. }
    rewrite Hq.
    destruct (Qle_bool _ _); cbn; split; auto.
  - destruct (Py.gt_Q _ _).
    + cbn [advance_effect fst snd last_advance_time
         auto_advance_time frame_time last_frame_time current_effect_index].
      destruct (Qle_bool _ _); cbn; split; auto.
    + destruct (Qle_bool _ _); cbn; split; auto.
Qed.

Lemma touch_update_transitions_at_most_once_witness :
  (transitions (snd (update (__init__ 0) (tap 40))) <= 1)%nat.
Proof.
  apply (touch_update_transitions_at_most_once (__init__ 0) (tap 40)).
  - vm_compute. discriminate.
  - vm_compute. discriminate.
Defined.

End TouchRun.

(* ------------------------------------------------------------------ *)
(** ** Further properties of the escape-time loops *)

Section MandelbrotLoop.
Import Mandelbrot.

Lemma mandelbrot_iterate_escape_below (cx cy : Q) (fuel : nat) :
  forall (i : Z) (x y : Q) (j : Z),
    iterate cx cy fuel i x y = Escaped j -> j < i + Z.of_nat fuel.
Proof.
  induction fuel as [|fuel IH]; intros i x y j H; [discriminate|].
  cbn [iterate] in H. destruct (Py.gt_Q _ _).
  - inversion H. lia.
  - apply IH in H. lia.
Qed.

(** More fuel does not change an escape already found. *)
Lemma mandelbrot_iterate_more_fuel (cx cy : Q) (fuel extra : nat) :
  forall (i : Z) (x y : Q) (j : Z),
    iterate cx cy fuel i x y = Escaped j ->
    iterate cx cy (fuel + extra) i x y = Escaped j.
Proof.
  induction fuel as [|fuel IH]; intros i x y j H; [discriminate|].
  cbn [iterate Nat.add] in *. destruct (Py.gt_Q _ _); [exact H|].
  apply IH, H.
Qed.

(** X4.  The count [_mandelbrot_iteration] returns is an iteration the loop
    can reach: it lies in [0 .. max_iterations - 1] (and is 0 when the
    loop has no iteration at all), for every point of the plane. *)
Theorem mandelbrot_iteration_count_within_budget :
  forall (s : t) (cx cy : Q),
    0 <= _mandelbrot_iteration s cx cy <= Z.max 0 (max_iterations s - 1).
Proof.
  intros s cx cy. unfold _mandelbrot_iteration, escape_loop.
  destruct (iterate cx cy _ 0 0 0) as [j|] eqn:E; cbn [iterations_of]; [|lia].
  pose proof (mandelbrot_iterate_escape_index _ _ _ _ _ _ _ E).
  pose proof (mandelbrot_iterate_escape_below _ _ _ _ _ _ _ E).
  lia.
Qed.

(** X5.  Raising [max_iterations] never changes the escape iteration of a
    point that already escaped: a larger budget can only turn points
    reported as inside into escaping ones. *)
Theorem mandelbrot_escape_is_stable_under_larger_budget :
  forall (m n : Z) (cx cy : Q) (j : Z),
    m <= n ->
    escape_loop m cx cy = Escaped j ->
    escape_loop n cx cy = Escaped j.
Proof.
  intros m n cx cy j Hmn H. unfold escape_loop in *.
  replace (Z.to_nat n) with (Z.to_nat m + (Z.to_nat n - Z.to_nat m))%nat by lia.
  apply mandelbrot_iterate_more_fuel, H.
Qed.

Lemma mandelbrot_escape_is_stable_under_larger_budget_witness :
  escape_loop 32 (1 # 2) (1 # 2) = Escaped 5 /\
  escape_loop 64 (1 # 2) (1 # 2) = Escaped 5.
Proof.
  assert (H : escape_loop 32 (1 # 2) (1 # 2) = Escaped 5)
    by (vm_compute; reflexivity).
  split; [exact H|].
  apply (mandelbrot_escape_is_stable_under_larger_budget 32 64 _ _ 5);
    [lia|exact H].
Defined.



Lemma Qsquare_nonneg (a : Q) : (0 <= a * a)%Q.
Proof. nra. Qed.

(** The disc of radius 1/2 is closed under [z := z^2 + c] when [c] lies in
    the disc of radius 1/4. *)
Lemma mandelbrot_small_disc_step (cx cy x y : Q) :
  (cx * cx + cy * cy <= 1 # 16)%Q ->
  (x * x + y * y <= 1 # 4)%Q ->
  ((x * x - y * y + cx) * (x * x - y * y + cx)
   + (2 * x * y + cy) * (2 * x * y + cy) <= 1 # 4)%Q.
Proof.
  intros Hc Hz.
  pose proof (Qsquare_nonneg (x * x - y * y - cx)) as H1.
  pose proof (Qsquare_nonneg (2 * x * y - cy)) as H2.
  pose proof (Qsquare_nonneg x) as Hx. pose proof (Qsquare_nonneg y) as Hy.
  set (a := (x * x + y * y)%Q) in *.
  assert (Ha : (0 <= a)%Q) by (unfold a; lra).
  assert (H3 : (a * a <= 1 # 16)%Q) by nra.
  assert (H4 : ((x * x - y * y) * (x * x - y * y) + (2 * x * y) * (2 * x * y)
                == a * a)%Q) by (unfold a; ring).
  set (p := (x * x - y * y)%Q) in *. set (q := (2 * x * y)%Q) in *.
  clearbody p q a. nra.
Qed.

Lemma mandelbrot_small_disc_inside (cx cy : Q) (fuel : nat) :
  (cx * cx + cy * cy <= 1 # 16)%Q ->
  forall (i : Z) (x y : Q),
    (x * x + y * y <= 1 # 4)%Q ->
    iterate cx cy fuel i x y = Inside.
Proof.
  intros Hc. induction fuel as [|fuel IH]; intros i x y Hz; [reflexivity|].
  cbn [iterate].
  assert (H : Py.gt_Q (x * x + y * y) 4 = false) by (apply gt_false; lra).
  rewrite H. apply IH. apply mandelbrot_small_disc_step; assumption.
Qed.

(** X7.  Every point of the disc of radius 1/4 round the origin is
    reported as inside the set, with any budget, and drawn with index 0:
    the orbit never leaves the disc of radius 1/2. *)
Theorem mandelbrot_small_disc_is_inside :
  forall (s : t) (cx cy : Q),
    (cx * cx + cy * cy <= 1 # 16)%Q ->
    escape_loop (max_iterations s) cx cy = Inside /\
    _mandelbrot_iteration s cx cy = 0.
Proof.
  intros s cx cy Hc. unfold _mandelbrot_iteration, escape_loop.
  rewrite (mandelbrot_small_disc_inside cx cy _ Hc); [split; reflexivity|].
  lra.
Qed.

Lemma mandelbrot_small_disc_is_inside_witness :
  _mandelbrot_iteration (__init__ 320 240) (1 # 5) (- (1 # 10)) = 0.
Proof.
  apply (mandelbrot_small_disc_is_inside (__init__ 320 240)).
  vm_compute. discriminate.
Defined.

End MandelbrotLoop.

Section JuliaLoop.
Import JuliaFractalEffect.

Lemma julia_iterate_escape_range (c_re c_im : R) (fuel : nat) :
  forall (i : Z) (zx zy : R) (j : Z),
    iterate c_re c_im fuel i zx zy = Escaped j -> i <= j < i + Z.of_nat fuel.
Proof.
  induction fuel as [|fuel IH]; intros i zx zy j H; [discriminate|].
  rewrite julia_iterate_step in H. destruct (Rgt_dec _ _).
  - inversion H. lia.
  - apply IH in H. lia.
Qed.

Lemma julia_escape_range (s : t) (x y j : Z) :
  escape_loop s x y = Escaped j -> 0 <= j < Z.max 1 (max_iterations s).
Proof.
  unfold escape_loop. destruct (point s x y) as [zx zy]. intros H.
  apply julia_iterate_escape_range in H. lia.
Qed.

End JuliaLoop.

(** X8.  The count [_julia_iteration] returns lies in
    [0 .. max_iterations - 1], for every pixel and every state. *)
Theorem julia_iteration_count_within_budget :
  forall (s : JuliaFractalEffect.t) (x y : Z),
    0 <= JuliaFractalEffect._julia_iteration s x y
      <= Z.max 0 (JuliaFractalEffect.max_iterations s - 1).
Proof.
  intros s x y. unfold JuliaFractalEffect._julia_iteration.
  destruct (JuliaFractalEffect.escape_loop s x y) as [j|] eqn:E;
    cbn [iterations_of]; [|lia].
  apply julia_escape_range in E. lia.
Qed.

(** X9.  Which pixels the Julia effect paints with the background index 0:
    exactly those whose orbit stays inside for the whole budget and those
    whose starting point already lies outside the circle of radius 2
    (escape at iteration 0); every other pixel gets an index of 1..63. *)
Theorem julia_black_pixels :
  forall (s : JuliaFractalEffect.t) (x y : Z),
    (JuliaFractalEffect.color_index s x y = 0 <->
       JuliaFractalEffect.escape_loop s x y = Inside \/
       JuliaFractalEffect.escape_loop s x y = Escaped 0) /\
    (JuliaFractalEffect.color_index s x y <> 0 ->
       1 <= JuliaFractalEffect.color_index s x y <= 63).
Proof.
  intros s x y.
  unfold JuliaFractalEffect.color_index, JuliaFractalEffect._julia_iteration.
  destruct (JuliaFractalEffect.escape_loop s x y) as [j|] eqn:E;
    cbn [iterations_of].
  - apply julia_escape_range in E.
    match goal with |- context [Py.int_R (Py.fmod_R ?a 63)] =>
      destruct (fmod_R_range a 63) as [H1 H2]; [lra|];
      pose proof (int_R_below _ 63 H1 H2) as Hr end.
    destruct (j =? 0) eqn:Ej.
    + apply Z.eqb_eq in Ej. subst j. split; [|congruence].
      split; [intros _; right; reflexivity|reflexivity].
    + apply Z.eqb_neq in Ej. split; [|lia]. split; [lia|].
      intros [H|H]; [discriminate|]. inversion H. contradiction.
  - change (0 =? 0) with true. cbn iota. split; [|congruence].
    split; [intros _; left; reflexivity|reflexivity].
Qed.

Section MandelbrotPlane.
Import Mandelbrot.

(** X10.  [_screen_to_complex] is an affine map with square pixels: one
    pixel to the right and one pixel down move the point by the same
    distance [4 / zoom / width], whatever the aspect ratio of the display,
    and the pixel in the middle of the display is the centre of the view. *)
Theorem mandelbrot_screen_to_complex_has_square_pixels :
  forall (s : t) (x y : Z),
    0 < width s -> 0 < height s -> (0 < zoom s)%Q ->
    let step := (4 / zoom s / inject_Z (width s))%Q in
    (fst (_screen_to_complex s x y)
     == center_x s + (inject_Z x - inject_Z (width s) / 2) * step)%Q /\
    (snd (_screen_to_complex s x y)
     == center_y s + (inject_Z y - inject_Z (height s) / 2) * step)%Q.
Proof.
  intros s x y Hw Hh Hz step. unfold step, _screen_to_complex. cbn [fst snd].
  assert (Hw' : ~ (inject_Z (width s) == 0)%Q).
  { intros E. assert (H : (0 < inject_Z (width s))%Q)
      by (rewrite <- (Zlt_Qlt 0); exact Hw). lra. }
  assert (Hh' : ~ (inject_Z (height s) == 0)%Q).
  { intros E. assert (H : (0 < inject_Z (height s))%Q)
      by (rewrite <- (Zlt_Qlt 0); exact Hh). lra. }
  assert (Hz' : ~ (zoom s == 0)%Q) by lra.
  split; field; auto.
Qed.

Lemma mandelbrot_screen_to_complex_has_square_pixels_witness :
  (fst (_screen_to_complex (__init__ 320 240) 160 120) == - (1 # 2))%Q /\
  (snd (_screen_to_complex (__init__ 320 240) 160 120) == 0)%Q.
Proof.
  destruct (mandelbrot_screen_to_complex_has_square_pixels
              (__init__ 320 240) 160 120) as [H1 H2].
  - reflexivity.
  - reflexivity.
  - reflexivity.
  - split.
    + rewrite H1. vm_compute. reflexivity.
    + rewrite H2. vm_compute. reflexivity.
Defined.

End MandelbrotPlane.

(* ------------------------------------------------------------------ *)
(** ** The Mandelbrot zoom cycle *)

Section MandelbrotZoom.
Import Mandelbrot.

Lemma mandelbrot_inv_init (w h : Z) : mandelbrot_inv w h (__init__ w h).
Proof.
  unfold mandelbrot_inv, __init__; cbn.
  repeat (split; [first [reflexivity | lia | discriminate]|]).
  discriminate.
Qed.

Lemma mandelbrot_inv_reset (w h : Z) (s : t) :
  mandelbrot_inv w h s -> mandelbrot_inv w h (reset s).
Proof.
  unfold mandelbrot_inv, reset; cbn.
  intros (Hw & Hh & Hm & Hs & Hc & Hx & Hy & Hf & Hz & Hz1 & B1 & B2 & B3 & B4).
  repeat (split; [first [assumption | reflexivity | lia | discriminate]|]).
  assumption.
Qed.

Lemma mandelbrot_inv_advance (w h : Z) (s : t) :
  mandelbrot_inv w h s -> mandelbrot_inv w h (advance s).
Proof.
  unfold mandelbrot_inv, advance.
  intros (Hw & Hh & Hm & Hs & Hc & Hx & Hy & Hf & Hz & Hz1 & B1 & B2 & B3 & B4).
  cbn [width height max_iterations zoom_speed zoom_cycle_time zoom_center_x
       zoom_center_y frame_count zoom center_x center_y].
  rewrite Hc, Hs, Hx, Hy.
  destruct (frame_count s + 1 <? 200) eqn:E; cbv beta iota.
  - apply Z.ltb_lt in E.
    repeat (split; [first [assumption | reflexivity | lia]|]).
    split.
    { rewrite Qpower_plus by discriminate. rewrite Hz. reflexivity. }
    split; [nra|]. split; [lra|]. split; [lra|]. split; lra.
  - repeat (split; [first [assumption | reflexivity | lia | discriminate]|]).
    discriminate.
Qed.

Lemma mandelbrot_inv_after (w h : Z) (cs : list call) (s : t) :
  mandelbrot_inv w h s ->
  mandelbrot_inv w h (after (fun s => fst (update s)) reset cs s).
Proof.
  revert s. induction cs as [|c cs IH]; intros s H; [exact H|].
  unfold after. cbn [fold_left]. apply IH.
  destruct c; [apply mandelbrot_inv_advance|apply mandelbrot_inv_reset]; exact H.
Qed.

(** X11.  Whatever updates and resets the scheduler makes on the Mandelbrot
    effect, the frame counter stays inside the zoom cycle of 200 frames,
    the zoom is 1.02 to the power of the frame counter and so never below
    1 (the divisions of [_screen_to_complex] are safe), and the view centre
    stays between its start (-0.5, 0) and the zoom target. *)
Theorem mandelbrot_zoom_stays_in_its_cycle :
  forall (w h : Z) (cs : list call),
    let s := after (fun s => fst (update s)) reset cs (__init__ w h) in
    0 <= frame_count s < zoom_cycle_time s /\
    (zoom s == zoom_speed s ^ frame_count s)%Q /\
    (1 <= zoom s)%Q /\
    (- (1 # 2) <= center_x s)%Q /\ (center_x s <= zoom_center_x s)%Q /\
    (0 <= center_y s)%Q /\ (center_y s <= zoom_center_y s)%Q.
Proof.
  intros w h cs s.
  destruct (mandelbrot_inv_after w h cs _ (mandelbrot_inv_init w h))
    as (Hw & Hh & Hm & Hs & Hc & Hx & Hy & Hf & Hz & Hz1 & B1 & B2 & B3 & B4).
  fold s in Hw, Hh, Hm, Hs, Hc, Hx, Hy, Hf, Hz, Hz1, B1, B2, B3, B4.
  rewrite Hc, Hs, Hx, Hy. repeat (split; [assumption|]). assumption.
Qed.

Lemma mandelbrot_frames (w h : Z) (n : nat) :
  let s := Nat.iter n (fun s => fst (update s)) (__init__ w h) in
  mandelbrot_inv w h s /\
  frame_count s = Z.of_nat n mod 200 /\
  (color_offset s == 2 * inject_Z (Z.of_nat n))%Q /\
  (time s == inject_Z (Z.of_nat n) / 10)%Q.
Proof.
  induction n as [|n IH].
  - cbn [Nat.iter]. split; [apply mandelbrot_inv_init|].
    split; [reflexivity|]. split; reflexivity.
  - cbv beta zeta in IH |- *.
    change (Nat.iter (S n) (fun s => fst (update s)) (__init__ w h))
      with (fst (update (Nat.iter n (fun s => fst (update s)) (__init__ w h)))).
    destruct IH as (Hi & Hf & Ho & Ht).
    set (s := Nat.iter n (fun s => fst (update s)) (__init__ w h)) in *.
    split; [apply mandelbrot_inv_advance, Hi|].
    destruct Hi as (_ & _ & _ & _ & Hc & _ & _ & Hr & _).
    unfold update. cbn [fst]. unfold advance.
    cbn [frame_count color_offset time]. rewrite Hc, Hf.
    rewrite Nat2Z.inj_succ. unfold Z.succ.
    split.
    + destruct (_ <? 200) eqn:E; cbv beta iota.
      * apply Z.ltb_lt in E.
        rewrite <- (Zplus_mod_idemp_l (Z.of_nat n)).
        symmetry. apply Z.mod_small.
        pose proof (Z.mod_pos_bound (Z.of_nat n) 200). lia.
      * apply Z.ltb_ge in E.
        pose proof (Z.mod_pos_bound (Z.of_nat n) 200 ltac:(lia)) as Hb.
        assert (Hn : Z.of_nat n mod 200 = 199) by lia.
        rewrite <- (Zplus_mod_idemp_l (Z.of_nat n)), Hn. reflexivity.
    + rewrite inject_Z_plus. change (inject_Z 1) with 1%Q.
      split; [rewrite Ho; ring|rewrite Ht; field].
Qed.

(** X12.  Without a reset the Mandelbrot effect repeats its zoom every 200
    frames: after [n] updates of the constructed effect the frame counter
    is [n mod 200], and so the zoom is [1.02 ^ (n mod 200)]; the colour
    offset has grown to [2 n] and the time to [n / 10]. *)
Theorem mandelbrot_zoom_cycle_has_period_200 :
  forall (w h : Z) (n : nat),
    let s := Nat.iter n (fun s => fst (update s)) (__init__ w h) in
    frame_count s = Z.of_nat n mod 200 /\
    (zoom s == (102 # 100) ^ (Z.of_nat n mod 200))%Q /\
    (color_offset s == 2 * inject_Z (Z.of_nat n))%Q /\
    (time s == inject_Z (Z.of_nat n) / 10)%Q.
Proof.
  intros w h n s.
  destruct (mandelbrot_frames w h n) as (Hi & Hf & Ho & Ht).
  fold s in Hi, Hf, Ho, Ht.
  destruct Hi as (_ & _ & _ & _ & _ & _ & _ & _ & Hz & _).
  rewrite Hf in Hz. repeat (split; [assumption|]). assumption.
Qed.

End MandelbrotZoom.

(* ------------------------------------------------------------------ *)
(** ** What a frame leaves on the bitmap *)

Ltac zdiv := Z.to_euclidean_division_equations; lia.

Lemma in_range_iff (n x : Z) : In x (Py.range n) <-> 0 <= x < n.
Proof.
  split; [apply in_range|]. intros H.
  rewrite range_seq, in_map_iff. exists (Z.to_nat x). split; [lia|].
  apply in_seq. lia.
Qed.

(** [range(0, n, 2)]: the even numbers below [n]. *)
Lemma in_range3_even (n x : Z) :
  In x (Py.range3 0 n 2) <-> 0 <= x < n /\ x mod 2 = 0.
Proof.
  unfold Py.range3. change (0 <? 2) with true. cbv iota.
  rewrite in_map_iff. split.
  - intros (k & <- & Hk). apply in_seq in Hk.
    assert (Hb : Z.of_nat k < (n - 0 + 2 - 1) / 2) by lia.
    split; [zdiv|].
    rewrite Z.add_0_l, Z.mul_comm. apply Z.mod_mul. lia.
  - intros [Hx Hm]. exists (Z.to_nat (x / 2)). split.
    + rewrite Z2Nat.id by zdiv. zdiv.
    + apply in_seq. split; [lia|].
      assert (x / 2 < (n - 0 + 2 - 1) / 2) by zdiv. 
      assert (0 <= x / 2) by zdiv. lia.
Qed.

Lemma painted_app (before : Z * Z -> Z) (ws1 ws2 : list write) (p : Z * Z) :
  painted before (ws1 ++ ws2) p = painted (painted before ws1) ws2 p.
Proof. unfold painted. apply fold_left_app. Qed.

(** The last write to a pixel decides; when all the writes to it agree,
    any one of them does. *)
Lemma painted_agree (ws : list write) (p : Z * Z) (v : Z) :
  (forall w, In w ws -> pixel w = p -> Bitmap.value w = v) ->
  forall before,
    before p = v \/ (exists w, In w ws /\ pixel w = p) ->
    painted before ws p = v.
Proof.
  unfold painted. intros Hall before. generalize (before p) as v0. clear before.
  induction ws as [|a ws IH]; intros v0 H; cbn [fold_left].
  - destruct H as [H|(w & [] & _)]. exact H.
  - apply IH.
    + intros w Hw. apply Hall. right. exact Hw.
    + destruct (decide (pixel a = p)) as [Ea|Ea].
      * left. apply Hall; [left; reflexivity|exact Ea].
      * destruct H as [H|(w & [Hw|Hw] & Hp)].
        -- left. exact H.
        -- subst w. contradiction.
        -- right. exists w. split; assumption.
Qed.

(** A pixel no write goes to keeps what it held. *)
Lemma painted_untouched (before : Z * Z -> Z) (ws : list write) (p : Z * Z) :
  (forall w, In w ws -> pixel w <> p) -> painted before ws p = before p.
Proof.
  intros H. apply painted_agree; [|left; reflexivity].
  intros w Hw Hp. destruct (H w Hw Hp).
Qed.

Lemma Forall_In_intro {A} (P : A -> Prop) (l : list A) :
  (forall a, In a l -> P a) -> Forall P l.
Proof. intros H. apply List.Forall_forall. exact H. Qed.

(** The frame of a generator that computes every pixel of the grid. *)
Lemma grid_frame_repaints (w h : Z) (index : Z -> Z -> Z) :
  repaints w h index
    (flat_map (fun y => map (fun x => (x, y, index x y)) (Py.range w))
              (Py.range h)).
Proof.
  split.
  - apply Forall_flat_map_intro. intros y Hy. apply Forall_map_intro.
    intros x Hx. apply in_range in Hx, Hy. split; assumption.
  - intros before x y Hx Hy. apply painted_agree.
    + intros wr Hw Hp. apply in_flat_map in Hw. destruct Hw as (y' & _ & Hw).
      apply in_map_iff in Hw. destruct Hw as (x' & <- & _).
      unfold pixel in Hp. cbn [fst] in Hp. inversion Hp. subst. reflexivity.
    + right. exists (x, y, index x y). split; [|reflexivity].
      apply in_flat_map. exists y. split; [apply in_range_iff, Hy|].
      apply in_map_iff. exists x. split; [reflexivity|apply in_range_iff, Hx].
Qed.

Lemma in_block2x2 (w h x y c : Z) (wr : write) :
  In wr (Bitmap.block2x2 w h x y c) <->
  Bitmap.value wr = c /\
  (fst (pixel wr) = x \/ fst (pixel wr) = x + 1 /\ x + 1 < w) /\
  (snd (pixel wr) = y \/ snd (pixel wr) = y + 1 /\ y + 1 < h).
Proof.
  destruct wr as [[px py] v]. unfold Bitmap.block2x2, pixel, Bitmap.value.
  cbn [fst snd].
  destruct (Z.ltb_spec (x + 1) w) as [Hx|Hx], (Z.ltb_spec (y + 1) h) as [Hy|Hy];
    cbn [app In]; split.
  all: try (intros H; decompose [or] H; clear H;
            try contradiction;
            match goal with E : (_, _, _) = (_, _, _) |- _ =>
              inversion E; subst; clear E end;
            lia).
  all: intros (-> & Hpx & Hpy);
       destruct Hpx as [->|[-> ?]], Hpy as [->|[-> ?]]; try lia; tauto.
Qed.

(** The frame of a fractal: one computed pixel per 2x2 block. *)
Lemma block_frame_repaints (w h : Z) (index : Z -> Z -> Z) :
  repaints w h (fun x y => index (2 * (x / 2)) (2 * (y / 2)))
    (flat_map (fun y =>
       flat_map (fun x => Bitmap.block2x2 w h x y (index x y))
                (Py.range3 0 w 2))
       (Py.range3 0 h 2)).
Proof.
  assert (Hin : forall wr,
    In wr (flat_map (fun y =>
             flat_map (fun x => Bitmap.block2x2 w h x y (index x y))
                      (Py.range3 0 w 2)) (Py.range3 0 h 2)) <->
    exists x y, (0 <= x < w /\ x mod 2 = 0) /\ (0 <= y < h /\ y mod 2 = 0) /\
                In wr (Bitmap.block2x2 w h x y (index x y))).
  { intros wr. rewrite in_flat_map. split.
    - intros (y & Hy & Hw). apply in_flat_map in Hw. destruct Hw as (x & Hx & Hw).
      exists x, y. rewrite <- !in_range3_even. tauto.
    - intros (x & y & Hx & Hy & Hw). exists y. rewrite in_range3_even.
      split; [exact Hy|]. apply in_flat_map. exists x. rewrite in_range3_even.
      tauto. }
  split.
  - apply Forall_In_intro. intros wr Hw. apply Hin in Hw.
    destruct Hw as (x & y & Hx & Hy & Hw). apply in_block2x2 in Hw.
    unfold on_bitmap. lia.
  - intros before x y Hx Hy. apply painted_agree.
    + intros wr Hw Hp. apply Hin in Hw.
      destruct Hw as (x' & y' & Hx' & Hy' & Hw). apply in_block2x2 in Hw.
      rewrite Hp in Hw. cbn [fst snd] in Hw. destruct Hw as (-> & Hpx & Hpy).
      f_equal; zdiv.
    + right. exists (x, y, index (2 * (x / 2)) (2 * (y / 2))).
      split; [|reflexivity]. apply Hin.
      exists (2 * (x / 2)), (2 * (y / 2)).
      split; [zdiv|]. split; [zdiv|].
      apply in_block2x2. unfold pixel, Bitmap.value. cbn [fst snd].
      split; [reflexivity|]. zdiv.
Qed.

(** X13.  A frame of the plasma, spiral, sine-wave, PlasmaField,
    kaleidoscope or fire effect repaints the whole bitmap and nothing
    outside it: after [update], whatever was on the bitmap before, each
    pixel holds the colour index the effect computes for it in its new
    state (for the fire, the heat of the cell). *)
Theorem grid_effects_repaint_the_whole_bitmap :
  (forall s : PlasmaEffect.t,
     let r := PlasmaEffect.update s in
     repaints (PlasmaEffect.width s / 2) (PlasmaEffect.height s / 2)
       (PlasmaEffect.color_idx (fst r)) (snd r)) /\
  (forall s : SpiralEffect.t,
     let r := SpiralEffect.update s in
     repaints (SpiralEffect.width s / 2) (SpiralEffect.height s / 2)
       (SpiralEffect.color_idx (fst r)) (snd r)) /\
  (forall s : SineWaveEffect.t,
     let r := SineWaveEffect.update s in
     repaints (SineWaveEffect.width s / 2) (SineWaveEffect.height s / 2)
       (SineWaveEffect.color_index (fst r)) (snd r)) /\
  (forall s : PlasmaField.t,
     let r := PlasmaField.update s in
     repaints (PlasmaField.width s) (PlasmaField.height s)
       (PlasmaField.color_index (fst r)) (snd r)) /\
  (forall s : Kaleidoscope.t,
     let r := Kaleidoscope.update s in
     repaints (Kaleidoscope.width s) (Kaleidoscope.height s)
       (Kaleidoscope.color_index (fst r)) (snd r)) /\
  (forall (s : FireEffect.t) (g : Random.rng),
     let r := FireEffect.update s g in
     repaints (FireEffect.fire_width s) (FireEffect.fire_height s)
       (fun x y => FireEffect.get (FireEffect.fire_buffer (fst (fst r))) y x)
       (snd r)).
Proof.
  split; [intros s; apply (grid_frame_repaints _ _ (PlasmaEffect.color_idx _))|].
  split; [intros s; apply (grid_frame_repaints _ _ (SpiralEffect.color_idx _))|].
  split; [intros s; apply (grid_frame_repaints _ _ (SineWaveEffect.color_index _))|].
  split; [intros s; apply (grid_frame_repaints _ _ (PlasmaField.color_index _))|].
  split; [intros s; apply (grid_frame_repaints _ _ (Kaleidoscope.color_index _))|].
  intros s g. unfold FireEffect.update.
  destruct (FireEffect._update_fire_simulation _ _ _ _) as [buf g1].
  cbn [fst snd FireEffect.fire_buffer].
  apply (grid_frame_repaints _ _ (fun x y => FireEffect.get buf y x)).
Qed.

(** X14.  A frame of the Julia or Mandelbrot effect repaints the whole
    bitmap although it computes one pixel in four: every pixel holds the
    index computed for the even-coordinate corner of its 2x2 block, also
    in the last column and row of a bitmap of odd width or height, and no
    write leaves the bitmap. *)
Theorem fractal_effects_repaint_the_whole_bitmap :
  (forall s : JuliaFractalEffect.t,
     let r := JuliaFractalEffect.update s in
     repaints (JuliaFractalEffect.width s / 2) (JuliaFractalEffect.height s / 2)
       (fun x y => JuliaFractalEffect.color_index (fst r) (2 * (x / 2)) (2 * (y / 2)))
       (snd r)) /\
  (forall s : Mandelbrot.t,
     let r := Mandelbrot.update s in
     repaints (Mandelbrot.width s) (Mandelbrot.height s)
       (fun x y => Mandelbrot.color_index (fst r) (2 * (x / 2)) (2 * (y / 2)))
       (snd r)).
Proof.
  split; intros s.
  - apply (block_frame_repaints _ _ (JuliaFractalEffect.color_index _)).
  - apply (block_frame_repaints _ _ (Mandelbrot.color_index _)).
Qed.

(* ------------------------------------------------------------------ *)
(** ** The Matrix rain *)

Section MatrixRain.
Import MatrixEffect.

Lemma choice_in {A} (d : A) (l : list A) (g : Random.rng) :
  l <> [] -> In (fst (Random.choice d l g)) l.
Proof.
  intros Hl. unfold Random.choice. cbn [fst]. apply nth_In.
  assert (0 < Z.of_nat (length l)) by (destruct l; [congruence|simpl; lia]).
  pose proof (Z.mod_pos_bound (Random.int_draws g (Random.cursor g))
                (Z.of_nat (length l)) ltac:(lia)).
  lia.
Qed.

Lemma choice_speed (g : Random.rng) :
  1 <= fst (Random.choice 1 [1; 2; 3] g) <= 3.
Proof.
  pose proof (choice_in 1 [1; 2; 3] g ltac:(discriminate)) as H.
  cbn [In] in H. lia.
Qed.

Lemma matrix_position_in (s : t) (col : Z) :
  0 <= col < 20 -> matrix_inv s ->
  (-15 <= position s col)%Q /\ (position s col <= 20)%Q.
Proof.
  intros Hc (_ & _ & Lp & _ & _ & Fp & _). unfold position.
  destruct (lookup_lt_is_Some_2 (drop_positions s) (Z.to_nat col)) as [p Hp];
    [lia|].
  rewrite Hp. cbn [default]. exact (Forall_lookup_1 _ _ _ _ Fp Hp).
Qed.

Lemma matrix_speed_in (s : t) (col : Z) :
  0 <= col < 20 -> matrix_inv s -> 1 <= speed s col <= 3.
Proof.
  intros Hc (_ & _ & _ & Ls & _ & _ & Fs). unfold speed.
  destruct (lookup_lt_is_Some_2 (drop_speeds s) (Z.to_nat col)) as [v Hv];
    [lia|].
  rewrite Hv. cbn [default]. exact (Forall_lookup_1 _ _ _ _ Fs Hv).
Qed.

Lemma matrix_inv_set_position (s : t) (col : Z) (p : Q) :
  (-15 <= p)%Q -> (p <= 20)%Q -> matrix_inv s -> matrix_inv (set_position s col p).
Proof.
  intros H1 H2 (C & R & Lp & Ls & La & Fp & Fs). unfold matrix_inv, set_position.
  cbn [columns rows drop_positions drop_speeds drop_active].
  rewrite length_insert. repeat (split; [assumption|]). split; [|assumption].
  apply Forall_insert; [exact Fp|]. split; assumption.
Qed.

Lemma matrix_inv_set_speed (s : t) (col v : Z) :
  1 <= v <= 3 -> matrix_inv s -> matrix_inv (set_speed s col v).
Proof.
  intros H1 (C & R & Lp & Ls & La & Fp & Fs). unfold matrix_inv, set_speed.
  cbn [columns rows drop_positions drop_speeds drop_active].
  rewrite length_insert. repeat (split; [assumption|]).
  apply Forall_insert; [exact Fs|]. exact H1.
Qed.

Lemma matrix_inv_set_active (s : t) (col : Z) (a : bool) :
  matrix_inv s -> matrix_inv (set_active s col a).
Proof.
  intros (C & R & Lp & Ls & La & Fp & Fs). unfold matrix_inv, set_active.
  cbn [columns rows drop_positions drop_speeds drop_active].
  rewrite length_insert. repeat (split; [assumption|]). assumption.
Qed.

Lemma randint_Q (a b : Z) (g : Random.rng) (lo hi : Q) :
  a <= b -> (lo <= inject_Z a)%Q -> (inject_Z b <= hi)%Q ->
  (lo <= inject_Z (fst (Random.randint a b g)))%Q /\
  (inject_Z (fst (Random.randint a b g)) <= hi)%Q.
Proof.
  intros Hab Hlo Hhi. pose proof (randint_range a b g Hab) as [H1 H2].
  rewrite Zle_Qle in H1, H2. split; lra.
Qed.

Lemma matrix_inv_init_drop (st : t * Random.rng) (i : Z) :
  matrix_inv (fst st) -> matrix_inv (fst (init_drop st i)).
Proof.
  destruct st as [s g]. cbn [fst]. intros H. unfold init_drop.
  destruct H as (C & R & H'). pose proof (conj C (conj R H')) as H. rewrite R.
  pose proof (randint_Q (-10) 15 g (-15) 20 ltac:(lia) ltac:(discriminate)
                ltac:(discriminate)) as [P1 P2].
  destruct (Random.randint (-10) 15 g) as [p g1]. cbn [fst] in P1, P2.
  pose proof (choice_speed g1) as V.
  destruct (Random.choice 1 [1; 2; 3] g1) as [v g2]. cbn [fst] in V.
  destruct (Random.choice true [true; false] g2) as [a g3]. cbn [fst].
  apply matrix_inv_set_active, matrix_inv_set_speed; [exact V|].
  apply matrix_inv_set_position; assumption.
Qed.

Lemma matrix_inv_fold {A} (f : t * Random.rng -> A -> t * Random.rng)
    (l : list A) :
  (forall st a, matrix_inv (fst st) -> matrix_inv (fst (f st a))) ->
  forall st, matrix_inv (fst st) -> matrix_inv (fst (fold_left f l st)).
Proof.
  intros Hf. induction l as [|a l IH]; intros st H; cbn [fold_left]; [exact H|].
  apply IH, Hf, H.
Qed.

Lemma matrix_inv_reset (s : t) : matrix_inv s -> matrix_inv (reset s).
Proof. intros H. exact H. Qed.

Lemma matrix_inv_init (g : Random.rng) : matrix_inv (fst (__init__ g)).
Proof.
  unfold __init__.
  match goal with |- context [fold_left init_drop ?l ?st] =>
    pose proof (matrix_inv_fold init_drop l matrix_inv_init_drop st) as H;
    destruct (fold_left init_drop l st) as [s1 g1] end.
  cbn [fst] in *. apply matrix_inv_reset, H.
  unfold matrix_inv.
  cbn [columns rows drop_positions drop_speeds drop_active].
  repeat (split; [reflexivity|]). split.
  - apply Forall_replicate. split; discriminate.
  - apply Forall_replicate. lia.
Qed.

Lemma position_set_position_eq (s : t) (col : Z) (p : Q) :
  0 <= col < 20 -> matrix_inv s -> position (set_position s col p) col = p.
Proof.
  intros Hc (_ & _ & Lp & _). unfold position, set_position.
  cbn [drop_positions]. rewrite list_lookup_insert_eq by lia. reflexivity.
Qed.

Lemma set_position_twice (s : t) (col : Z) (p p' : Q) :
  set_position (set_position s col p) col p' = set_position s col p'.
Proof.
  unfold set_position. cbn [columns rows palette drop_positions drop_speeds
                            drop_active time].
  rewrite list_insert_insert_eq. reflexivity.
Qed.

Lemma matrix_inv_col_step (st : t * Random.rng * list write) (col : Z) :
  0 <= col < 20 ->
  matrix_inv (fst (fst st)) -> matrix_inv (fst (fst (col_step st col))).
Proof.
  destruct st as [[s g] ws]. cbn [fst]. intros Hc H. unfold col_step.
  destruct (matrix_position_in s col Hc H) as [P1 P2].
  pose proof (matrix_speed_in s col Hc H) as V.
  destruct (active s col).
  - rewrite position_set_position_eq by assumption.
    assert (R : rows (set_position s col
                        (position s col + inject_Z (speed s col) * (3 # 10))) = 15)
      by (destruct H as (_ & R & _); exact R).
    rewrite R.
    assert (V1 : (1 <= inject_Z (speed s col))%Q)
      by (rewrite <- (Zle_Qle 1); lia).
    destruct (Py.gt_Q _ _) eqn:E.
    + pose proof (randint_Q (-15) (-5) g (-15) 20 ltac:(lia)
                    ltac:(discriminate) ltac:(discriminate)) as [Q1 Q2].
      destruct (Random.randint (-15) (-5) g) as [p2 g1]. cbn [fst] in Q1, Q2.
      pose proof (choice_speed g1) as V2.
      destruct (Random.choice 1 [1; 2; 3] g1) as [v g2]. cbn [fst] in V2.
      destruct (Random.choice true [true; true; true; false] g2) as [a g3].
      cbn [fst].
      apply matrix_inv_set_active, matrix_inv_set_speed; [exact V2|].
      rewrite set_position_twice.
      apply matrix_inv_set_position; assumption.
    + cbn [fst]. apply gt_false in E. change (inject_Z (15 + 5)) with 20%Q in E.
      apply matrix_inv_set_position; [lra|exact E|exact H].
  - destruct (Random.randint 0 100 g) as [r g1].
    destruct (r <? 5).
    + pose proof (randint_Q (-15) (-5) g1 (-15) 20 ltac:(lia)
                    ltac:(discriminate) ltac:(discriminate)) as [Q1 Q2].
      destruct (Random.randint (-15) (-5) g1) as [p2 g2]. cbn [fst] in *.
      apply matrix_inv_set_position; [assumption..|].
      apply matrix_inv_set_active, H.
    + exact H.
Qed.

Lemma fold_left_inv_in {S A} (P : S -> Prop) (f : S -> A -> S) (l : list A) :
  (forall st a, In a l -> P st -> P (f st a)) ->
  forall st, P st -> P (fold_left f l st).
Proof.
  induction l as [|a l IH]; intros Hf st H; cbn [fold_left]; [exact H|].
  apply IH.
  - intros st' a' Ha'. apply Hf. right. exact Ha'.
  - apply Hf; [left; reflexivity|exact H].
Qed.

Lemma matrix_inv_update (s : t) (g : Random.rng) :
  matrix_inv s -> matrix_inv (fst (fst (update s g))).
Proof.
  intros H. unfold update.
  apply (fold_left_inv_in (fun st => matrix_inv (fst (fst st)))).
  - intros st col Hc. apply matrix_inv_col_step.
    apply in_range in Hc. destruct H as (C & _). rewrite C in Hc. exact Hc.
  - exact H.
Qed.

(** X15.  The Matrix rain keeps its shape: whatever updates and resets are
    made and whatever the random source draws, the three per-column lists
    keep their 20 entries (no index of [update] is out of range), every
    speed is 1, 2 or 3 and every drop position lies in [-15, 20], between
    the highest respawn point and the row [rows + 5] where a drop is
    recycled. *)
Theorem matrix_rain_keeps_its_shape :
  forall (g : Random.rng) (cs : list call),
    matrix_inv
      (fst (after_random (fun s g => fst (update s g))
                         (fun s g => (reset s, g)) cs (__init__ g))).
Proof.
  intros g cs. generalize (matrix_inv_init g).
  generalize (__init__ g) as st. induction cs as [|c cs IH]; intros st H.
  - exact H.
  - unfold after_random. cbn [fold_left]. apply IH.
    destruct c; cbn [fst].
    + apply matrix_inv_update, H.
    + apply matrix_inv_reset, H.
Qed.

Lemma in_trail_writes (rows col drop_y : Z) (w : write) :
  In w (trail_writes rows col drop_y) <->
  exists trail, 0 <= trail < 8 /\ 0 <= drop_y - trail < rows /\
                w = (col, drop_y - trail, trail_brightness trail).
Proof.
  unfold trail_writes. rewrite in_flat_map. split.
  - intros (trail & Ht & Hw). apply in_range in Ht. exists trail.
    destruct (Z.leb_spec 0 (drop_y - trail)), (Z.ltb_spec (drop_y - trail) rows);
      cbn [andb In] in Hw; try contradiction.
    destruct Hw as [<-|[]]. repeat split; lia.
  - intros (trail & Ht & Hy & ->). exists trail.
    split; [apply in_range_iff, Ht|].
    destruct (Z.leb_spec 0 (drop_y - trail)), (Z.ltb_spec (drop_y - trail) rows);
      try lia.
    left. reflexivity.
Qed.

(** What the trail of one drop leaves on the bitmap. *)
Lemma trail_painted (rows col drop_y : Z) (before : Z * Z -> Z) (x y : Z) :
  0 <= y < rows ->
  painted before (trail_writes rows col drop_y) (x, y) =
  if (x =? col) && (0 <=? drop_y - y) && (drop_y - y <? 8)
  then trail_brightness (drop_y - y) else before (x, y).
Proof.
  intros Hy.
  destruct (Z.eqb_spec x col) as [->|Hx];
    [destruct (Z.leb_spec 0 (drop_y - y)), (Z.ltb_spec (drop_y - y) 8)|];
    cbn [andb].
  1: { apply painted_agree.
       - intros w Hw Hp. apply in_trail_writes in Hw.
         destruct Hw as (trail & _ & _ & ->). unfold pixel in Hp. cbn [fst] in Hp.
         inversion Hp. unfold Bitmap.value. cbn [snd]. f_equal. lia.
       - right. exists (col, y, trail_brightness (drop_y - y)).
         split; [|reflexivity]. apply in_trail_writes. exists (drop_y - y).
         repeat split; try lia. do 2 f_equal. lia. }
  all: apply painted_untouched; intros w Hw Hp; apply in_trail_writes in Hw;
       destruct Hw as (trail & Ht & _ & ->); unfold pixel in Hp; cbn [fst] in Hp;
       inversion Hp; lia.
Qed.

(** What one column of the loop does: it appends the trail of its drop and
    touches the drop of no other column. *)
Lemma col_step_frame (s : t) (g : Random.rng) (ws : list write) (col : Z) :
  0 <= col ->
  rows (fst (fst (col_step (s, g, ws) col))) = rows s /\
  snd (col_step (s, g, ws) col) =
    ws ++ (if active s col
           then trail_writes (rows s) col (Py.int_Q (position s col)) else []) /\
  forall x, 0 <= x -> x <> col ->
    active (fst (fst (col_step (s, g, ws) col))) x = active s x /\
    position (fst (fst (col_step (s, g, ws) col))) x = position s x.
Proof.
  intros Hc.
  assert (Hne : forall x, 0 <= x -> x <> col -> Z.to_nat col <> Z.to_nat x)
    by (intros; lia).
  unfold col_step. destruct (active s col) eqn:Ea.
  - destruct (Py.gt_Q _ _).
    + destruct (Random.randint (-15) (-5) g) as [p2 g1].
      destruct (Random.choice 1 [1; 2; 3] g1) as [v g2].
      destruct (Random.choice true [true; true; true; false] g2) as [a g3].
      cbn [fst snd]. split; [reflexivity|]. split; [reflexivity|].
      intros x Hx Hxc. specialize (Hne x Hx Hxc).
      unfold active, position, set_active, set_speed, set_position.
      cbn [drop_active drop_positions].
      rewrite !list_lookup_insert_ne by exact Hne. split; reflexivity.
    + cbn [fst snd]. split; [reflexivity|]. split; [reflexivity|].
      intros x Hx Hxc. specialize (Hne x Hx Hxc).
      unfold active, position, set_position. cbn [drop_active drop_positions].
      rewrite !list_lookup_insert_ne by exact Hne. split; reflexivity.
  - destruct (Random.randint 0 100 g) as [r g1]. destruct (r <? 5).
    + destruct (Random.randint (-15) (-5) g1) as [p2 g2].
      cbn [fst snd]. split; [reflexivity|].
      split; [rewrite app_nil_r; reflexivity|].
      intros x Hx Hxc. specialize (Hne x Hx Hxc).
      unfold active, position, set_active, set_position.
      cbn [drop_active drop_positions].
      rewrite !list_lookup_insert_ne by exact Hne. split; reflexivity.
    + cbn [fst snd]. split; [reflexivity|].
      split; [rewrite app_nil_r; reflexivity|]. intros; split; reflexivity.
Qed.

Lemma matrix_fold_painted (cols : list Z) :
  NoDup cols -> (forall c, In c cols -> 0 <= c) ->
  forall (s : t) (g : Random.rng) (ws : list write)
         (before : Z * Z -> Z) (x y : Z),
    0 <= x -> 0 <= y < rows s ->
    let d := Py.int_Q (position s x) - y in
    let final := painted before (snd (fold_left col_step cols (s, g, ws))) (x, y) in
    (In x cols ->
       final = if active s x && (0 <=? d) && (d <? 8)
               then trail_brightness d else painted before ws (x, y)) /\
    (~ In x cols -> final = painted before ws (x, y)).
Proof.
  induction cols as [|c cols IH]; intros Hnd Hpos s g ws before x y Hx Hy d final.
  - split; [intros []|reflexivity].
  - apply NoDup_cons in Hnd. destruct Hnd as [Hc Hnd].
    rewrite list_elem_of_In in Hc.
    destruct (col_step_frame s g ws c (Hpos c (or_introl eq_refl)))
      as (Hr & Hw & Hother).
    unfold final. cbn [fold_left].
    destruct (col_step (s, g, ws) c) as [[s1 g1] ws1]. cbn [fst snd] in Hr, Hw, Hother.
    destruct (IH Hnd (fun c' H => Hpos c' (or_intror H)) s1 g1 ws1 before x y Hx
                ltac:(rewrite Hr; exact Hy)) as [IH1 IH2].
    assert (Hhere : x = c ->
              painted before ws1 (x, y) =
              if active s x && (0 <=? d) && (d <? 8)
              then trail_brightness d else painted before ws (x, y)).
    { intros ->. rewrite Hw, painted_app. destruct (active s c); cbn [andb].
      - rewrite trail_painted by exact Hy. rewrite Z.eqb_refl. reflexivity.
      - reflexivity. }
    assert (Hthere : x <> c -> painted before ws1 (x, y) = painted before ws (x, y)).
    { intros Hxc. rewrite Hw, painted_app. destruct (active s c); [|reflexivity].
      rewrite trail_painted by exact Hy.
      destruct (Z.eqb_spec x c); [contradiction|reflexivity]. }
    split.
    + intros [->|Hin].
      * rewrite IH2 by exact Hc. apply Hhere. reflexivity.
      * assert (Hxc : x <> c) by (intros ->; contradiction).
        destruct (Hother x Hx Hxc) as [Ea Ep].
        rewrite IH1 by exact Hin. rewrite Ea, Ep. fold d.
        rewrite (Hthere Hxc). reflexivity.
    + intros Hnin.
      assert (Hxc : x <> c) by (intros ->; apply Hnin; left; reflexivity).
      rewrite IH2 by (intros Hin; apply Hnin; right; exact Hin).
      apply Hthere, Hxc.
Qed.

Lemma NoDup_range (n : Z) : NoDup (Py.range n).
Proof.
  rewrite range_seq. apply (NoDup_fmap_2 Z.of_nat). apply NoDup_seq.
Qed.

(** X16.  What a frame of the Matrix rain shows: every pixel of a column
    whose drop is falling, up to seven rows above the head of the drop,
    holds the brightness of its place in the trail (15 at the head, then
    13, 11, ... 1), and every other pixel of the bitmap is black, whatever
    the bitmap held before.  The head is where the drop stood before this
    frame moved it. *)
Theorem matrix_frame_shows_the_trails :
  forall (s : t) (g : Random.rng) (before : Z * Z -> Z) (x y : Z),
    0 <= x < columns s -> 0 <= y < rows s ->
    painted before (snd (update s g)) (x, y) =
    let d := Py.int_Q (position s x) - y in
    if active s x && (0 <=? d) && (d <? 8) then trail_brightness d else 0.
Proof.
  intros s g before x y Hx Hy. unfold update.
  match goal with |- context [fold_left col_step _ (?s1, g, ?ws)] =>
    destruct (matrix_fold_painted (Py.range (columns s)) (NoDup_range _)
                (fun c H => proj1 (in_range _ _ H))
                s1 g ws before x y ltac:(lia) Hy) as [H _] end.
  rewrite H by (apply in_range_iff; exact Hx).
  unfold clear.
  destruct (grid_frame_repaints (columns s) (rows s) (fun _ _ => 0)) as [_ Hp].
  cbn [columns rows]. rewrite (Hp before x y Hx Hy). reflexivity.
Qed.

Lemma matrix_frame_shows_the_trails_witness :
  painted (fun _ => 7)
    (snd (update (fst (__init__ (Random.constant 12 0)))
                 (snd (__init__ (Random.constant 12 0))))) (3, 1) = 13.
Proof.
  rewrite (matrix_frame_shows_the_trails _ _ (fun _ => 7) 3 1).
  - vm_compute. reflexivity.
  - vm_compute. split; [discriminate|reflexivity].
  - vm_compute. split; [discriminate|reflexivity].
Defined.

End MatrixRain.

(* ------------------------------------------------------------------ *)
(** ** No write leaves the bitmap *)

Lemma fold_writes_Forall {S A} (P : write -> Prop) (I : S -> Prop)
    (ws_of : S -> list write) (f : S -> A -> S) (l : list A) :
  (forall st a, In a l -> I st -> Forall P (ws_of st) ->
                I (f st a) /\ Forall P (ws_of (f st a))) ->
  forall st, I st -> Forall P (ws_of st) ->
             Forall P (ws_of (fold_left f l st)).
Proof.
  induction l as [|a l IH]; intros Hf st Hi Hst; cbn [fold_left]; [exact Hst|].
  destruct (Hf st a (or_introl eq_refl) Hi Hst) as [Hi' Hst'].
  apply IH; [|exact Hi'|exact Hst'].
  intros st' a' Ha'. apply Hf. right. exact Ha'.
Qed.

Lemma grid_frame_on_bitmap (w h : Z) (index : Z -> Z -> Z) :
  Forall (on_bitmap w h)
    (flat_map (fun y => map (fun x => (x, y, index x y)) (Py.range w))
              (Py.range h)).
Proof. apply grid_frame_repaints. Qed.

Lemma block2x2_on_bitmap (w h x y c : Z) :
  0 <= x < w -> 0 <= y < h -> Forall (on_bitmap w h) (Bitmap.block2x2 w h x y c).
Proof.
  intros Hx Hy. apply Forall_In_intro. intros wr Hw. apply in_block2x2 in Hw.
  unfold on_bitmap. lia.
Qed.

Lemma matrix_update_on_bitmap (s : MatrixEffect.t) (g : Random.rng) :
  Forall (on_bitmap (MatrixEffect.columns s) (MatrixEffect.rows s))
         (snd (MatrixEffect.update s g)).
Proof.
  unfold MatrixEffect.update.
  apply (fold_writes_Forall _
           (fun st => MatrixEffect.rows (fst (fst st)) = MatrixEffect.rows s) snd).
  - intros [[s1 g1] ws] col Hc Hr Hws. cbn [fst snd] in Hr, Hws.
    apply in_range in Hc.
    destruct (col_step_frame s1 g1 ws col ltac:(lia)) as (Hr' & Hw & _).
    split; [congruence|]. rewrite Hw. apply Forall_app. split; [exact Hws|].
    destruct (MatrixEffect.active s1 col); [|constructor].
    apply Forall_In_intro. intros wr Hin. apply in_trail_writes in Hin.
    destruct Hin as (trail & _ & Hy & ->). unfold on_bitmap, pixel. cbn [fst snd].
    rewrite <- Hr. lia.
  - reflexivity.
  - cbn [snd]. unfold MatrixEffect.clear. apply grid_frame_on_bitmap.
Qed.

Lemma star_step_on_bitmap (s : StarfieldEffect.t) (warp : R)
    (acc : list StarfieldEffect.star * Random.rng * list write)
    (st : StarfieldEffect.star) :
  Forall (on_bitmap (StarfieldEffect.width s / 2) (StarfieldEffect.height s / 2))
         (snd acc) ->
  Forall (on_bitmap (StarfieldEffect.width s / 2) (StarfieldEffect.height s / 2))
         (snd (StarfieldEffect.star_step s warp acc st)).
Proof.
  destruct acc as [[done g] ws]. cbn [snd]. intros Hws.
  unfold StarfieldEffect.star_step.
  match goal with |- context [if ?a || ?b || ?c || ?d || ?e then _ else _] =>
    destruct a eqn:E1; [|destruct b eqn:E2; [|destruct c eqn:E3;
      [|destruct d eqn:E4; [|destruct e eqn:E5]]]] end;
    cbn [orb].
  1-5: destruct (StarfieldEffect._reset_star s g) as [st1 g1]; exact Hws.
  cbn [snd]. apply Forall_app. split; [exact Hws|].
  apply Z.ltb_ge in E1, E3. apply Z.leb_gt in E2, E4.
  destruct (Rgt_dec _ _).
  - apply block2x2_on_bitmap; lia.
  - constructor; [|constructor]. unfold on_bitmap, pixel. cbn [fst snd]. lia.
Qed.

Lemma starfield_update_on_bitmap (s : StarfieldEffect.t) (g : Random.rng) :
  Forall (on_bitmap (StarfieldEffect.width s / 2) (StarfieldEffect.height s / 2))
         (snd (StarfieldEffect.update s g)).
Proof.
  unfold StarfieldEffect.update.
  pose proof (fold_writes_Forall
                (on_bitmap (StarfieldEffect.width s / 2) (StarfieldEffect.height s / 2))
                (fun _ => True) snd
                (StarfieldEffect.star_step s
                   (1.0 + 0.5 * sin ((StarfieldEffect.time s + 0.1) * 0.3)))
                (StarfieldEffect.stars s)
                (fun st a _ _ H => conj I (star_step_on_bitmap s _ st a H))
                ([], g, StarfieldEffect.clear s) I) as H.
  destruct (fold_left _ _ _) as [[l g1] ws]. cbn [snd] in *. apply H.
  unfold StarfieldEffect.clear. apply grid_frame_on_bitmap.
Qed.

Section StreamersBitmap.
Import StreamersEffect.

Lemma draw_column_on_bitmap (w h : Z) (st : streamer)
    (acc : option (Z * Z) * list write) (x : Z) :
  Forall (on_bitmap (w / 2) (h / 2)) (snd acc) ->
  Forall (on_bitmap (w / 2) (h / 2)) (snd (draw_column w h st acc x)).
Proof.
  destruct acc as [prev ws]. cbn [snd]. intros Hws. unfold draw_column.
  destruct (Z.leb_spec 0 x), (Z.ltb_spec x (w / 2)); cbn [andb]; try exact Hws.
  cbn [snd]. apply Forall_app. split; [exact Hws|].
  apply Forall_flat_map_intro. intros k _.
  match goal with |- context [(0 <=? ?py) && (?py <? h / 2)] =>
    destruct (Z.leb_spec 0 py), (Z.ltb_spec py (h / 2)) end;
    cbn [andb]; try constructor.
  - unfold on_bitmap, pixel. cbn [fst snd]. lia.
  - destruct prev as [[prev_x prev_y]|]; [|constructor].
    destruct (_ && _); [|constructor].
    match goal with |- context [(0 <=? ?m) && (?m <? h / 2) && (0 <=? prev_x)
                                && (prev_x <? w / 2)] =>
      destruct (Z.leb_spec 0 m), (Z.ltb_spec m (h / 2)),
               (Z.leb_spec 0 prev_x), (Z.ltb_spec prev_x (w / 2)) end;
      cbn [andb]; try constructor; [|constructor].
    unfold on_bitmap, pixel. cbn [fst snd]. lia.
Qed.

Lemma draw_wavy_streamer_on_bitmap (w h : Z) (st : streamer) :
  Forall (on_bitmap (w / 2) (h / 2)) (_draw_wavy_streamer w h st).
Proof.
  unfold _draw_wavy_streamer.
  apply (fold_writes_Forall _ (fun _ => True) snd).
  - intros acc x _ _ H. split; [exact I|]. apply draw_column_on_bitmap, H.
  - exact I.
  - constructor.
Qed.

Lemma streamer_step_on_bitmap (w h : Z)
    (acc : list streamer * Random.rng * list write) (st : streamer) :
  Forall (on_bitmap (w / 2) (h / 2)) (snd acc) ->
  Forall (on_bitmap (w / 2) (h / 2)) (snd (streamer_step w h acc st)).
Proof.
  destruct acc as [[done g0] ws]. cbn [snd]. intros Hacc. unfold streamer_step.
  destruct (move w h st g0) as [st1 g1]. cbn [snd].
  apply Forall_app. split; [exact Hacc|apply draw_wavy_streamer_on_bitmap].
Qed.

Lemma streamers_update_on_bitmap (s : t) (g : Random.rng) :
  Forall (on_bitmap (width s / 2) (height s / 2)) (snd (update s g)).
Proof.
  unfold update.
  pose proof (fold_writes_Forall
                (on_bitmap (width s / 2) (height s / 2)) (fun _ => True) snd
                (streamer_step (width s) (height s)) (streamers s)
                (fun acc st _ _ Hacc =>
                   conj I (streamer_step_on_bitmap _ _ acc st Hacc))
                ([], g, clear s) I) as H.
  destruct (fold_left _ _ _) as [[l g1] ws]. cbn [snd] in *. apply H.
  unfold clear. apply grid_frame_on_bitmap.
Qed.

End StreamersBitmap.

(** X17.  The three effects that compute the coordinates of what they draw
    never write outside their bitmap, whatever their state and the random
    draws: every trail pixel of the Matrix rain, every star (also the 2x2
    stars, whose [except IndexError] handler is therefore never entered)
    and every pixel and connecting pixel of a streamer lies on the bitmap. *)
Theorem sprite_effects_never_write_outside_the_bitmap :
  (forall (s : MatrixEffect.t) (g : Random.rng),
     Forall (on_bitmap (MatrixEffect.columns s) (MatrixEffect.rows s))
            (snd (MatrixEffect.update s g))) /\
  (forall (s : StarfieldEffect.t) (g : Random.rng),
     Forall (on_bitmap (StarfieldEffect.width s / 2) (StarfieldEffect.height s / 2))
            (snd (StarfieldEffect.update s g))) /\
  (forall (s : StreamersEffect.t) (g : Random.rng),
     Forall (on_bitmap (StreamersEffect.width s / 2) (StreamersEffect.height s / 2))
            (snd (StreamersEffect.update s g))).
Proof.
  split; [exact matrix_update_on_bitmap|].
  split; [exact starfield_update_on_bitmap|exact streamers_update_on_bitmap].
Qed.

(* ------------------------------------------------------------------ *)
(** ** The starfield *)

Lemma uniform_range (a b : R) (g : Random.rng) :
  (a <= b)%R -> (a <= fst (Random.uniform a b g) <= b)%R.
Proof.
  intros Hab. unfold Random.uniform. cbn [fst].
  set (u := Random.unit_draws g (Random.cursor g)).
  assert (H : (0 <= Rmax 0 (Rmin 1 u) <= 1)%R).
  { unfold Rmax, Rmin. destruct (Rle_dec 1 u), (Rle_dec 0 _); lra. }
  nra.
Qed.

Section Starfield.
Import StarfieldEffect.

(** A star made by [random_star] lies at a distance of [d_lo .. d_hi] from
    the centre and at a depth of [z_lo .. z_hi]. *)
Lemma random_star_spec (cx cy : Z) (d_lo d_hi z_lo z_hi : R) (g : Random.rng) :
  (0 <= d_lo <= d_hi)%R -> (z_lo <= z_hi)%R ->
  let st := fst (random_star cx cy d_lo d_hi z_lo z_hi g) in
  5 <= brightness st <= 15 /\ (0.5 <= speed st <= 2)%R /\
  (z_lo <= z st <= z_hi)%R /\
  (d_lo * d_lo <= (x st - IZR cx) * (x st - IZR cx)
                  + (y st - IZR cy) * (y st - IZR cy) <= d_hi * d_hi)%R /\
  (- d_hi <= x st - IZR cx <= d_hi)%R /\ (- d_hi <= y st - IZR cy <= d_hi)%R.
Proof.
  intros Hd Hz. unfold random_star.
  destruct (Random.uniform 0 (2 * 3.14159) g) as [angle g1].
  pose proof (uniform_range d_lo d_hi g1 ltac:(lra)) as D.
  destruct (Random.uniform d_lo d_hi g1) as [distance g2].
  pose proof (uniform_range z_lo z_hi g2 Hz) as Z.
  destruct (Random.uniform z_lo z_hi g2) as [depth g3].
  pose proof (randint_range 5 15 g3 ltac:(lia)) as B.
  destruct (Random.randint 5 15 g3) as [b g4].
  pose proof (uniform_range 0.5 2.0 g4 ltac:(lra)) as V.
  destruct (Random.uniform 0.5 2.0 g4) as [v g5].
  cbn [fst] in *. cbv zeta. cbn [x y z brightness speed].
  split; [exact B|]. split; [lra|]. split; [exact Z|].
  pose proof (sin2_cos2 angle) as SC. unfold Rsqr in SC.
  pose proof (SIN_bound angle) as [S1 S2].
  pose proof (COS_bound angle) as [C1 C2].
  set (c := cos angle) in *. set (sn := sin angle) in *.
  replace (IZR cx + distance * c - IZR cx)%R with (distance * c)%R by ring.
  replace (IZR cy + distance * sn - IZR cy)%R with (distance * sn)%R by ring.
  assert (E : (distance * c * (distance * c) + distance * sn * (distance * sn)
               = distance * distance)%R).
  { replace (distance * c * (distance * c) + distance * sn * (distance * sn))%R
      with (distance * distance * (sn * sn + c * c))%R by ring.
    rewrite SC. ring. }
  rewrite E. split; [nra|].
  split; nra.
Qed.

Lemma random_star_ok (cx cy : Z) (d_lo d_hi z_lo z_hi : R) (g : Random.rng) :
  (0 <= d_lo <= d_hi)%R -> (1 <= z_lo)%R -> (z_lo <= z_hi)%R -> (z_hi <= 50)%R ->
  star_ok (fst (random_star cx cy d_lo d_hi z_lo z_hi g)).
Proof.
  intros Hd H1 Hz H2.
  destruct (random_star_spec cx cy d_lo d_hi z_lo z_hi g Hd Hz)
    as (B & V & Z & _).
  split; [exact B|]. split; [exact V|]. lra.
Qed.

Lemma init_stars_spec (s : t) (g : Random.rng) :
  let s1 := fst (_init_stars s g) in
  width s1 = width s /\ height s1 = height s /\
  center_x s1 = center_x s /\ center_y s1 = center_y s /\
  num_stars s1 = num_stars s /\
  length (stars s1) = Z.to_nat (num_stars s) /\
  Forall star_ok (stars s1).
Proof.
  unfold _init_stars.
  assert (H : forall (l : list Z) (acc : list star * Random.rng),
            let r := fold_left
                       (fun acc _ =>
                          let '(st, g') :=
                            random_star (center_x s) (center_y s) 1 100 1 50
                                        (snd acc) in
                          (fst acc ++ [st], g')) l acc in
            length (fst r) = (length (fst acc) + length l)%nat /\
            (Forall star_ok (fst acc) -> Forall star_ok (fst r))).
  { induction l as [|a l IH]; intros acc; cbn [fold_left].
    - split; [cbn [length]; lia|auto].
    - cbv zeta in IH.
      pose proof (random_star_ok (center_x s) (center_y s) 1 100 1 50 (snd acc)
                    ltac:(lra) ltac:(lra) ltac:(lra) ltac:(lra)) as Hok.
      destruct (random_star _ _ 1 100 1 50 (snd acc)) as [st g'].
      cbn [fst] in Hok.
      destruct (IH (fst acc ++ [st], g')) as [L F]. cbn [fst] in L, F.
      rewrite length_app in L. cbn [length] in L |- *. split; [lia|].
      intros Hacc. apply F, Forall_app. split; [exact Hacc|].
      constructor; [exact Hok|constructor]. }
  specialize (H (Py.range (num_stars s)) ([], g)). cbv zeta in H.
  destruct (fold_left _ _ _) as [l g1]. cbn [fst length] in H |- *.
  cbn [width height center_x center_y num_stars stars].
  destruct H as [L F]. repeat (split; [reflexivity|]). split.
  - rewrite L, range_seq, length_map, length_seq. reflexivity.
  - apply F. constructor.
Qed.

Lemma starfield_inv_reset (s : t) (g : Random.rng) :
  starfield_inv s -> starfield_inv (fst (reset s g)).
Proof.
  intros (W & H & CX & CY & N & _). unfold reset.
  match goal with |- context [_init_stars ?s0 g] =>
    destruct (init_stars_spec s0 g) as (W1 & H1 & CX1 & CY1 & N1 & L1 & F1) end.
  cbn [width height center_x center_y num_stars] in *.
  unfold starfield_inv.
  split; [rewrite W1; exact W|]. split; [rewrite H1; exact H|].
  split; [rewrite CX1; exact CX|]. split; [rewrite CY1; exact CY|].
  split; [rewrite N1; exact N|].
  split; [rewrite L1, N; reflexivity|exact F1].
Qed.

Lemma starfield_inv_init (g : Random.rng) : starfield_inv (fst (__init__ g)).
Proof.
  unfold __init__.
  match goal with |- context [_init_stars ?s0 g] =>
    destruct (init_stars_spec s0 g) as (W1 & H1 & CX1 & CY1 & N1 & L1 & F1);
    destruct (_init_stars s0 g) as [s1 g1] end.
  cbn [fst width height center_x center_y num_stars] in *.
  apply starfield_inv_reset. unfold starfield_inv.
  split; [rewrite W1; reflexivity|]. split; [rewrite H1; reflexivity|].
  split; [rewrite CX1; reflexivity|]. split; [rewrite CY1; reflexivity|].
  split; [rewrite N1; reflexivity|].
  split; [rewrite L1; reflexivity|exact F1].
Qed.

(** One star of the frame: the list of stars grows by one star, which is
    either a respawned star or the star moved outward and closer. *)
Lemma star_step_ok (s : t) (warp : R)
    (acc : list star * Random.rng * list write) (st : star) :
  (0.5 <= warp <= 1.5)%R -> star_ok st ->
  center_x s = 80 -> center_y s = 60 -> width s = 320 -> height s = 240 ->
  exists st',
    fst (fst (star_step s warp acc st)) = fst (fst acc) ++ [st'] /\
    star_ok st' /\ star_on_screen s st'.
Proof.
  intros Hw (B & V & Z) CX CY W H. destruct acc as [[done g] ws].
  unfold star_step, star_on_screen. rewrite W, H.
  change (320 / 2) with 160. change (240 / 2) with 120.
  match goal with |- context [if ?a || ?b || ?c || ?d || ?e then _ else _] =>
    destruct (a || b || c || d) eqn:E; [|destruct e eqn:E5] end;
    cbn [orb].
  1,2: unfold _reset_star; rewrite CX, CY;
       destruct (random_star_spec 80 60 1 5 30 50 g ltac:(lra) ltac:(lra))
         as (B' & V' & Z' & _ & X' & Y');
       destruct (random_star 80 60 1 5 30 50 g) as [st1 g1];
       cbn [fst] in *; exists st1; split; [reflexivity|];
       split; [split; [exact B'|split; [exact V'|lra]]|];
       pose proof (int_R_range (x st1) 75 85 ltac:(lra) ltac:(lra));
       pose proof (int_R_range (y st1) 55 65 ltac:(lra) ltac:(lra));
       lia.
  cbn [fst]. eexists. split; [reflexivity|].
  apply orb_false_iff in E. destruct E as [E E4].
  apply orb_false_iff in E. destruct E as [E E3].
  apply orb_false_iff in E. destruct E as [E1 E2].
  apply Z.ltb_ge in E1, E3. apply Z.leb_gt in E2, E4.
  destruct (Rlt_dec _ 1) as [Hz|Hz]; [discriminate|].
  split.
  - split; [exact B|]. split; [exact V|]. cbn [z]. split; [lra|nra].
  - cbn [x y]. lia.
Qed.

Lemma starfield_inv_update (s : t) (g : Random.rng) :
  starfield_inv s ->
  starfield_inv (fst (fst (update s g))) /\
  Forall (star_on_screen s) (stars (fst (fst (update s g)))).
Proof.
  intros (W & H & CX & CY & N & L & F). unfold update.
  pose proof (SIN_bound ((time s + 0.1) * 0.3)) as [S1 S2].
  set (warp := (1.0 + 0.5 * sin ((time s + 0.1) * 0.3))%R).
  assert (Hw : (0.5 <= warp <= 1.5)%R) by (unfold warp; lra).
  clearbody warp.
  assert (G : forall (l : list star) (acc : list star * Random.rng * list write),
            Forall star_ok l ->
            let r := fold_left (star_step s warp) l acc in
            length (fst (fst r)) = (length (fst (fst acc)) + length l)%nat /\
            (Forall star_ok (fst (fst acc)) -> Forall star_ok (fst (fst r))) /\
            (Forall (star_on_screen s) (fst (fst acc)) ->
             Forall (star_on_screen s) (fst (fst r)))).
  { induction l as [|st l IH]; intros acc Hl; cbn [fold_left].
    - split; [cbn [length]; lia|auto].
    - cbv zeta in IH. inversion Hl as [|st0 l0 Hst Hl']; subst.
      destruct (star_step_ok s warp acc st Hw Hst CX CY W H)
        as (st' & E & Ok & On).
      destruct (IH (star_step s warp acc st) Hl') as (L1 & F1 & O1).
      rewrite E in L1, F1, O1. rewrite length_app in L1.
      cbn [length] in L1 |- *. split; [lia|]. split.
      + intros Hacc. apply F1, Forall_app. split; [exact Hacc|].
        constructor; [exact Ok|constructor].
      + intros Hacc. apply O1, Forall_app. split; [exact Hacc|].
        constructor; [exact On|constructor]. }
  specialize (G (stars s) ([], g, clear s) F). cbv zeta in G.
  destruct (fold_left _ _ _) as [[l g1] ws].
  cbn [fst snd length] in G |- *. destruct G as (L1 & F1 & O1).
  split.
  - unfold starfield_inv. cbn [width height center_x center_y num_stars stars].
    repeat (split; [assumption|]). split; [lia|]. apply F1. constructor.
  - cbn [stars]. apply O1. constructor.
Qed.

(** X18.  The starfield keeps its 150 stars, whatever updates and resets
    are made and whatever the random source draws, and every star keeps a
    brightness of 5..15, a speed of 0.5..2 and a depth of 1..50; so the
    division [30.0 / z] of [update] never meets a depth below 1. *)
Theorem starfield_keeps_its_stars :
  forall (g : Random.rng) (cs : list call),
    starfield_inv
      (fst (after_random (fun s g => fst (update s g)) reset cs (__init__ g))).
Proof.
  intros g cs. generalize (starfield_inv_init g).
  generalize (__init__ g) as st. induction cs as [|c cs IH]; intros st H.
  - exact H.
  - unfold after_random. cbn [fold_left]. apply IH.
    destruct c; cbn [fst].
    + apply starfield_inv_update, H.
    + apply starfield_inv_reset, H.
Qed.

(** X19.  After every update each of the stars is on the screen: a star
    that left the bitmap or came closer than depth 1 has been put back
    within 5 pixels of the centre, and the others were drawn where they
    are.  Only the construction and [reset] can leave stars off screen. *)
Theorem starfield_update_leaves_every_star_on_screen :
  forall (s : t) (g : Random.rng),
    starfield_inv s ->
    Forall (star_on_screen s) (stars (fst (fst (update s g)))).
Proof.
  intros s g H. apply starfield_inv_update, H.
Qed.

Lemma starfield_update_leaves_every_star_on_screen_witness :
  Forall (star_on_screen (fst (__init__ (Random.constant 0 0))))
    (stars (fst (fst (update (fst (__init__ (Random.constant 0 0)))
                             (snd (__init__ (Random.constant 0 0))))))).
Proof.
  apply (starfield_update_leaves_every_star_on_screen
           (fst (__init__ (Random.constant 0 0)))).
  apply starfield_inv_init.
Defined.

(** X20.  A respawned star starts near the vanishing point and far away:
    at a distance of 1..5 pixels from the centre, at a depth of 30..50,
    with a brightness of 5..15 and a speed of 0.5..2. *)
Theorem respawned_star_starts_near_the_centre :
  forall (s : t) (g : Random.rng),
    let st := fst (_reset_star s g) in
    (1 <= (x st - IZR (center_x s)) * (x st - IZR (center_x s))
          + (y st - IZR (center_y s)) * (y st - IZR (center_y s)) <= 25)%R /\
    (30 <= z st <= 50)%R /\
    5 <= brightness st <= 15 /\ (0.5 <= speed st <= 2)%R.
Proof.
  intros s g st. unfold st, _reset_star.
  destruct (random_star_spec (center_x s) (center_y s) 1 5 30 50 g
              ltac:(lra) ltac:(lra)) as (B & V & Z & D & _).
  split; [lra|]. split; [exact Z|]. split; [exact B|exact V].
Qed.

End Starfield.

(* ------------------------------------------------------------------ *)
(** ** The frame rate of the touch scheduler *)

Section TouchFrames.
Import PyPortalScreensaver.

Lemma touch_update_frame_stamp (s : t) (k : tick) :
  (0 <= frame_time s)%Q ->
  let r := update s k in
  frame_time (fst r) = frame_time s /\
  (inject_Z (Z.of_nat (length (renders (snd r)))) * frame_time s
   <= last_frame_time (fst r) - last_frame_time s)%Q.
Proof.
  intros Hf. unfold update, handle_touch.
  assert (Hr : forall l, renders ([ResetEffect l; Switched l]) = []) by reflexivity.
  destruct (touch_value k && _); [|destruct (Py.gt_Q _ _)].
  1: cbn [advance_effect set_last_touch_time last_advance_time auto_advance_time];
     destruct (Py.gt_Q _ _).
  all: cbn [advance_effect frame_time last_frame_time];
       destruct (Qle_bool _ _) eqn:E;
       cbn [fst snd set_last_frame_time set_last_touch_time frame_time
            last_frame_time] in E |- *;
       (split; [reflexivity|]);
       rewrite ?renders_app; cbn [renders flat_map app length];
       [ apply Qle_bool_iff in E; change (inject_Z (Z.of_nat 1)) with 1%Q; lra
       | change (inject_Z (Z.of_nat 0)) with 0%Q; lra ].
Qed.

(** X21.  The touch scheduler renders at most one frame per [frame_time]
    (1/15 s): whatever the clock readings and the touches, the frames
    rendered in a run, each worth [frame_time] seconds, fit between the
    frame stamp the run starts from and the one it ends with. *)
Theorem touch_scheduler_frames_are_rate_limited :
  forall (ticks : list tick) (s : t),
    (0 <= frame_time s)%Q ->
    let r := run s ticks in
    (inject_Z (Z.of_nat (length (renders (snd r)))) * frame_time s
     <= last_frame_time (fst r) - last_frame_time s)%Q.
Proof.
  induction ticks as [|k rest IH]; intros s Hf; cbn [run].
  - cbn [fst snd renders flat_map length].
    change (inject_Z (Z.of_nat 0)) with 0%Q. lra.
  - destruct (touch_update_frame_stamp s k Hf) as (F & T).
    destruct (update s k) as [s1 log1]. cbn [fst snd] in F, T.
    assert (Hf1 : (0 <= frame_time s1)%Q) by (rewrite F; exact Hf).
    pose proof (IH s1 Hf1) as T'. cbv zeta in T'.
    destruct (run s1 rest) as [s2 log2]. cbn [fst snd] in T' |- *.
    rewrite renders_app, length_app, Nat2Z.inj_add, inject_Z_plus.
    rewrite F in T'. lra.
Qed.

Lemma touch_scheduler_frames_are_rate_limited_witness :
  (inject_Z (Z.of_nat (length (renders
     (snd (run (__init__ 0) [release (1 # 10); release (12 # 100); tap 1])))))
   * (1 # 15)
   <= last_frame_time
        (fst (run (__init__ 0) [release (1 # 10); release (12 # 100); tap 1]))
      - 0)%Q.
Proof.
  apply (touch_scheduler_frames_are_rate_limited
           [release (1 # 10); release (12 # 100); tap 1] (__init__ 0)).
  vm_compute. discriminate.
Defined.

End TouchFrames.

(* ------------------------------------------------------------------ *)
(** ** The range of the plasma *)

(** X22.  The plasma never uses its last palette entry: the sum of the two
    sines lies in [-2, 2], so [int((val + 2) * 15.5)] lies in 0..62 and
    the final [% 64] changes nothing. *)
Theorem plasma_never_uses_the_last_palette_entry :
  forall (s : PlasmaEffect.t) (x y : Z),
    0 <= PlasmaEffect.color_idx s x y <= 62 /\
    PlasmaEffect.color_idx s x y =
      Py.int_R ((sin (IZR x * 0.2 + PlasmaEffect.time s)
                 + sin (IZR y * 0.15 + PlasmaEffect.time s * 0.8) + 2.0) * 15.5).
Proof.
  intros s x y. unfold PlasmaEffect.color_idx. cbv zeta.
  pose proof (SIN_bound (IZR x * 0.2 + PlasmaEffect.time s)) as [A1 A2].
  pose proof (SIN_bound (IZR y * 0.15 + PlasmaEffect.time s * 0.8)) as [B1 B2].
  match goal with |- context [Py.int_R ?v mod 64] =>
    pose proof (int_R_range v 0 62 ltac:(lra) ltac:(lra)) as H;
    set (n := Py.int_R v) in * end.
  rewrite Z.mod_small by lia. split; [exact H|reflexivity].
Qed.

(* ------------------------------------------------------------------ *)
(** ** The sine-wave interference *)

Section SineWaves.
Import SineWaveEffect.

Lemma map_imap_invariant {A B} (g : A -> B) (l : list A) :
  forall f : nat -> A -> A,
    (forall i a, g (f i a) = g a) -> map g (imap f l) = map g l.
Proof.
  induction l as [|a l IH]; intros f Hf; [reflexivity|].
  rewrite imap_cons. cbn [map]. rewrite Hf. f_equal.
  apply IH. intros i a'. apply Hf.
Qed.

(** One source adds at most its amplitude, in absolute value. *)
Lemma wave_term_bound (src : source) (time0 : R) (px py : Z) :
  (0 <= amplitude src)%R ->
  let dx := (IZR px - x src)%R in
  let dy := (IZR py - y src)%R in
  let distance := sqrt (dx * dx + dy * dy) in
  (- amplitude src
   <= amplitude src * sin (freq src * distance + phase src + time0 * 2)
      * (1.0 / (1.0 + distance * 0.01))
   <= amplitude src)%R.
Proof.
  intros Ha dx dy distance.
  pose proof (sqrt_pos (dx * dx + dy * dy)) as Hd. fold distance in Hd.
  pose proof (SIN_bound (freq src * distance + phase src + time0 * 2)) as [S1 S2].
  set (sn := sin _) in *. set (a := amplitude src) in *.
  assert (Hpos : (0 < 1.0 + distance * 0.01)%R) by lra.
  assert (Hatt : (0 < 1.0 / (1.0 + distance * 0.01) <= 1)%R).
  { split.
    - apply Rdiv_lt_0_compat; lra.
    - apply (Rmult_le_reg_r (1.0 + distance * 0.01)); [exact Hpos|].
      unfold Rdiv. rewrite Rmult_assoc, Rinv_l by lra. lra. }
  set (att := (1.0 / (1.0 + distance * 0.01))%R) in *.
  assert (H1 : (- a <= a * sn <= a)%R) by nra.
  split; nra.
Qed.

Lemma wave_fold_bound (time0 : R) (px py : Z) (l : list source) :
  Forall (fun src => (0 <= amplitude src)%R) l ->
  forall acc : R,
    let total :=
      fold_left
        (fun total_amplitude src =>
           let dx := (IZR px - x src)%R in
           let dy := (IZR py - y src)%R in
           let distance := sqrt (dx * dx + dy * dy) in
           let wave_value :=
             (amplitude src * sin (freq src * distance + phase src + time0 * 2))%R in
           let attenuation := (1.0 / (1.0 + distance * 0.01))%R in
           (total_amplitude + wave_value * attenuation)%R) l acc in
    (acc - fold_right Rplus 0 (map amplitude l) <= total
     <= acc + fold_right Rplus 0 (map amplitude l))%R.
Proof.
  induction l as [|src l IH]; intros Hl acc; cbn [fold_left map fold_right].
  - lra.
  - inversion Hl as [|src0 l0 Hsrc Hl']; subst.
    pose proof (wave_term_bound src time0 px py Hsrc) as Hb. cbv zeta in Hb.
    cbv zeta in IH |- *.
    match goal with |- context [fold_left ?f l ?acc1] =>
      pose proof (IH Hl' acc1) as Hi end.
    lra.
Qed.

Lemma sine_wave_amplitudes (cs : list call) :
  map amplitude
    (wave_sources (after (fun s => fst (update s)) reset cs __init__))
  = [1.0; 0.8; 0.9; 0.7]%R.
Proof.
  assert (H : forall s,
             map amplitude (wave_sources s) = [1.0; 0.8; 0.9; 0.7]%R ->
             map amplitude
               (wave_sources (after (fun s => fst (update s)) reset cs s))
             = [1.0; 0.8; 0.9; 0.7]%R).
  { induction cs as [|c cs IH]; intros s Hs; [exact Hs|].
    unfold after. cbn [fold_left]. apply IH. destruct c.
    - unfold update. cbn [fst wave_sources].
      rewrite map_imap_invariant; [exact Hs|reflexivity].
    - exact Hs. }
  apply H. reflexivity.
Qed.

(** X23.  The interference of the four waves never exceeds the sum of
    their amplitudes, 3.4, in any frame and at any pixel: each wave is
    its amplitude times a sine times an attenuation of (0, 1], and the
    amplitudes are never changed. *)
Theorem sine_wave_interference_is_bounded :
  forall (cs : list call) (px py : Z),
    let s := after (fun s => fst (update s)) reset cs __init__ in
    (- 3.4 <= _calculate_wave_interference s px py <= 3.4)%R.
Proof.
  intros cs px py s. unfold _calculate_wave_interference.
  pose proof (sine_wave_amplitudes cs) as Ha. fold s in Ha.
  assert (Hpos : Forall (fun src => (0 <= amplitude src)%R) (wave_sources s)).
  { apply List.Forall_forall. intros src Hin.
    apply (in_map amplitude) in Hin. rewrite Ha in Hin.
    cbn [In] in Hin. destruct Hin as [<-|[<-|[<-|[<-|[]]]]]; lra. }
  pose proof (wave_fold_bound (time s) px py (wave_sources s) Hpos 0%R) as Hb.
  cbv zeta in Hb. rewrite Ha in Hb. cbn [fold_right] in Hb. lra.
Qed.

(** X24.  Every frame puts the wave sources back on their orbits: source
    number [i] lies at a distance of 5..35 pixels from the centre of the
    bitmap and gets a frequency of [0.1 + 0.05 i] give or take 0.05, while
    its amplitude and phase stay as constructed; the number of sources
    does not change. *)
Theorem sine_wave_sources_stay_on_their_orbits :
  forall (s : t),
    let s1 := fst (update s) in
    length (wave_sources s1) = length (wave_sources s) /\
    forall (i : nat) (src : source),
      wave_sources s1 !! i = Some src ->
      exists old,
        wave_sources s !! i = Some old /\
        amplitude src = amplitude old /\ phase src = phase old /\
        (let dx := x src - IZR ((width s / 2) / 2) in
         let dy := y src - IZR ((height s / 2) / 2) in
         5 * 5 <= dx * dx + dy * dy <= 35 * 35)%R /\
        (0.05 + INR i * 0.05 <= freq src <= 0.15 + INR i * 0.05)%R.
Proof.
  intros s s1. unfold s1, update. cbn [fst wave_sources].
  split; [apply length_imap|].
  intros i src Hsrc. apply list_lookup_imap_Some in Hsrc.
  destruct Hsrc as (old & Hold & ->). exists old.
  split; [exact Hold|]. unfold move_source. cbv zeta.
  cbn [x y freq amplitude phase].
  split; [reflexivity|]. split; [reflexivity|].
  set (time1 := (time s + 0.08)%R).
  pose proof (SIN_bound (time1 * 0.2 + INR i)) as [R1 R2].
  pose proof (SIN_bound (time1 * 0.4 + INR i)) as [F1 F2].
  set (angle := (time1 * 0.3 + INR i * 1.57)%R).
  pose proof (sin2_cos2 angle) as SC. unfold Rsqr in SC.
  set (radius := (20 + 15 * sin (time1 * 0.2 + INR i))%R) in *.
  assert (Hr : (5 <= radius <= 35)%R) by (unfold radius; lra).
  split; [|lra].
  set (cx := IZR (width s / 2 / 2)). set (cy := IZR (height s / 2 / 2)).
  replace ((cx + radius * cos angle - cx) * (cx + radius * cos angle - cx)
           + (cy + radius * sin angle - cy) * (cy + radius * sin angle - cy))%R
    with (radius * radius * (sin angle * sin angle + cos angle * cos angle))%R
    by ring.
  rewrite SC. nra.
Qed.

End SineWaves.

(* ------------------------------------------------------------------ *)
(** ** The streamers *)

Section StreamersState.
Import StreamersEffect.

Lemma new_streamer_ok (g : Random.rng) :
  streamer_ok (fst (new_streamer 320 240 g)).
Proof.
  unfold new_streamer. change (320 / 2 + 20) with 180.
  change (240 / 2 - 10) with 110.
  pose proof (randint_range (-20) 180 g ltac:(lia)) as X.
  destruct (Random.randint (-20) 180 g) as [xs g1].
  pose proof (randint_range 10 110 g1 ltac:(lia)) as Y.
  destruct (Random.randint 10 110 g1) as [yb g2].
  pose proof (uniform_range 5 25 g2 ltac:(lra)) as A.
  destruct (Random.uniform 5 25 g2) as [am g3].
  pose proof (uniform_range 0.05 0.15 g3 ltac:(lra)) as F.
  destruct (Random.uniform 0.05 0.15 g3) as [fr g4].
  pose proof (uniform_range 0.5 2.0 g4 ltac:(lra)) as V.
  destruct (Random.uniform 0.5 2.0 g4) as [sp g5].
  destruct (Random.uniform 0 6.28 g5) as [ph g6].
  pose proof (randint_range 1 31 g6 ltac:(lia)) as C.
  destruct (Random.randint 1 31 g6) as [co g7].
  pose proof (randint_range 1 3 g7 ltac:(lia)) as T.
  destruct (Random.randint 1 3 g7) as [th g8].
  pose proof (choice_in 1 [-1; 1] g8 ltac:(discriminate)) as D.
  destruct (Random.choice 1 [-1; 1] g8) as [di g9].
  pose proof (uniform_range 0.02 0.08 g9 ltac:(lra)) as W.
  destruct (Random.uniform 0.02 0.08 g9) as [ws g10].
  cbn [fst] in *. unfold streamer_ok.
  cbn [x_start y_base amplitude frequency speed color thickness direction
       wave_speed].
  split; [split; [apply (IZR_le (-50)) | apply (IZR_le _ 210)]; lia|].
  split; [exact Y|]. split; [exact A|]. split; [exact F|].
  split; [lra|]. split; [exact C|]. split; [exact T|].
  split; [cbn [In] in D; intuition lia|exact W].
Qed.

Lemma move_ok (st : streamer) (g : Random.rng) :
  streamer_ok st -> streamer_ok (fst (move 320 240 st g)).
Proof.
  intros (X & Y & A & F & V & C & T & D & W). unfold move.
  change (320 / 2 + 50) with 210. change (320 / 2 + 20) with 180.
  change (240 / 2 - 10) with 110.
  set (xs := (x_start st + speed st * IZR (direction st))%R).
  assert (Hxs : direction st = 1 /\ xs = (x_start st + speed st)%R
                \/ direction st = -1 /\ xs = (x_start st - speed st)%R).
  { unfold xs. destruct D as [->| ->]; [right|left]; split; try reflexivity; lra. }
  destruct (_ || _) eqn:E.
  - assert (Hx1 : forall (p : Z * Random.rng),
              -50 <= fst p <= 210 -> (-50 <= IZR (fst p) <= 210)%R).
    { intros p Hp. split; [apply (IZR_le (-50)) | apply (IZR_le _ 210)]; lia. }
    assert (X1 : -50 <= fst (if 0 <? direction st
                             then Random.randint (-50) (-20) g
                             else Random.randint 180 210 g) <= 210).
    { destruct (0 <? direction st).
      - pose proof (randint_range (-50) (-20) g ltac:(lia)). lia.
      - pose proof (randint_range 180 210 g ltac:(lia)). lia. }
    apply Hx1 in X1.
    destruct (if 0 <? direction st then _ else _) as [xs1 g1].
    pose proof (randint_range 10 110 g1 ltac:(lia)) as Y'.
    destruct (Random.randint 10 110 g1) as [yb g2].
    pose proof (uniform_range 5 25 g2 ltac:(lra)) as A'.
    destruct (Random.uniform 5 25 g2) as [am g3].
    pose proof (uniform_range 0.05 0.15 g3 ltac:(lra)) as F'.
    destruct (Random.uniform 0.05 0.15 g3) as [fr g4].
    pose proof (uniform_range 0.5 2.0 g4 ltac:(lra)) as V'.
    destruct (Random.uniform 0.5 2.0 g4) as [sp g5].
    pose proof (randint_range 1 31 g5 ltac:(lia)) as C'.
    destruct (Random.randint 1 31 g5) as [co g6].
    pose proof (randint_range 1 3 g6 ltac:(lia)) as T'.
    destruct (Random.randint 1 3 g6) as [th g7].
    pose proof (uniform_range 0.02 0.08 g7 ltac:(lra)) as W'.
    destruct (Random.uniform 0.02 0.08 g7) as [ws g8].
    cbn [fst] in *. unfold streamer_ok.
    cbn [x_start y_base amplitude frequency speed color thickness direction
         wave_speed].
    split; [exact X1|]. split; [exact Y'|]. split; [exact A'|].
    split; [exact F'|]. split; [lra|]. split; [exact C'|].
    split; [exact T'|]. split; [exact D|exact W'].
  - cbn [fst]. unfold streamer_ok.
    cbn [x_start y_base amplitude frequency speed color thickness direction
         wave_speed].
    split; [|split; [exact Y|]; split; [exact A|]; split; [exact F|];
             split; [exact V|]; split; [exact C|]; split; [exact T|];
             split; [exact D|exact W]].
    apply orb_false_iff in E. destruct E as [E1 E2].
    destruct Hxs as [[Hd Hx]|[Hd Hx]]; rewrite Hd in E1, E2.
    + change (0 <? 1) with true in E1. cbn [andb] in E1.
      destruct (Rgt_dec xs 210); [discriminate|]. lra.
    + change (-1 <? 0) with true in E2. cbn [andb] in E2.
      destruct (Rlt_dec xs (-50)); [discriminate|]. lra.
Qed.

Lemma init_streamers_spec (s : t) (g : Random.rng) :
  width s = 320 -> height s = 240 ->
  let s1 := fst (_init_streamers s g) in
  width s1 = 320 /\ height s1 = 240 /\
  num_streamers s1 = num_streamers s /\
  length (streamers s1) = Z.to_nat (num_streamers s) /\
  Forall streamer_ok (streamers s1).
Proof.
  intros W H. unfold _init_streamers. rewrite W, H.
  assert (G : forall (l : list Z) (acc : list streamer * Random.rng),
            let r := fold_left
                       (fun acc _ =>
                          let '(st, g') := new_streamer 320 240 (snd acc) in
                          (fst acc ++ [st], g')) l acc in
            length (fst r) = (length (fst acc) + length l)%nat /\
            (Forall streamer_ok (fst acc) -> Forall streamer_ok (fst r))).
  { induction l as [|a l IH]; intros acc; cbn [fold_left].
    - split; [cbn [length]; lia|auto].
    - cbv zeta in IH. pose proof (new_streamer_ok (snd acc)) as Hok.
      destruct (new_streamer 320 240 (snd acc)) as [st g'].
      cbn [fst] in Hok.
      destruct (IH (fst acc ++ [st], g')) as [L F]. cbn [fst] in L, F.
      rewrite length_app in L. cbn [length] in L |- *. split; [lia|].
      intros Hacc. apply F, Forall_app. split; [exact Hacc|].
      constructor; [exact Hok|constructor]. }
  specialize (G (Py.range (num_streamers s)) ([], g)). cbv zeta in G.
  destruct (fold_left _ _ _) as [l g1]. cbn [fst length] in G |- *.
  cbn [width height num_streamers streamers].
  destruct G as [L F]. repeat (split; [reflexivity|]). split.
  - rewrite L, range_seq, length_map, length_seq. reflexivity.
  - apply F. constructor.
Qed.

Lemma streamers_inv_reset (s : t) (g : Random.rng) :
  streamers_inv s -> streamers_inv (fst (reset s g)).
Proof.
  intros (W & H & N & _). unfold reset.
  match goal with |- context [_init_streamers ?s0 g] =>
    destruct (init_streamers_spec s0 g W H) as (W1 & H1 & N1 & L1 & F1) end.
  cbn [num_streamers] in *. unfold streamers_inv.
  split; [exact W1|]. split; [exact H1|]. split; [rewrite N1; exact N|].
  split; [rewrite L1, N; reflexivity|exact F1].
Qed.

Lemma streamers_inv_init (g : Random.rng) : streamers_inv (fst (__init__ g)).
Proof.
  unfold __init__.
  match goal with |- context [_init_streamers ?s0 g] =>
    destruct (init_streamers_spec s0 g eq_refl eq_refl)
      as (W1 & H1 & N1 & L1 & F1);
    destruct (_init_streamers s0 g) as [s1 g1] end.
  cbn [fst num_streamers] in *.
  apply streamers_inv_reset. unfold streamers_inv.
  split; [exact W1|]. split; [exact H1|]. split; [exact N1|].
  split; [rewrite L1; reflexivity|exact F1].
Qed.

Lemma streamers_inv_update (s : t) (g : Random.rng) :
  streamers_inv s -> streamers_inv (fst (fst (update s g))).
Proof.
  intros (W & H & N & L & F). unfold update. rewrite W, H.
  assert (G : forall (l : list streamer)
                     (acc : list streamer * Random.rng * list write),
            Forall streamer_ok l ->
            let r := fold_left (streamer_step 320 240) l acc in
            length (fst (fst r)) = (length (fst (fst acc)) + length l)%nat /\
            (Forall streamer_ok (fst (fst acc)) ->
             Forall streamer_ok (fst (fst r)))).
  { induction l as [|st l IH]; intros acc Hl; cbn [fold_left].
    - split; [cbn [length]; lia|auto].
    - cbv zeta in IH. inversion Hl as [|st0 l0 Hst Hl']; subst.
      destruct acc as [[done g0] ws].
      assert (E : exists st1 g1 ws1,
                streamer_step 320 240 (done, g0, ws) st = (done ++ [st1], g1, ws1)
                /\ streamer_ok st1).
      { pose proof (move_ok st g0 Hst) as Hok. unfold streamer_step.
        destruct (move 320 240 st g0) as [st1 g1]. eauto. }
      destruct E as (st1 & g1 & ws1 & E & Hok). rewrite E.
      destruct (IH (done ++ [st1], g1, ws1) Hl') as (L1 & F1).
      cbn [fst] in *. rewrite length_app in L1. cbn [length] in L1 |- *.
      split; [lia|]. intros Hacc. apply F1, Forall_app.
      split; [exact Hacc|]. constructor; [exact Hok|constructor]. }
  specialize (G (streamers s) ([], g, clear s) F). cbv zeta in G.
  destruct (fold_left _ _ _) as [[l g1] ws].
  cbn [fst length] in G |- *. destruct G as (L1 & F1).
  unfold streamers_inv. cbn [width height num_streamers streamers].
  split; [reflexivity|]. split; [reflexivity|]. split; [exact N|].
  split; [lia|]. apply F1. constructor.
Qed.

(** X25.  The streamers keep their shape: whatever updates and resets are
    made and whatever the random source draws, there are 8 streamers, each
    keeps a colour of 1..31 (never the background), a thickness of 1..3, a
    direction of -1 or 1, a base line of 10..110, and a start column
    between -50 and 210: a streamer that passes one of the two ends is
    put back at the other side in the same call. *)
Theorem streamers_keep_their_shape :
  forall (g : Random.rng) (cs : list call),
    streamers_inv
      (fst (after_random (fun s g => fst (update s g)) reset cs (__init__ g))).
Proof.
  intros g cs. generalize (streamers_inv_init g).
  generalize (__init__ g) as st. induction cs as [|c cs IH]; intros st H.
  - exact H.
  - unfold after_random. cbn [fold_left]. apply IH.
    destruct c; cbn [fst].
    + apply streamers_inv_update, H.
    + apply streamers_inv_reset, H.
Qed.

End StreamersState.

(* ------------------------------------------------------------------ *)
(** ** How high the fire burns *)

Section FireHeight.
Import FireEffect.
Variables w h : Z.

Lemma get_set_cases (buf : grid) (y x v y' x' : Z) :
  get (set buf y x v) y' x' = get buf y' x' \/
  Z.to_nat y' = Z.to_nat y /\ get (set buf y x v) y' x' = v.
Proof.
  unfold get, set.
  destruct (decide (Z.to_nat y' = Z.to_nat y)) as [Ey|Ey].
  - rewrite Ey, list_lookup_alter_eq.
    destruct (buf !! Z.to_nat y) as [row|]; cbn; [|left; reflexivity].
    destruct (decide (Z.to_nat x' = Z.to_nat x)) as [Ex|Ex].
    + rewrite Ex. destruct (decide (Z.to_nat x < length row)%nat) as [Hl|Hl].
      * right. rewrite list_lookup_insert_eq by exact Hl. split; reflexivity.
      * left. rewrite !lookup_ge_None_2; [reflexivity|lia|].
        rewrite length_insert. lia.
    + left. rewrite list_lookup_insert_ne by congruence. reflexivity.
  - left. rewrite list_lookup_alter_ne by congruence. reflexivity.
Qed.

Lemma set_capped (buf : grid) (y x v : Z) :
  0 <= y -> 0 <= v <= fire_cap h y ->
  fire_capped h buf -> fire_capped h (set buf y x v).
Proof.
  intros Hy Hv Hb y' x' Hy'.
  destruct (get_set_cases buf y x v y' x') as [->|[Ey ->]]; [apply Hb, Hy'|].
  replace y' with y by lia. exact Hv.
Qed.

(** The sum over the sampled cells is at most their number times a bound
    on each of them. *)
Lemma heat_around_bound (buf : grid) (x y M : Z) :
  (forall ny nx, y <= ny <= y + 1 -> get buf ny nx <= M) ->
  fst (heat_around w h buf x y) <= snd (heat_around w h buf x y) * M /\
  0 <= snd (heat_around w h buf x y).
Proof.
  intros Hb. unfold heat_around.
  assert (G : forall (l : list (Z * Z)) (acc : Z * Z),
            Forall (fun d => 0 <= snd d <= 1) l ->
            fst acc <= snd acc * M /\ 0 <= snd acc ->
            let r := fold_left
                       (fun acc d =>
                          let nx := x + fst d in
                          let ny := y + snd d in
                          if (0 <=? nx) && (nx <? w) && (0 <=? ny) && (ny <? h)
                          then (fst acc + get buf ny nx, snd acc + 1)
                          else acc) l acc in
            fst r <= snd r * M /\ 0 <= snd r).
  { induction l as [|d l IH]; intros acc Hl Hacc; cbn [fold_left]; [exact Hacc|].
    inversion Hl as [|d0 l0 Hd Hl']; subst. apply IH; [exact Hl'|].
    cbv zeta. destruct (_ && _); [|exact Hacc]. cbn [fst snd].
    pose proof (Hb (y + snd d) (x + fst d) ltac:(lia)). lia. }
  apply G.
  - repeat constructor; cbn [snd]; lia.
  - cbn [fst snd]. lia.
Qed.

Lemma int_Q_cooled (q : Q) (k : Z) :
  (q <= inject_Z k)%Q -> Z.max 0 (Py.int_Q q) <= Z.max 0 k.
Proof.
  intros Hq. unfold Py.int_Q. destruct (Qle_bool 0 q) eqn:E.
  - pose proof (Qfloor_le q) as Hf.
    assert (H : (inject_Z (Qfloor q) <= inject_Z k)%Q) by lra.
    rewrite <- Zle_Qle in H. lia.
  - apply Qle_bool_false in E.
    assert (H : Qceiling q <= 0).
    { change 0 with (Qceiling 0). apply Qceiling_resp_le. lra. }
    lia.
Qed.

Lemma new_heat_capped (buf : grid) (g : Random.rng) (x y : Z) :
  0 <= y -> fire_capped h buf ->
  0 <= fst (new_heat w h buf g x y) <= fire_cap h y.
Proof.
  intros Hy Hb. unfold new_heat.
  assert (Hc : fire_cap h y = Z.max 0 (fire_cap h (y + 1) - 1))
    by (unfold fire_cap; lia).
  assert (Hrows : forall ny nx,
            y <= ny <= y + 1 -> get buf ny nx <= fire_cap h (y + 1)).
  { intros ny nx Hny. pose proof (Hb ny nx ltac:(lia)).
    unfold fire_cap in *. lia. }
  pose proof (heat_around_bound buf x y _ Hrows) as [Hs Hn].
  destruct (heat_around w h buf x y) as [heat_sum heat_count].
  cbn [fst snd] in Hs, Hn.
  destruct (Z.ltb_spec 0 heat_count) as [Hpos|Hpos];
    [|cbn [fst]; unfold fire_cap; lia].
  pose proof (randint_range 1 3 g ltac:(lia)) as Hcool.
  destruct (Random.randint 1 3 g) as [cooling g1]. cbn [fst] in Hcool.
  assert (Havg : (inject_Z heat_sum / inject_Z heat_count - inject_Z cooling
                  <= inject_Z (fire_cap h (y + 1) - 1))%Q).
  { assert (Hcq : (0 < inject_Z heat_count)%Q)
      by (rewrite <- (Zlt_Qlt 0); exact Hpos).
    assert (Hsq : (inject_Z heat_sum
                   <= inject_Z heat_count * inject_Z (fire_cap h (y + 1)))%Q)
      by (rewrite <- inject_Z_mult, <- Zle_Qle; exact Hs).
    assert (Hkq : (1 <= inject_Z cooling)%Q)
      by (rewrite <- (Zle_Qle 1); lia).
    assert (Hd : (inject_Z heat_sum / inject_Z heat_count
                  <= inject_Z (fire_cap h (y + 1)))%Q).
    { apply Qle_shift_div_r; [exact Hcq|]. rewrite Qmult_comm. exact Hsq. }
    unfold Z.sub at 1. rewrite inject_Z_plus.
    change (inject_Z (- (1))) with (-1)%Q.
    set (avg := (inject_Z heat_sum / inject_Z heat_count)%Q) in *.
    clearbody avg. lra. }
  pose proof (int_Q_cooled _ _ Havg) as Hheat.
  set (heat := Z.max 0 (Py.int_Q _)) in *.
  assert (Hheat0 : 0 <= heat) by (unfold heat; lia).
  destruct (Random.randint 0 10 g1) as [flicker g2].
  destruct (flicker <? 3).
  - pose proof (randint_range 0 2 g2 ltac:(lia)) as He.
    destruct (Random.randint 0 2 g2) as [extra g3]. cbn [fst] in *. lia.
  - cbn [fst]. lia.
Qed.

Lemma cell_step_capped (y : Z) (st : grid * Random.rng) (x : Z) :
  0 <= y -> fire_capped h (fst st) -> fire_capped h (fst (cell_step w h y st x)).
Proof.
  intros Hy Hb. unfold cell_step.
  pose proof (new_heat_capped (fst st) (snd st) x y Hy Hb) as Hv.
  destruct (new_heat w h (fst st) (snd st) x y) as [v g1]. cbn [fst] in *.
  apply set_capped; assumption.
Qed.

Lemma in_range3_down (n y : Z) :
  In y (Py.range3 (n - 2) (-1) (-1)) -> 0 <= y <= n - 2.
Proof.
  unfold Py.range3. change (0 <? -1) with false. cbv iota.
  rewrite in_map_iff. intros (k & <- & Hk). apply in_seq in Hk.
  assert (Hq : (n - 2 - -1 - -1 - 1) / - -1 = n - 1).
  { change (- -1) with 1. rewrite Z.div_1_r. lia. }
  rewrite Hq in Hk. lia.
Qed.

Lemma update_fire_simulation_capped (buf : grid) (g : Random.rng) :
  0 < h -> fire_capped h buf ->
  fire_capped h (fst (_update_fire_simulation w h buf g)).
Proof.
  intros Hh Hb. unfold _update_fire_simulation.
  apply (fold_left_inv_in (fun st => fire_capped h (fst st))).
  - intros st x _ Hst. unfold source_step.
    destruct (Random.randint (-3) 3 (snd st)) as [jitter g1]. cbn [fst].
    apply set_capped; [lia| |exact Hst]. unfold fire_cap. lia.
  - apply (fold_left_inv_in (fun st => fire_capped h (fst st))); [|exact Hb].
    intros st y Hy Hst. apply in_range3_down in Hy. unfold row_step.
    apply (fold_left_inv_in (fun st => fire_capped h (fst st))); [|exact Hst].
    intros st' x _. apply cell_step_capped. lia.
Qed.

Lemma init_fire_source_capped (buf : grid) :
  0 < h -> fire_capped h buf -> fire_capped h (_init_fire_source w h buf).
Proof.
  intros Hh Hb. unfold _init_fire_source.
  apply (fold_left_inv_in (fire_capped h)); [|exact Hb].
  intros b x _ Hb'. apply set_capped; [lia| |exact Hb']. unfold fire_cap. lia.
Qed.

End FireHeight.

Section FireHeightRun.
Import FireEffect.

Lemma zeros_capped (w h : Z) : fire_capped h (zeros w h).
Proof.
  intros y x Hy. unfold get, zeros.
  assert (E : default 0 (replicate (Z.to_nat h) (replicate (Z.to_nat w) 0)
                           !! Z.to_nat y ≫= fun row => row !! Z.to_nat x) = 0).
  { destruct (replicate (Z.to_nat h) _ !! Z.to_nat y) as [row|] eqn:Er;
      [|reflexivity].
    apply lookup_replicate in Er. destruct Er as [-> _]. cbn.
    destruct (replicate (Z.to_nat w) 0 !! Z.to_nat x) as [v|] eqn:Ev;
      [|reflexivity].
    apply lookup_replicate in Ev. destruct Ev as [-> _]. reflexivity. }
  rewrite E. unfold fire_cap. lia.
Qed.

Lemma fire_run_capped (ops : list op) :
  forall (s : t) (g : Random.rng),
    fire_width s = 80 /\ fire_height s = 60 /\ fire_capped 60 (fire_buffer s) ->
    let s' := fst (run ops s g) in
    fire_width s' = 80 /\ fire_height s' = 60 /\ fire_capped 60 (fire_buffer s').
Proof.
  induction ops as [|[|] ops IH]; intros s g (W & H & C); cbn [run].
  - cbn [fst]. auto.
  - pose proof (update_fire_simulation_capped 80 60 (fire_buffer s) g
                  ltac:(lia) C) as Hu.
    unfold update. rewrite W, H.
    destruct (_update_fire_simulation 80 60 (fire_buffer s) g) as [buf g1].
    apply IH. cbn [fst fire_width fire_height fire_buffer] in *. auto.
  - apply IH. unfold reset. cbn [fire_width fire_height fire_buffer].
    rewrite W, H. split; [reflexivity|]. split; [reflexivity|].
    apply init_fire_source_capped; [lia|exact C].
Qed.

(** X26.  How high the fire burns: whatever updates and resets are made
    and whatever the random source draws, the heat of row [y] of the fire
    is at most [y - 28] (the bottom row 59 holds at most 31, and each row
    up is cooled by at least 1), so the 29 rows at the top of the fire
    bitmap, rows 0..28, stay at heat 0, the black palette entry, for
    ever. *)
Theorem fire_never_rises_above_row_29 :
  forall (ops : list op) (g : Random.rng) (y x : Z),
    let buf := fire_buffer (fst (run ops __init__ g)) in
    0 <= y ->
    0 <= get buf y x <= Z.max 0 (y - 28) /\
    (y <= 28 -> get buf y x = 0).
Proof.
  intros ops g y x buf Hy.
  assert (H0 : fire_width __init__ = 80 /\ fire_height __init__ = 60 /\
               fire_capped 60 (fire_buffer __init__)).
  { split; [reflexivity|]. split; [reflexivity|].
    unfold __init__, reset. cbn [fire_buffer fire_width fire_height].
    apply init_fire_source_capped; [lia|].
    apply init_fire_source_capped; [lia|]. apply zeros_capped. }
  destruct (fire_run_capped ops __init__ g H0) as (_ & _ & C).
  fold buf in C. pose proof (C y x Hy) as Hc. unfold fire_cap in Hc.
  split; [lia|]. intros Hy'. lia.
Qed.

Lemma fire_never_rises_above_row_29_witness :
  get (fire_buffer (fst (run [Update; Update; Reset; Update] __init__
                             (Random.constant 5 0)))) 20 40 = 0.
Proof.
  apply (fire_never_rises_above_row_29
           [Update; Update; Reset; Update] (Random.constant 5 0) 20 40); lia.
Defined.

End FireHeightRun.

(* ------------------------------------------------------------------ *)
(** ** The text rain of [ColorMatrixEffect] *)

Section TextRain.
Import ColorMatrixEffect ColorMatrixRain.

Lemma drops_inv_set_position (s : t) (col : Z) (p : Q) :
  (-25 <= p)%Q -> (p <= 25)%Q -> drops_inv s -> drops_inv (set_position s col p).
Proof.
  intros H1 H2 (C & R & K & Lp & Ls & La & Lc & Fp & Fs & Fc).
  unfold drops_inv, set_position.
  cbn [columns rows colors drop_positions drop_speeds drop_active drop_colors].
  rewrite length_insert. repeat (split; [assumption|]).
  split; [|split; assumption].
  apply Forall_insert; [exact Fp|]. split; assumption.
Qed.

Lemma drops_inv_set_speed (s : t) (col : Z) (v : Q) :
  In v speeds -> drops_inv s -> drops_inv (set_speed s col v).
Proof.
  intros H1 (C & R & K & Lp & Ls & La & Lc & Fp & Fs & Fc).
  unfold drops_inv, set_speed.
  cbn [columns rows colors drop_positions drop_speeds drop_active drop_colors].
  rewrite length_insert. repeat (split; [assumption|]).
  split; [|assumption]. apply Forall_insert; assumption.
Qed.

Lemma drops_inv_set_active (s : t) (col : Z) (a : bool) :
  drops_inv s -> drops_inv (set_active s col a).
Proof.
  intros (C & R & K & Lp & Ls & La & Lc & Fp & Fs & Fc).
  unfold drops_inv, set_active.
  cbn [columns rows colors drop_positions drop_speeds drop_active drop_colors].
  rewrite length_insert. repeat (split; [assumption|]). assumption.
Qed.

Lemma drops_inv_set_color (s : t) (col : Z) (c : rgb) :
  In c colors_table -> drops_inv s -> drops_inv (set_color s col c).
Proof.
  intros H1 (C & R & K & Lp & Ls & La & Lc & Fp & Fs & Fc).
  unfold drops_inv, set_color.
  cbn [columns rows colors drop_positions drop_speeds drop_active drop_colors].
  rewrite length_insert. repeat (split; [assumption|]).
  apply Forall_insert; assumption.
Qed.

Lemma rain_set_position_twice (s : t) (col : Z) (p p' : Q) :
  set_position (set_position s col p) col p' = set_position s col p'.
Proof.
  unfold set_position.
  cbn [columns rows colors drop_positions drop_speeds drop_active drop_colors
       active_labels time].
  rewrite list_insert_insert_eq. reflexivity.
Qed.

Lemma rain_position_in (s : t) (col : Z) :
  0 <= col < 35 -> drops_inv s ->
  (-25 <= position s col)%Q /\ (position s col <= 25)%Q.
Proof.
  intros Hc (_ & _ & _ & Lp & _ & _ & _ & Fp & _). unfold position.
  destruct (lookup_lt_is_Some_2 (drop_positions s) (Z.to_nat col)) as [p Hp];
    [lia|].
  rewrite Hp. cbn [default]. exact (Forall_lookup_1 _ _ _ _ Fp Hp).
Qed.

Lemma rain_speed_in (s : t) (col : Z) :
  0 <= col < 35 -> drops_inv s -> In (speed s col) speeds.
Proof.
  intros Hc (_ & _ & _ & _ & Ls & _ & _ & _ & Fs & _). unfold speed.
  destruct (lookup_lt_is_Some_2 (drop_speeds s) (Z.to_nat col)) as [v Hv];
    [lia|].
  rewrite Hv. cbn [default]. exact (Forall_lookup_1 _ _ _ _ Fs Hv).
Qed.

Lemma rain_color_in (s : t) (col : Z) :
  0 <= col < 35 -> drops_inv s -> In (drop_color s col) colors_table.
Proof.
  intros Hc (_ & _ & _ & _ & _ & _ & Lc & _ & _ & Fc). unfold drop_color.
  destruct (_ !! _) as [c|] eqn:E; cbn [default].
  - exact (Forall_lookup_1 _ _ _ _ Fc E).
  - apply lookup_ge_None_1 in E. unfold rgb in *. lia.
Qed.

Lemma speeds_range (v : Q) : In v speeds -> (1 # 2 <= v)%Q /\ (v <= 2)%Q.
Proof.
  unfold speeds. cbn [In].
  intros [<-|[<-|[<-|[<-|[]]]]]; split; discriminate.
Qed.

Lemma rain_position_set_eq (s : t) (col : Z) (p : Q) :
  0 <= col < 35 -> drops_inv s -> position (set_position s col p) col = p.
Proof.
  intros Hc (_ & _ & _ & Lp & _). unfold position, set_position.
  cbn [drop_positions]. rewrite list_lookup_insert_eq by lia. reflexivity.
Qed.

Lemma choice_color (s : t) (g : Random.rng) :
  colors s = colors_table ->
  In (fst (Random.choice (0, 255, 0) (colors s) g)) colors_table.
Proof.
  intros K. rewrite K. apply choice_in. discriminate.
Qed.

Lemma drops_inv_add_label (s : t) (l : label) :
  drops_inv s -> drops_inv (add_label s l).
Proof. intros H. exact H. Qed.

Lemma move_drop_spec (s : t) (g : Random.rng) (col : Z) :
  0 <= col < 35 -> drops_inv s ->
  drops_inv (fst (move_drop s g col)) /\
  active_labels (fst (move_drop s g col)) = active_labels s.
Proof.
  intros Hc H. unfold move_drop. cbv zeta.
  destruct (rain_position_in s col Hc H) as [P1 P2].
  destruct (speeds_range _ (rain_speed_in s col Hc H)) as [V1 V2].
  rewrite rain_position_set_eq by assumption.
  assert (R : rows (set_position s col (position s col + speed s col * (4 # 10)))
              = 20) by (destruct H as (_ & R & _); exact R).
  assert (K : colors (set_position s col
                        (position s col + speed s col * (4 # 10)))
              = colors_table) by (destruct H as (_ & _ & K & _); exact K).
  rewrite R. change (inject_Z (20 + 5)) with 25%Q.
  destruct (Py.gt_Q _ _) eqn:E.
  - pose proof (randint_Q (-25) (-5) g (-25) 25 ltac:(lia)
                  ltac:(discriminate) ltac:(discriminate)) as [Q1 Q2].
    destruct (Random.randint (-25) (-5) g) as [p g2]. cbn [fst] in Q1, Q2.
    pose proof (choice_in 1%Q speeds g2 ltac:(discriminate)) as V.
    destruct (Random.choice 1%Q speeds g2) as [v g3]. cbn [fst] in V.
    pose proof (choice_color _ g3 K) as C.
    destruct (Random.choice (0, 255, 0) _ g3) as [c g4]. cbn [fst] in C.
    destruct (Random.choice true [true; true; false] g4) as [a g5].
    cbn [fst]. split; [|reflexivity].
    apply drops_inv_set_active, drops_inv_set_color; [exact C|].
    apply drops_inv_set_speed; [exact V|].
    rewrite rain_set_position_twice.
    apply drops_inv_set_position; assumption.
  - cbn [fst]. split; [|reflexivity]. apply gt_false in E.
    apply drops_inv_set_position; [lra|exact E|exact H].
Qed.

Lemma reactivate_spec (s : t) (g : Random.rng) (col : Z) :
  drops_inv s ->
  drops_inv (fst (reactivate s g col)) /\
  active_labels (fst (reactivate s g col)) = active_labels s.
Proof.
  intros H. unfold reactivate.
  destruct (Random.randint 0 150 g) as [r g1].
  destruct (r <? 3); [|split; [exact H|reflexivity]].
  pose proof (randint_Q (-25) (-5) g1 (-25) 25 ltac:(lia)
                ltac:(discriminate) ltac:(discriminate)) as [Q1 Q2].
  destruct (Random.randint (-25) (-5) g1) as [p g2]. cbn [fst] in Q1, Q2.
  pose proof (choice_color s g2 (proj1 (proj2 (proj2 H)))) as C.
  destruct (Random.choice (0, 255, 0) (colors s) g2) as [c g3]. cbn [fst] in C |- *.
  split; [|reflexivity].
  apply drops_inv_set_color; [exact C|].
  apply drops_inv_set_position; [assumption..|].
  apply drops_inv_set_active, H.
Qed.

(** A label made by [update] is well formed and new. *)
Lemma add_character_spec (alloc : Z -> bool) (s : t) (g : Random.rng) (col : Z) :
  0 <= col < 35 -> drops_inv s ->
  drops_inv (fst (add_character alloc s g col)) /\
  exists new,
    active_labels (fst (add_character alloc s g col)) = active_labels s ++ new /\
    (length new <= 1)%nat /\
    Forall (fun l => label_ok l /\ _matrix_age l = 0) new.
Proof.
  intros Hc H. unfold add_character. cbv zeta.
  assert (Hnone : drops_inv s /\
            exists new, active_labels s = active_labels s ++ new /\
              (length new <= 1)%nat /\
              Forall (fun l => label_ok l /\ _matrix_age l = 0) new).
  { split; [exact H|]. exists []. rewrite app_nil_r.
    split; [reflexivity|]. split; [cbn; lia|constructor]. }
  destruct H as (C & R & K & H'). pose proof (conj C (conj R (conj K H'))) as H.
  rewrite R.
  destruct (Z.leb_spec 0 (Py.int_Q (position s col))) as [Y1|Y1];
    [|exact Hnone].
  destruct (Z.ltb_spec (Py.int_Q (position s col)) 20) as [Y2|Y2];
    [|exact Hnone].
  cbn [andb].
  destruct (Random.randint 0 3 g) as [r g1].
  destruct (r =? 0); [|exact Hnone].
  pose proof (choice_in 0 (Py.range characters_count) g1 ltac:(discriminate))
    as T. apply in_range in T.
  destruct (Random.choice 0 (Py.range characters_count) g1) as [char g2].
  cbn [fst] in T.
  destruct (alloc col); [|exact Hnone].
  cbn [fst]. split; [apply drops_inv_add_label, H|].
  eexists. split; [reflexivity|]. split; [cbn; lia|].
  constructor; [|constructor]. split; [|reflexivity].
  unfold label_ok. cbn [text color x y _matrix_age].
  split; [exact T|]. split; [apply rain_color_in; assumption|].
  split; [exists col; split; [exact Hc|reflexivity]|].
  split; [|lia].
  exists (Py.int_Q (position s col)). split; [lia|reflexivity].
Qed.

Lemma rain_col_step_spec (alloc : Z -> bool) (s : t) (g : Random.rng) (col : Z) :
  0 <= col < 35 -> drops_inv s ->
  drops_inv (fst (col_step alloc (s, g) col)) /\
  exists new,
    active_labels (fst (col_step alloc (s, g) col)) = active_labels s ++ new /\
    (length new <= 1)%nat /\
    Forall (fun l => label_ok l /\ _matrix_age l = 0) new.
Proof.
  intros Hc H. unfold col_step. destruct (active s col).
  - destruct (add_character_spec alloc s g col Hc H) as (H1 & new & E & L & F).
    destruct (add_character alloc s g col) as [s1 g1]. cbn [fst] in H1, E.
    destruct (move_drop_spec s1 g1 col Hc H1) as [H2 E2].
    split; [exact H2|]. exists new. rewrite E2. auto.
  - destruct (reactivate_spec s g col H) as [H2 E2].
    split; [exact H2|]. exists []. rewrite E2, app_nil_r.
    split; [reflexivity|]. split; [cbn; lia|constructor].
Qed.

(** The column loop adds at most one label per column, all new. *)
Lemma rain_columns_spec (alloc : Z -> bool) (cols : list Z) :
  Forall (fun col => 0 <= col < 35) cols ->
  forall (s : t) (g : Random.rng),
    drops_inv s ->
    let s' := fst (fold_left (col_step alloc) cols (s, g)) in
    drops_inv s' /\
    exists new,
      active_labels s' = active_labels s ++ new /\
      (length new <= length cols)%nat /\
      Forall (fun l => label_ok l /\ _matrix_age l = 0) new.
Proof.
  induction cols as [|col cols IH]; intros Hcols s g H; cbn [fold_left].
  - cbn [fst]. split; [exact H|]. exists []. rewrite app_nil_r.
    split; [reflexivity|]. split; [cbn; lia|constructor].
  - inversion Hcols as [|c0 l0 Hc Hcols']; subst.
    destruct (rain_col_step_spec alloc s g col Hc H) as (H1 & new1 & E1 & L1 & F1).
    destruct (col_step alloc (s, g) col) as [s1 g1]. cbn [fst] in H1, E1.
    destruct (IH Hcols' s1 g1 H1) as (H2 & new2 & E2 & L2 & F2).
    split; [exact H2|]. exists (new1 ++ new2).
    rewrite E2, E1, <- app_assoc. split; [reflexivity|].
    split; [rewrite length_app; cbn [length]; lia|].
    apply Forall_app. split; assumption.
Qed.

Lemma count_age_app (a : Z) (l1 l2 : list label) :
  count_age a (l1 ++ l2) = (count_age a l1 + count_age a l2)%nat.
Proof. unfold count_age. rewrite List.filter_app, length_app. reflexivity. Qed.

Lemma count_age_le_length (a : Z) (l : list label) :
  (count_age a l <= length l)%nat.
Proof.
  unfold count_age. induction l as [|x l IH]; cbn [List.filter length]; [lia|].
  destruct (_ =? _); cbn [length]; lia.
Qed.

Lemma count_age_none (a : Z) (l : list label) :
  Forall (fun x => _matrix_age x <> a) l -> count_age a l = 0%nat.
Proof.
  unfold count_age. induction 1 as [|x l Hx Hl IH]; cbn [List.filter];
    [reflexivity|].
  destruct (Z.eqb_spec (_matrix_age x) a); [contradiction|exact IH].
Qed.

Lemma sweep_spec (ls : list label) :
  Forall label_ok ls ->
  Forall label_ok (sweep ls) /\
  Forall (fun l => _matrix_age l <> 0) (sweep ls) /\
  forall a, (count_age a (sweep ls) <= count_age (a - 1) ls)%nat.
Proof.
  unfold sweep, count_age.
  induction 1 as [|l ls Hl Hls (IH1 & IH2 & IH3)]; cbn [map List.filter].
  - split; [constructor|]. split; [constructor|]. intros a. cbn. lia.
  - destruct Hl as (T & C & X & Y & A).
    destruct (Z.leb_spec (_matrix_age (aged l)) 50) as [Ha|Ha];
      cbn [_matrix_age aged] in Ha.
    + split; [|split].
      * constructor; [|exact IH1]. unfold label_ok.
        cbn [aged text color x y _matrix_age].
        repeat (split; [assumption|]). lia.
      * constructor; [|exact IH2]. cbn [aged _matrix_age]. lia.
      * intros a. cbn [List.filter aged _matrix_age]. specialize (IH3 a).
        destruct (Z.eqb_spec (_matrix_age l + 1) a),
                 (Z.eqb_spec (_matrix_age l) (a - 1));
          cbn [length]; lia.
    + split; [exact IH1|]. split; [exact IH2|].
      intros a. specialize (IH3 a).
      destruct (_ =? _); cbn [length]; lia.
Qed.

Lemma rain_update_inv (alloc : Z -> bool) (s : t) (g : Random.rng) :
  rain_inv s -> rain_inv (fst (update alloc s g)).
Proof.
  intros [H [Hl Hc]]. unfold update.
  destruct (sweep_spec (active_labels s) Hl) as (S1 & S2 & S3).
  assert (Hcols : Forall (fun col => 0 <= col < 35)
                         (Py.range (Z.min (columns s) 35))).
  { apply List.Forall_forall. intros col Hin. apply in_range in Hin. lia. }
  assert (Hlen : (length (Py.range (Z.min (columns s) 35)) <= 35)%nat).
  { rewrite range_seq, length_map, length_seq. lia. }
  match goal with |- context [fold_left _ _ (?s1, g)] =>
    destruct (rain_columns_spec alloc _ Hcols s1 g H)
      as (H' & new & E & L & F) end.
  cbn [active_labels] in E. split; [exact H'|]. rewrite E. split.
  - apply Forall_app. split; [exact S1|].
    eapply Forall_impl; [exact F|]. intros l [Hok _]. exact Hok.
  - intros a. rewrite count_age_app.
    destruct (Z.eq_dec a 0) as [->|Ha].
    + rewrite (count_age_none 0 (sweep _)) by exact S2.
      pose proof (count_age_le_length 0 new). lia.
    + rewrite (count_age_none a new).
      * specialize (S3 a). specialize (Hc (a - 1)). lia.
      * eapply Forall_impl; [exact F|]. intros l [_ Hage]. lia.
Qed.

Lemma rain_reset_inv (s : t) : rain_inv s -> rain_inv (reset s).
Proof.
  intros [H _]. split; [exact H|]. unfold reset. cbn [active_labels].
  split; [constructor|]. intros a. cbn. lia.
Qed.

Lemma rain_init_drop_inv (st : t * Random.rng) (i : Z) :
  drops_inv (fst st) -> drops_inv (fst (init_drop st i)).
Proof.
  destruct st as [s g]. cbn [fst]. intros H. unfold init_drop.
  destruct H as (C & R & K & H'). pose proof (conj C (conj R (conj K H'))) as H.
  rewrite R.
  pose proof (randint_Q (-20) 20 g (-25) 25 ltac:(lia) ltac:(discriminate)
                ltac:(discriminate)) as [P1 P2].
  destruct (Random.randint (-20) 20 g) as [p g1]. cbn [fst] in P1, P2.
  pose proof (choice_in 1%Q speeds g1 ltac:(discriminate)) as V.
  destruct (Random.choice 1%Q speeds g1) as [v g2]. cbn [fst] in V.
  destruct (Random.choice true [true; false] g2) as [a g3].
  pose proof (choice_color s g3 K) as Cc.
  destruct (Random.choice (0, 255, 0) (colors s) g3) as [c g4].
  cbn [fst] in Cc |- *.
  apply drops_inv_set_color; [exact Cc|].
  apply drops_inv_set_active, drops_inv_set_speed; [exact V|].
  apply drops_inv_set_position; assumption.
Qed.

Lemma rain_init_inv (g : Random.rng) : rain_inv (fst (__init__ g)).
Proof.
  unfold __init__. cbv zeta.
  change (320 / char_width) with 35. change (240 / char_height) with 20.
  match goal with |- context [fold_left init_drop ?l ?st0] =>
    pose proof (fold_left_inv_in (fun p => drops_inv (fst p)) init_drop l
                  (fun p a _ => rain_init_drop_inv p a) st0) as H;
    destruct (fold_left init_drop l st0) as [s1 g1] end.
  cbn [fst] in *. split.
  - apply H. unfold drops_inv.
    cbn [columns rows colors drop_positions drop_speeds drop_active drop_colors].
    rewrite !length_replicate.
    repeat (split; [reflexivity|]). split; [|split].
    + apply Forall_replicate. split; discriminate.
    + apply Forall_replicate. right. left. reflexivity.
    + apply Forall_replicate. left. reflexivity.
  - unfold reset. cbn [active_labels]. split; [constructor|].
    intros a. cbn. lia.
Qed.

Lemma rain_run_inv (ops : list op) :
  forall (s : t) (g : Random.rng),
    rain_inv s -> rain_inv (fst (run ops s g)).
Proof.
  induction ops as [|[alloc|] ops IH]; intros s g H; cbn [run].
  - exact H.
  - pose proof (rain_update_inv alloc s g H) as H1.
    destruct (update alloc s g) as [s1 g1]. apply IH, H1.
  - apply IH, rain_reset_inv, H.
Qed.

(** Labels whose ages fall in [n] classes of at most [b] labels each. *)
Lemma age_classes_bound (b : nat) (n : nat) :
  forall ls : list label,
    Forall (fun l => 0 <= _matrix_age l < Z.of_nat n) ls ->
    (forall a, (count_age a ls <= b)%nat) ->
    (length ls <= n * b)%nat.
Proof.
  induction n as [|n IH]; intros ls Hages Hcount.
  - destruct ls as [|l ls]; [cbn; lia|].
    inversion Hages as [|l0 ls0 Hl _]; subst. lia.
  - set (old := fun l => _matrix_age l =? Z.of_nat n).
    assert (Hsplit : forall l : list label,
              length l = (length (List.filter old l)
                          + length (List.filter (fun x => negb (old x)) l))%nat).
    { induction l as [|x l IHl]; cbn [List.filter length]; [reflexivity|].
      destruct (old x); cbn [negb length]; lia. }
    assert (Hrest : Forall (fun l => 0 <= _matrix_age l < Z.of_nat n)
                           (List.filter (fun x => negb (old x)) ls)).
    { apply List.Forall_forall. intros l Hin. apply List.filter_In in Hin.
      destruct Hin as [Hin Hold].
      rewrite List.Forall_forall in Hages. specialize (Hages l Hin).
      unfold old in Hold. destruct (Z.eqb_spec (_matrix_age l) (Z.of_nat n));
        [discriminate|]. lia. }
    assert (Hcount' : forall a,
              (count_age a (List.filter (fun x => negb (old x)) ls) <= b)%nat).
    { intros a. specialize (Hcount a). unfold count_age in *.
      assert (Hle : forall l : list label,
                (length (List.filter (fun l => (_matrix_age l =? a)%Z)
                           (List.filter (fun x => negb (old x)) l))
                 <= length (List.filter (fun l => (_matrix_age l =? a)%Z) l))%nat).
      { induction l as [|x l IHl]; cbn [List.filter length]; [lia|].
        destruct (old x); cbn [negb List.filter];
          destruct (_matrix_age x =? a); cbn [length]; lia. }
      specialize (Hle ls). lia. }
    specialize (IH _ Hrest Hcount'). specialize (Hcount (Z.of_nat n)).
    unfold count_age in Hcount. fold old in Hcount.
    rewrite (Hsplit ls). lia.
Qed.

(** X27.  The text rain keeps its shape: whatever updates and resets are
    made, whatever the random source draws and whether or not the heap
    has room for a label, the four per-column lists keep their 35 entries,
    every drop position lies in [-25, 25], every speed is one of 0.5, 1,
    1.5, 2 and every colour one of the eight of [self.colors]; every label
    shows a character of the set in one of these colours at a cell of the
    35 by 20 character grid and is at most 50 frames old, and no age is
    shared by more than 35 labels. *)
Theorem text_rain_keeps_its_shape :
  forall (g : Random.rng) (ops : list op),
    rain_inv (fst (run ops (fst (__init__ g)) (snd (__init__ g)))).
Proof.
  intros g ops. apply rain_run_inv, rain_init_inv.
Qed.

(** X28.  The text rain never holds more than 35 * 51 = 1785 labels: a
    frame makes at most one label per column and every label is removed
    once it is older than 50 frames.  Every label lies on the 320 by 240
    display. *)
Theorem text_rain_labels_are_bounded :
  forall (g : Random.rng) (ops : list op),
    let ls := active_labels (fst (run ops (fst (__init__ g)) (snd (__init__ g)))) in
    (length ls <= 1785)%nat /\
    Forall (fun l => 0 <= x l <= 306 /\ 8 <= y l <= 236) ls.
Proof.
  intros g ops ls.
  destruct (rain_run_inv ops _ (snd (__init__ g)) (rain_init_inv g))
    as [_ [Hok Hcount]].
  fold ls in Hok, Hcount. split.
  - change 1785%nat with (51 * 35)%nat. apply age_classes_bound; [|exact Hcount].
    eapply Forall_impl; [exact Hok|]. intros l (_ & _ & _ & _ & A). lia.
  - eapply Forall_impl; [exact Hok|].
    intros l (_ & _ & (col & Hc & ->) & (row & Hr & ->) & _).
    unfold char_width, char_height. lia.
Qed.

End TextRain.
